(** * usbloop / alsaloop: an audio-activity-gated ALSA loopback daemon

    Shallow embedding of [src/alsaloop.py] (the fuller variant) and of
    [src/usbloop.py] (the earlier variant), followed by the properties
    established about them.

    Conventions of the embedding:
    - Python exceptions are values of [exn]; a call that may raise returns
      a [result];
    - Python [str] is [string] (ASCII characters), [bytes] is [list byte];
    - Python [int] is [Z]; [float] is idealised as [Q] where it is a
      quotient of integers and as [R] where a real power is taken. *)

From Stdlib Require Import ZArith List String Ascii Bool Lia QArith.
From Stdlib Require Import Strings.Byte.
From Stdlib Require Import Reals Lra.
Import ListNotations.

(* ================================================================== *)
(** * Part I: definitions                                             *)
(* ================================================================== *)

(** ** Python runtime: exceptions and results *)

Module Py.

Inductive exn : Type :=
| UnboundLocalError
| AttributeError
| KeyError
| ValueError
| ZeroDivisionError
| IndexError
| TypeError
| StatisticsError
| struct_error        (* struct.error *)
| ALSAAudioError      (* alsaaudio.ALSAAudioError *)
| CancelledError      (* asyncio.CancelledError *)
| StopIteration.

Inductive result (A : Type) : Type :=
| Ok (a : A)
| Raise (e : exn).
Arguments Ok {A} a.
Arguments Raise {A} e.

Definition bind {A B : Type} (m : result A) (k : A -> result B) : result B :=
  match m with
  | Ok a => k a
  | Raise e => Raise e
  end.

Definition exn_eqb (a b : exn) : bool :=
  match a, b with
  | UnboundLocalError, UnboundLocalError
  | AttributeError, AttributeError
  | KeyError, KeyError
  | ValueError, ValueError
  | ZeroDivisionError, ZeroDivisionError
  | IndexError, IndexError
  | TypeError, TypeError
  | StatisticsError, StatisticsError
  | struct_error, struct_error
  | ALSAAudioError, ALSAAudioError
  | CancelledError, CancelledError
  | StopIteration, StopIteration => true
  | _, _ => false
  end.

(** [try: m except (e1, e2, ...): h] *)
Definition try_except {A : Type} (m : result A) (caught : list exn)
  (h : exn -> result A) : result A :=
  match m with
  | Ok a => Ok a
  | Raise e => if existsb (exn_eqb e) caught then h e else Raise e
  end.

(** Reading a local variable that no executed assignment has bound. *)
Definition load_local {A : Type} (v : option A) : result A :=
  match v with
  | Some a => Ok a
  | None => Raise UnboundLocalError
  end.

(** [a << n] on Python ints: a negative shift count is a ValueError. *)
Definition lshift (a n : Z) : result Z :=
  if (n <? 0)%Z then Raise ValueError else Ok (Z.shiftl a n).

(** [a / b] on Python ints (true division), the float idealised as a
    rational.  A quotient beyond the range of a float, which is an
    OverflowError in Python, is not modelled: what is stated of a
    quotient is stated for operands in [float_quotient]. *)
Definition truediv (a b : Z) : result Q :=
  if (b =? 0)%Z then Raise ZeroDivisionError
  else Ok (Qdiv (inject_Z a) (inject_Z b)).

(** Operands whose quotient is below 2^1023 in magnitude, so within the
    range of a float. *)
Definition float_quotient (a b : Z) : Prop :=
  (Z.abs a < 2 ^ 1023 * Z.abs b)%Z.

(** [int(s)] for a string of decimal digits (the length limit that
    recent versions of Python put on [int()] is not modelled). *)
Definition digit_val (c : ascii) : Z := Z.of_nat (nat_of_ascii c) - 48.

Definition int_of_digits (s : string) : Z :=
  fold_left (fun acc c => 10 * acc + digit_val c)%Z (list_ascii_of_string s) 0%Z.

End Py.

Notation "x <- m ;; k" := (Py.bind m (fun x => k))
  (at level 61, m at next level, right associativity).

(** ** A backtracking matcher for the fragment of [re] the daemon uses

    The format pattern is [.*(S|U)(\d+)_?(LE|BE)?$], applied with
    [re.match] (anchored at the start of the string).  The matcher below
    implements Python's semantics for that fragment: greedy repetition
    with backtracking, leftmost alternative first, numbered capture
    groups (a group that did not take part in the match is [None]), and
    [$] matching at the end of the string or just before a final
    newline. *)

Module Re.

Inductive atom : Type :=
| AChar (c : ascii)     (* a literal character *)
| ADot                  (* [.]: any character except a newline *)
| ADigit.               (* [\d]: restricted here to the ASCII digits *)

Inductive regex : Type :=
| Atom (a : atom)
| Star (a : atom)                (* [a*], greedy *)
| Plus (a : atom)                (* [a+], greedy *)
| Seq (r1 r2 : regex)
| Alt (r1 r2 : regex)            (* [r1|r2] *)
| Opt (r : regex)                (* [r?], greedy *)
| Group (i : nat) (r : regex)    (* capture group number [i] *)
| Eol.                           (* [$] *)

Definition newline : ascii := ascii_of_nat 10.

Definition atom_ok (a : atom) (c : ascii) : bool :=
  match a with
  | AChar d => Ascii.eqb c d
  | ADot => negb (Ascii.eqb c newline)
  | ADigit => (48 <=? nat_of_ascii c)%nat && (nat_of_ascii c <=? 57)%nat
  end.

(** Captures: group number to the text the group matched last. *)
Definition caps : Type := list (nat * list ascii).

Fixpoint get_cap (i : nat) (cs : caps) : option (list ascii) :=
  match cs with
  | [] => None
  | (j, t) :: cs' => if Nat.eqb i j then Some t else get_cap i cs'
  end.

Section Matcher.
Context {R : Type}.

(** Greedy [a*]: take as many characters as possible, give one back at a
    time while the continuation fails. *)
Fixpoint star_greedy (a : atom) (s : list ascii)
  (k : list ascii -> option R) : option R :=
  match s with
  | c :: s' =>
      if atom_ok a c then
        match star_greedy a s' k with
        | Some r => Some r
        | None => k s
        end
      else k s
  | [] => k []
  end.

Fixpoint run (r : regex) (s : list ascii) (cs : caps)
  (k : list ascii -> caps -> option R) : option R :=
  match r with
  | Atom a =>
      match s with
      | c :: s' => if atom_ok a c then k s' cs else None
      | [] => None
      end
  | Star a => star_greedy a s (fun s' => k s' cs)
  | Plus a =>
      match s with
      | c :: s' => if atom_ok a c then star_greedy a s' (fun s'' => k s'' cs) else None
      | [] => None
      end
  | Seq r1 r2 => run r1 s cs (fun s' cs' => run r2 s' cs' k)
  | Alt r1 r2 =>
      match run r1 s cs k with
      | Some x => Some x
      | None => run r2 s cs k
      end
  | Opt r1 =>
      match run r1 s cs k with
      | Some x => Some x
      | None => k s cs
      end
  | Group i r1 =>
      run r1 s cs (fun s' cs' =>
        k s' ((i, firstn (List.length s - List.length s') s) :: cs'))
  | Eol =>
      match s with
      | [] => k s cs
      | [c] => if Ascii.eqb c newline then k s cs else None
      | _ => None
      end
  end.

End Matcher.

(** [re.compile(r).match(s)]: the captures of the first successful
    match attempt from the start of [s], if any. *)
Definition re_match (r : regex) (s : string) : option caps :=
  run r (list_ascii_of_string s) [] (fun _ cs => Some cs).

Definition group (i : nat) (m : caps) : option string :=
  option_map string_of_list_ascii (get_cap i m).

End Re.

(** ** Format descriptor: [AlsaDeviceConfig] (alsaloop.py) and
    [StreamMeta] (usbloop.py) *)

Module Format.
Import Py Re.
Local Open Scope string_scope.
Local Open Scope Z_scope.

(** [r'.*(S|U)(\d+)_?(LE|BE)?$'] *)
Definition fmt_pattern : regex :=
  Seq (Star ADot)
 (Seq (Group 1 (Alt (Atom (AChar "S")) (Atom (AChar "U"))))
 (Seq (Group 2 (Plus ADigit))
 (Seq (Opt (Atom (AChar "_")))
 (Seq (Opt (Group 3 (Alt (Seq (Atom (AChar "L")) (Atom (AChar "E")))
                         (Seq (Atom (AChar "B")) (Atom (AChar "E"))))))
      Eol)))).

(** [fmt_matcher(s)] followed by [res.groups()]: [None] when there is no
    match, else the triple (sign, bits, endian); groups 1 and 2 take part
    in every match, group 3 is optional. *)
Definition fmt_matcher (s : string) : option (string * string * option string) :=
  match re_match fmt_pattern s with
  | None => None
  | Some m =>
      match group 1 m, group 2 m with
      | Some sign, Some bits => Some (sign, bits, group 3 m)
      | _, _ => None
      end
  end.

(** [is_signed = {'S': True, 'U': False}] *)
Definition is_signed (sign : string) : result bool :=
  if String.eqb sign "S" then Ok true
  else if String.eqb sign "U" then Ok false
  else Raise KeyError.

Record AlsaDeviceConfig : Type := {
  pcm_name : string;
  format : string;
  size : Z;
  signed : bool;
  endian : option string;
  channels : Z;
  rate : Z;
  frame_size : Z;
  period_size : Z;
  period_time : Q;
  maxamp : Z;
  reference : Z
}.

Definition fallback_warning : string :=
  "Invalid format string. Falling back to 'PCM_FORMAT_S16_LE'".

(** The locals of [__init__] after the [if res: ... else: ...] statement.
    [bits] is assigned in the matching branch only. *)
Record init_locals : Type := {
  l_format : string;
  l_size : Z;
  l_signed : bool;
  l_endian : option string;
  l_bits : option string;
  l_warnings : list string
}.

(** [AlsaDeviceConfig.__init__], lines 42-52. *)
Definition init_branch (pcm_data_format : string) : result init_locals :=
  match fmt_matcher pcm_data_format with
  | Some (sign, bits, endian) =>
      sg <- is_signed sign ;;
      Ok {| l_format := pcm_data_format;
            l_size := int_of_digits bits / 8;
            l_signed := sg;
            l_endian := endian;
            l_bits := Some bits;
            l_warnings := [] |}
  | None =>
      Ok {| l_format := "PCM_FORMAT_S16_LE";
            l_size := 2;
            l_signed := true;
            l_endian := Some "LE";
            l_bits := None;
            l_warnings := [fallback_warning] |}
  end.

(** [AlsaDeviceConfig.__init__], lines 54-62, from the locals. *)
Definition init_fields (pcm : string) (channels rate period_frames : Z)
  (l : init_locals) : result AlsaDeviceConfig :=
  pt <- truediv period_frames rate ;;
  bits <- load_local (l_bits l) ;;
  ma <- lshift 1 (int_of_digits bits - 1) ;;
  Ok {| pcm_name := pcm;
        format := l_format l;
        size := l_size l;
        signed := l_signed l;
        endian := l_endian l;
        channels := channels;
        rate := rate;
        frame_size := channels * l_size l;
        period_size := period_frames;
        period_time := pt;
        maxamp := ma;
        reference := if l_signed l then 0 else ma |}.

(** [AlsaDeviceConfig(pcm_name, pcm_data_format, channels, rate,
    period_frames)]: the warnings emitted and the object constructed, or
    the exception that leaves the constructor. *)
Definition AlsaDeviceConfig_init (pcm pcm_data_format : string)
  (channels rate period_frames : Z) : list string * result AlsaDeviceConfig :=
  match init_branch pcm_data_format with
  | Raise e => ([], Raise e)
  | Ok l => (l_warnings l, init_fields pcm channels rate period_frames l)
  end.

(** The defaults of the keyword arguments. *)
Definition AlsaDeviceConfig_default (pcm_data_format : string) :=
  AlsaDeviceConfig_init "default" pcm_data_format 2 48000 1024.

(** [StreamMeta.__init__] (usbloop.py): no test of [res]; [res.groups()]
    on [None] is an AttributeError.  [StreamMeta] has the fields of
    [AlsaDeviceConfig] except [pcm_name]. *)
Definition StreamMeta_init (pcm_data_format : string)
  (channels rate period_frames : Z) : result AlsaDeviceConfig :=
  match fmt_matcher pcm_data_format with
  | None => Raise AttributeError
  | Some (sign, bits, endian) =>
      sg <- is_signed sign ;;
      pt <- truediv period_frames rate ;;
      ma <- lshift 1 (int_of_digits bits - 1) ;;
      Ok {| pcm_name := "";
            format := pcm_data_format;
            size := int_of_digits bits / 8;
            signed := sg;
            endian := endian;
            channels := channels;
            rate := rate;
            frame_size := channels * (int_of_digits bits / 8);
            period_size := period_frames;
            period_time := pt;
            maxamp := ma;
            reference := if sg then 0 else ma |}
  end.

End Format.

(** ** Sample decoder: [MemScope] (identical in both variants) *)

Module MemScope.
Import Py Format.
Local Open Scope Z_scope.

Definition bytes : Type := list byte.

Definition byte_val (b : byte) : Z := Z.of_N (Byte.to_N b).

(** *** [io.BytesIO]: the data and the read position *)

Record BytesIO : Type := {
  bio_data : bytes;
  bio_pos : nat
}.

Definition BytesIO_new (data : bytes) : BytesIO :=
  {| bio_data := data; bio_pos := 0 |}.

Definition seek0 (b : BytesIO) : BytesIO :=
  {| bio_data := bio_data b; bio_pos := 0 |}.

(** [b.read(n)]: at most [n] bytes from the position (all that remain
    when [n] is negative); the position moves past what was returned. *)
Definition read (b : BytesIO) (n : Z) : bytes * BytesIO :=
  let rest := skipn (bio_pos b) (bio_data b) in
  let out := if n <? 0 then rest else firstn (Z.to_nat n) rest in
  (out, {| bio_data := bio_data b; bio_pos := (bio_pos b + List.length out)%nat |}).

(** *** [struct.Struct] for the format strings [_struct_str] builds *)

Inductive byte_order : Type :=
| Native       (* no prefix *)
| Little       (* '<' *)
| Big.         (* '>' *)

Inductive code : Type :=
| c_b | c_c | c_h | c_H | c_i | c_I.

Inductive pyval : Type :=
| PyInt (z : Z)
| PyBytes (b : bytes).

Record Struct : Type := {
  st_order : byte_order;
  st_codes : list code
}.

Definition code_size (c : code) : nat :=
  match c with
  | c_b | c_c => 1
  | c_h | c_H => 2
  | c_i | c_I => 4
  end.

(** Repeated items of one type need no alignment padding, so the size is
    the sum of the item sizes in native mode too. *)
Definition calcsize (s : Struct) : nat :=
  fold_right (fun c acc => (code_size c + acc)%nat) 0%nat (st_codes s).

(** Value of a little-endian byte string. *)
Definition le_uint (bs : bytes) : Z :=
  fold_right (fun b acc => byte_val b + 256 * acc) 0 bs.

Definition to_signed (width : Z) (u : Z) : Z :=
  if u <? 2 ^ (width - 1) then u else u - 2 ^ width.

(** Native byte order is little-endian on the machines the daemon
    targets (the Raspberry Pi of the [probe] docstring). *)
Definition unpack_item (o : byte_order) (c : code) (bs : bytes) : pyval :=
  let u := match o with
           | Big => le_uint (rev bs)
           | Little | Native => le_uint bs
           end in
  match c with
  | c_c => PyBytes bs
  | c_b => PyInt (to_signed 8 u)
  | c_h => PyInt (to_signed 16 u)
  | c_H => PyInt u
  | c_i => PyInt (to_signed 32 u)
  | c_I => PyInt u
  end.

Fixpoint unpack_items (o : byte_order) (cs : list code) (bs : bytes) : list pyval :=
  match cs with
  | [] => []
  | c :: cs' =>
      unpack_item o c (firstn (code_size c) bs)
        :: unpack_items o cs' (skipn (code_size c) bs)
  end.

(** [s.unpack(chunk)]: [struct.error] unless the chunk has exactly the
    size of the format. *)
Definition unpack (s : Struct) (chunk : bytes) : result (list pyval) :=
  if Nat.eqb (List.length chunk) (calcsize s)
  then Ok (unpack_items (st_order s) (st_codes s) chunk)
  else Raise struct_error.

(** *** The class tables *)

Definition endian_t (e : option string) : result byte_order :=
  match e with
  | None => Ok Native
  | Some s =>
      if String.eqb s "LE"%string then Ok Little
      else if String.eqb s "BE"%string then Ok Big
      else Raise KeyError
  end.

Definition struct_t (signed : bool) (size : Z) : result code :=
  match signed, size with
  | true, 1 => Ok c_b
  | false, 1 => Ok c_c
  | true, 2 => Ok c_h
  | false, 2 => Ok c_H
  | true, 3 => Ok c_i
  | false, 3 => Ok c_I
  | true, 4 => Ok c_i
  | false, 4 => Ok c_I
  | _, _ => Raise KeyError
  end.

(** [x[i]] on bytes. *)
Definition getitem (x : bytes) (i : nat) : result Z :=
  match nth_error x i with
  | Some b => Ok (byte_val b)
  | None => Raise IndexError
  end.

(** [(b'\0' if x[2] < 128 else b'\xff')] *)
Definition sign_fill (x : bytes) : result bytes :=
  v <- getitem x 2 ;;
  Ok (if v <? 128 then [x00%byte] else [xff%byte]).

Definition padding_t (signed : bool) (size : Z) (endian : option string)
  : option (bytes -> result bytes) :=
  match size, endian with
  | 3, Some e =>
      if String.eqb e "LE"%string then
        if signed
        then Some (fun x => p <- sign_fill x ;; Ok (x ++ p))
        else Some (fun x => Ok (x ++ [x00%byte]))
      else if String.eqb e "BE"%string then
        if signed
        then Some (fun x => p <- sign_fill x ;; Ok (p ++ x))
        else Some (fun x => Ok ([xff%byte] ++ x))
      else None
  | _, _ => None
  end.

(** [padding_t.get((signed, size, endian), lambda x: x)] *)
Definition padding_of (signed : bool) (size : Z) (endian : option string)
  : bytes -> result bytes :=
  match padding_t signed size endian with
  | Some f => f
  | None => fun x => Ok x
  end.

(** *** The iterator *)

Record MemScope : Type := {
  dev_cfg : AlsaDeviceConfig;
  buffer : BytesIO;
  struct_ : Struct;
  padding : bytes -> result bytes
}.

Definition _struct_str (cfg : AlsaDeviceConfig) : result Struct :=
  o <- endian_t (endian cfg) ;;
  c <- struct_t (signed cfg) (size cfg) ;;
  Ok {| st_order := o; st_codes := repeat c (Z.to_nat (channels cfg)) |}.

(** [MemScope(data, dev_cfg)] *)
Definition MemScope_init (data : bytes) (cfg : AlsaDeviceConfig) : result MemScope :=
  s <- _struct_str cfg ;;
  Ok {| dev_cfg := cfg;
        buffer := BytesIO_new data;
        struct_ := s;
        padding := padding_of (signed cfg) (size cfg) (endian cfg) |}.

Definition set_buffer (ms : MemScope) (b : BytesIO) : MemScope :=
  {| dev_cfg := dev_cfg ms; buffer := b; struct_ := struct_ ms; padding := padding ms |}.

(** [__iter__] *)
Definition iter (ms : MemScope) : MemScope := set_buffer ms (seek0 (buffer ms)).

(** The [for _ in range(channels)] loop of [__next__]; the buffer keeps
    the position it reached when the padding raises. *)
Fixpoint read_channels (n : nat) (pad : bytes -> result bytes) (sz : Z)
  (b : BytesIO) (chunk : bytes) : result bytes * BytesIO :=
  match n with
  | O => (Ok chunk, b)
  | S n' =>
      let (x, b') := read b sz in
      match pad x with
      | Raise e => (Raise e, b')
      | Ok y => read_channels n' pad sz b' (chunk ++ y)
      end
  end.

(** [__next__] *)
Definition next (ms : MemScope) : result (list pyval) * MemScope :=
  let (r, b') := read_channels (Z.to_nat (channels (dev_cfg ms))) (padding ms)
                   (size (dev_cfg ms)) (buffer ms) [] in
  (try_except (chunk <- r ;; unpack (struct_ ms) chunk)
     [struct_error; IndexError] (fun _ => Raise StopIteration),
   set_buffer ms b').

(** Draining the iterator as a [for] loop does: frames until
    [StopIteration]; any other exception leaves the loop.  [None] means
    the fuel ran out before the iterator stopped. *)
Fixpoint drain (fuel : nat) (ms : MemScope) : option (result (list (list pyval))) :=
  match fuel with
  | O => None
  | S fuel' =>
      match next ms with
      | (Raise StopIteration, _) => Some (Ok [])
      | (Raise e, _) => Some (Raise e)
      | (Ok f, ms') =>
          match drain fuel' ms' with
          | Some (Ok fs) => Some (Ok (f :: fs))
          | other => other
          end
      end
  end.

(** [list(MemScope(data, cfg))]: one more step than the buffer has bytes
    is enough for every buffer of a format with a positive frame size. *)
Definition decode (data : bytes) (cfg : AlsaDeviceConfig)
  : option (result (list (list pyval))) :=
  match MemScope_init data cfg with
  | Raise e => Some (Raise e)
  | Ok ms => drain (S (List.length data)) (iter ms)
  end.

(** *** Notions used to state the decoder's properties *)

(** Bytes left to read. *)
Definition remaining (b : BytesIO) : nat :=
  (List.length (bio_data b) - bio_pos b)%nat.

(** What the decoder needs of a padding function for fields of [szn]
    bytes and struct items of [isz] bytes: a whole field is padded to the
    item size; a short field raises IndexError or stays below it. *)
Definition pad_spec (pad : bytes -> result bytes) (szn isz : nat) : Prop :=
  (forall x, List.length x = szn ->
     exists y, pad x = Ok y /\ List.length y = isz)
  /\ (forall x, (List.length x < szn)%nat ->
        pad x = Raise IndexError
        \/ exists y, pad x = Ok y /\ (List.length y < isz)%nat).

(** A decoder built for [n] channels of struct code [c]. *)
Definition scope_for (ms : MemScope) (o : byte_order) (c : code) (n : nat) : Prop :=
  struct_ ms = {| st_order := o; st_codes := repeat c n |}
  /\ Z.to_nat (channels (dev_cfg ms)) = n
  /\ (0 <= size (dev_cfg ms))%Z
  /\ pad_spec (padding ms) (Z.to_nat (size (dev_cfg ms))) (code_size c).

End MemScope.


(** ** Threshold engine: [HystComp], [__reverse_db] and the [probe]
    property of [LoopStateMachine] (alsaloop.py); [Thresholds] of [FSM]
    (usbloop.py) *)

Module CompResult.
(** [namedtuple('HystCompResult', ['low', 'high'])] *)
Record t : Type := { low : bool; high : bool }.
End CompResult.

Module Threshold.
Import Py Format MemScope.
Local Open Scope R_scope.

Record HystComp : Type := { low : R; high : R }.

(** [HystComp.comp]: [(val <= self.low, val >= self.high)] *)
Definition comp (h : HystComp) (val : R) : CompResult.t :=
  {| CompResult.low := if Rle_dec val (low h) then true else false;
     CompResult.high := if Rge_dec val (high h) then true else false |}.

(** [LoopStateMachine.__reverse_db]: [maxamp * 10**(db/20)], the float
    idealised as a real.  The float power underflows to 0.0 from about
    -6460 dB on, where the bounds are no longer positive nor distinct:
    what is stated of the order of the bounds is stated for levels in
    [float_level] and amplitudes in [sample_amplitude], where the floats
    are normal numbers a factor 10^(3/20) apart. *)
Definition reverse_db (maxamp : Z) (db : R) : R :=
  IZR maxamp * Rpower 10 (db / 20).

(** A level of at most 6000 dB in magnitude. *)
Definition float_level (db : R) : Prop := Rabs db <= 6000.

(** The full-scale amplitude of a format of at most 32 bits. *)
Definition sample_amplitude (maxamp : Z) : Prop := (0 < maxamp <= 2 ^ 31)%Z.

(** The [probe] setter: the comparator derived from the sensitivity. *)
Definition probe_setter (maxamp : Z) (val : R) : HystComp :=
  if Req_dec_T val 0 then {| low := 0; high := 0 |}
  else
    let val := - Rabs val in
    {| low := reverse_db maxamp val;
       high := reverse_db maxamp (val - 3) |}.

(** usbloop.py: [FSM.__reverse_db] is [maxamp * 10**(-abs(db)/20)] and
    [Thresholds(start, stop)] is built from [threshold_db] and
    [threshold_db - 3]; the floats are idealised as reals, as in
    [reverse_db]. *)
Definition usb_reverse_db (maxamp : Z) (db : R) : R :=
  IZR maxamp * Rpower 10 (- Rabs db / 20).

Record Thresholds : Type := { start : R; stop : R }.

Definition FSM_thresholds (maxamp : Z) (threshold_db : R) : Thresholds :=
  {| start := usb_reverse_db maxamp threshold_db;
     stop := usb_reverse_db maxamp (threshold_db - 3) |}.

(** *** The [probe] getter *)

(** [abs(val - reference)]: arithmetic on an int; [bytes - int] is a
    TypeError. *)
Definition deviation (reference : Z) (v : pyval) : result Z :=
  match v with
  | PyInt z => Ok (Z.abs (z - reference))
  | PyBytes _ => Raise TypeError
  end.

Fixpoint deviations (reference : Z) (packet : list pyval) : result (list Z) :=
  match packet with
  | [] => Ok []
  | v :: vs =>
      d <- deviation reference v ;;
      ds <- deviations reference vs ;;
      Ok (d :: ds)
  end.

(** [[abs(val - reference) for packet in islice(ms, n) for val in packet]]:
    frames are pulled one at a time, up to [n] of them. *)
Fixpoint probe_data (n : nat) (ms : MemScope) : result (list Z) :=
  match n with
  | O => Ok []
  | S n' =>
      match next ms with
      | (Raise StopIteration, _) => Ok []
      | (Raise e, _) => Raise e
      | (Ok packet, ms') =>
          ds <- deviations (reference (dev_cfg ms)) packet ;;
          rest <- probe_data n' ms' ;;
          Ok (ds ++ rest)%list
      end
  end.

Fixpoint insert_sorted (x : Z) (l : list Z) : list Z :=
  match l with
  | [] => [x]
  | y :: l' => if (x <=? y)%Z then x :: l else y :: insert_sorted x l'
  end.

Definition sorted (l : list Z) : list Z := fold_right insert_sorted [] l.

(** [statistics.median]: the middle element, or the mean of the two
    middle elements; no data is a StatisticsError. *)
Definition median (data : list Z) : result Q :=
  let d := sorted data in
  let n := List.length d in
  if Nat.eqb n 0 then Raise StatisticsError
  else if Nat.odd n then Ok (inject_Z (nth (n / 2) d 0%Z))
  else Ok (Qdiv (inject_Z (nth (n / 2 - 1) d 0%Z + nth (n / 2) d 0%Z)) (inject_Z 2)).

(** [islice(it, n)] refuses a negative [n]. *)
Definition probe (cfg : AlsaDeviceConfig) (thr : HystComp) (sample_size : Z)
  (buf : bytes) : result CompResult.t :=
  ms <- MemScope_init buf cfg ;;
  n <- (if (sample_size <? 0)%Z then Raise ValueError else Ok (Z.to_nat sample_size)) ;;
  data <- probe_data n (iter ms) ;;
  med <- median data ;;
  Ok (comp thr (Q2R med)).

End Threshold.

(** ** State with exceptions: the monad of the handlers

    A handler reads and writes the controller and may raise; what it wrote
    before raising stays written. *)

Module SE.
Import Py.

Section Monad.
Context {S : Type}.

Definition M (A : Type) : Type := S -> result A * S.

Definition ret {A : Type} (a : A) : M A := fun s => (Ok a, s).

Definition raise {A : Type} (e : exn) : M A := fun s => (Raise e, s).

Definition bind {A B : Type} (m : M A) (k : A -> M B) : M B :=
  fun s =>
    match m s with
    | (Ok a, s') => k a s'
    | (Raise e, s') => (Raise e, s')
    end.

Definition get : M S := fun s => (Ok s, s).

Definition modify (f : S -> S) : M unit := fun s => (Ok tt, f s).

Definition lift {A : Type} (r : result A) : M A := fun s => (r, s).

(** [try: m except (caught): h] *)
Definition try_catch {A : Type} (m : M A) (caught : list exn)
  (h : exn -> M A) : M A :=
  fun s =>
    match m s with
    | (Ok a, s') => (Ok a, s')
    | (Raise e, s') =>
        if existsb (exn_eqb e) caught then h e s' else (Raise e, s')
    end.

(** Leaving the body of a [with] statement: [__exit__] is called with
    the exception in flight, if any, and a true result suppresses it. *)
Definition with_exit {A : Type} (exit_ : option exn -> M bool) (body : M A)
  : M (option A) :=
  fun s =>
    match body s with
    | (Ok a, s') =>
        match exit_ None s' with
        | (Ok _, s'') => (Ok (Some a), s'')
        | (Raise e, s'') => (Raise e, s'')
        end
    | (Raise e, s') =>
        match exit_ (Some e) s' with
        | (Ok true, s'') => (Ok None, s'')
        | (Ok false, s'') => (Raise e, s'')
        | (Raise e', s'') => (Raise e', s'')
        end
    end.

(** [with mgr: body]: [__exit__] is not called when [__enter__] raises. *)
Definition with_stmt {A : Type} (enter : M unit) (exit_ : option exn -> M bool)
  (body : M A) : M (option A) :=
  bind enter (fun _ => with_exit exit_ body).

End Monad.
End SE.

Notation "x <~ m ;; k" := (SE.bind m (fun x => k))
  (at level 61, m at next level, right associativity).
Notation "m ;;; k" := (SE.bind m (fun _ => k))
  (at level 61, right associativity).

(** ** The enumerations of [config.py] *)

Module PlayerState.
(** Modelled from the spec: [config.py] is not among the sources; the
    spec lists the states UNKNOWN, HIBERNATE, IDLE, PLAY, KILLED, and
    alsaloop.py spells the second one [HYBERNATE]. *)
Inductive t : Type := UNKNOWN | HYBERNATE | IDLE | PLAY | KILLED.

Definition eqb (a b : t) : bool :=
  match a, b with
  | UNKNOWN, UNKNOWN | HYBERNATE, HYBERNATE | IDLE, IDLE
  | PLAY, PLAY | KILLED, KILLED => true
  | _, _ => false
  end.
End PlayerState.

Module PlayerCommand.
(** Modelled from the spec: the commands of [config.py] that [run]
    dispatches on. *)
Inductive t : Type := PLAY | STOP.
End PlayerCommand.

(** ** Loop controller: [LoopStateMachine] (alsaloop.py) on a model of
    the asyncio event loop

    The event loop is single-threaded: a task runs from one suspension
    point ([await]) to the next without interruption.  A suspended
    coroutine is a value of [coro], naming the code that runs when it is
    resumed.  [loop.call_later(d, asyncio.create_task, c)] registers a
    timer, which is not a task until it fires; [asyncio.all_tasks()]
    returns the tasks only.  Durations and the clock are rationals
    (seconds).

    [_gather] cancels every task but the current one and awaits them.
    None of the handlers catches [CancelledError], so a cancelled handler
    runs no code of its own beyond leaving its [with] block.  Inside
    [run] the await of [_gather] is taken as one step of [run].  In
    [_restart] and [_shutdown] it is a suspension point: the cancelled
    tasks take at least one turn of the loop to end, so whatever is due
    meanwhile runs before the signal handler goes on; with no task to
    cancel, the [gather] of nothing is done at once and the await does
    not suspend. *)

Module Loop.
Import Py MemScope.
Local Open Scope string_scope.

(** Modelled from the spec: [ProbeConfig] of [config.py], with the fields
    the spec lists and the spelling alsaloop.py reads them by. *)
Record ProbeConfig : Type := {
  sensitivity : Q;
  sample_size : Z;
  start_count : Z;
  stop_count : Z;
  idle_interval : Q;
  follow_interval : Q;
  stream_interval : Q;
  hybernate_interval : Q
}.

(** Modelled from the spec: [MPRISStatus] of [config.py]; a state without
    a status leaves the published one unchanged. *)
Definition MPRISStatus (v : PlayerState.t) : option string :=
  match v with
  | PlayerState.HYBERNATE => Some "Stopped"
  | PlayerState.IDLE => Some "Paused"
  | PlayerState.PLAY => Some "Playing"
  | _ => None
  end.

(** Suspended coroutines of [LoopStateMachine]. *)
Inductive coro : Type :=
| run_start                     (* [run()], not started *)
| run_get                       (* [run()], in [await self.rxq.get()] *)
| wake                          (* [_wake()], not started *)
| idle (counter : Z)            (* [_idle()], at the head of its loop *)
| idle_monitor (counter : Z)    (* [_idle()], in [sleep(stream_interval)] *)
| monitor (counter : Z)         (* [_monitor()], at the head of its loop *)
| monitor_idle (counter : Z)    (* [_monitor()], in [sleep(idle_interval)] after the stop *)
| stream_start                  (* [_stream()], not started *)
| stream_loop                   (* [_stream()], in [sleep(0.001)] inside the [with] block *)
| shutdown_wait                 (* [_shutdown()], in [await self._gather()] *)
| restart_wait (cfg : ProbeConfig).
                                (* [_restart()], in [await self._gather()]; [cfg] is what
                                   [__load_config] returns afterwards *)

Record task : Type := { wake_at : Q; body : coro }.

Record timer : Type := { due : Q; target : coro }.

Record LSM : Type := {
  state : PlayerState.t;           (* [_local_state] *)
  dbus : option string;            (* [PlaybackStatus]; [None] while [self.dbus] is None *)
  rxq : list PlayerCommand.t;
  _buffer : bytes;
  probe_cfg : ProbeConfig;
  capture_open : bool;
  playback_handles : nat;          (* open [PlaybackDevice]s *)
  log : list string;
  now : Q;                         (* [loop.time()] *)
  tasks : list task;               (* [asyncio.all_tasks()] but the running one *)
  timers : list timer;             (* pending [call_later] handles *)
  stopped : bool;                  (* [loop.stop()] was called *)
  crashed : list exn;              (* exceptions that ended a task *)
  loop_set : bool                  (* [self.loop] exists: [run()] has assigned it *)
}.

Definition set_local_state (s : LSM) (v : PlayerState.t) : LSM :=
  {| state := v; dbus := dbus s; rxq := rxq s; _buffer := _buffer s;
     probe_cfg := probe_cfg s; capture_open := capture_open s;
     playback_handles := playback_handles s; log := log s; now := now s;
     tasks := tasks s; timers := timers s; stopped := stopped s;
     crashed := crashed s; loop_set := loop_set s |}.

Definition set_dbus (s : LSM) (v : option string) : LSM :=
  {| state := state s; dbus := v; rxq := rxq s; _buffer := _buffer s;
     probe_cfg := probe_cfg s; capture_open := capture_open s;
     playback_handles := playback_handles s; log := log s; now := now s;
     tasks := tasks s; timers := timers s; stopped := stopped s;
     crashed := crashed s; loop_set := loop_set s |}.

Definition set_rxq (s : LSM) (v : list PlayerCommand.t) : LSM :=
  {| state := state s; dbus := dbus s; rxq := v; _buffer := _buffer s;
     probe_cfg := probe_cfg s; capture_open := capture_open s;
     playback_handles := playback_handles s; log := log s; now := now s;
     tasks := tasks s; timers := timers s; stopped := stopped s;
     crashed := crashed s; loop_set := loop_set s |}.

Definition set_buffer (s : LSM) (v : bytes) : LSM :=
  {| state := state s; dbus := dbus s; rxq := rxq s; _buffer := v;
     probe_cfg := probe_cfg s; capture_open := capture_open s;
     playback_handles := playback_handles s; log := log s; now := now s;
     tasks := tasks s; timers := timers s; stopped := stopped s;
     crashed := crashed s; loop_set := loop_set s |}.

Definition set_probe_cfg (s : LSM) (v : ProbeConfig) : LSM :=
  {| state := state s; dbus := dbus s; rxq := rxq s; _buffer := _buffer s;
     probe_cfg := v; capture_open := capture_open s;
     playback_handles := playback_handles s; log := log s; now := now s;
     tasks := tasks s; timers := timers s; stopped := stopped s;
     crashed := crashed s; loop_set := loop_set s |}.

Definition set_capture_open (s : LSM) (v : bool) : LSM :=
  {| state := state s; dbus := dbus s; rxq := rxq s; _buffer := _buffer s;
     probe_cfg := probe_cfg s; capture_open := v;
     playback_handles := playback_handles s; log := log s; now := now s;
     tasks := tasks s; timers := timers s; stopped := stopped s;
     crashed := crashed s; loop_set := loop_set s |}.

Definition set_handles (s : LSM) (v : nat) : LSM :=
  {| state := state s; dbus := dbus s; rxq := rxq s; _buffer := _buffer s;
     probe_cfg := probe_cfg s; capture_open := capture_open s;
     playback_handles := v; log := log s; now := now s;
     tasks := tasks s; timers := timers s; stopped := stopped s;
     crashed := crashed s; loop_set := loop_set s |}.

Definition set_log (s : LSM) (v : list string) : LSM :=
  {| state := state s; dbus := dbus s; rxq := rxq s; _buffer := _buffer s;
     probe_cfg := probe_cfg s; capture_open := capture_open s;
     playback_handles := playback_handles s; log := v; now := now s;
     tasks := tasks s; timers := timers s; stopped := stopped s;
     crashed := crashed s; loop_set := loop_set s |}.

Definition set_now (s : LSM) (v : Q) : LSM :=
  {| state := state s; dbus := dbus s; rxq := rxq s; _buffer := _buffer s;
     probe_cfg := probe_cfg s; capture_open := capture_open s;
     playback_handles := playback_handles s; log := log s; now := v;
     tasks := tasks s; timers := timers s; stopped := stopped s;
     crashed := crashed s; loop_set := loop_set s |}.

Definition set_tasks (s : LSM) (v : list task) : LSM :=
  {| state := state s; dbus := dbus s; rxq := rxq s; _buffer := _buffer s;
     probe_cfg := probe_cfg s; capture_open := capture_open s;
     playback_handles := playback_handles s; log := log s; now := now s;
     tasks := v; timers := timers s; stopped := stopped s;
     crashed := crashed s; loop_set := loop_set s |}.

Definition set_timers (s : LSM) (v : list timer) : LSM :=
  {| state := state s; dbus := dbus s; rxq := rxq s; _buffer := _buffer s;
     probe_cfg := probe_cfg s; capture_open := capture_open s;
     playback_handles := playback_handles s; log := log s; now := now s;
     tasks := tasks s; timers := v; stopped := stopped s;
     crashed := crashed s; loop_set := loop_set s |}.

Definition set_stopped (s : LSM) (v : bool) : LSM :=
  {| state := state s; dbus := dbus s; rxq := rxq s; _buffer := _buffer s;
     probe_cfg := probe_cfg s; capture_open := capture_open s;
     playback_handles := playback_handles s; log := log s; now := now s;
     tasks := tasks s; timers := timers s; stopped := v;
     crashed := crashed s; loop_set := loop_set s |}.

Definition set_crashed (s : LSM) (v : list exn) : LSM :=
  {| state := state s; dbus := dbus s; rxq := rxq s; _buffer := _buffer s;
     probe_cfg := probe_cfg s; capture_open := capture_open s;
     playback_handles := playback_handles s; log := log s; now := now s;
     tasks := tasks s; timers := timers s; stopped := stopped s;
     crashed := v; loop_set := loop_set s |}.

Definition set_loop (s : LSM) (v : bool) : LSM :=
  {| state := state s; dbus := dbus s; rxq := rxq s; _buffer := _buffer s;
     probe_cfg := probe_cfg s; capture_open := capture_open s;
     playback_handles := playback_handles s; log := log s; now := now s;
     tasks := tasks s; timers := timers s; stopped := stopped s;
     crashed := crashed s; loop_set := v |}.

(** What the device ports answer during one activation of a task:
    [CaptureDevice.read()], opening a [PlaybackDevice], and the n-th
    [PlaybackDevice.write(data)] of the activation (read and write retry
    inside until they have data or a count to return). *)
Record ports : Type := {
  capture_read : result bytes;
  playback_open : result unit;
  playback_write : nat -> bytes -> result Z
}.

(** How an activation ends when it does not raise. *)
Inductive outcome : Type :=
| Sleep (d : Q) (k : coro)      (* [await asyncio.sleep(d)], then [k] *)
| Wait (k : coro)               (* the await of a future ([self.rxq.get()], the
                                   [gather] of cancelled tasks), then [k] *)
| Done.

Definition M : Type -> Type := @SE.M LSM.

Definition info (msg : string) : M unit :=
  SE.modify (fun s => set_log s (log s ++ [msg])).

(** The [state] setter: the status sink is updated when there is one,
    the AttributeError of a missing sink is caught and logged. *)
Definition set_state (v : PlayerState.t) : M unit :=
  SE.modify (fun s =>
    let s1 := set_local_state s v in
    match dbus s1 with
    | Some st =>
        set_dbus s1 (Some (match MPRISStatus v with Some x => x | None => st end))
    | None => set_log s1 (log s1 ++ ["Cannot connect to DBus."])
    end).

(** [self.loop.create_task(c)] *)
Definition create_task (c : coro) : M unit :=
  SE.modify (fun s => set_tasks s (tasks s ++ [{| wake_at := now s; body := c |}])).

(** [self.loop.call_later(d, asyncio.create_task, c)] *)
Definition call_later (d : Q) (c : coro) : M unit :=
  SE.modify (fun s => set_timers s (timers s ++ [{| due := now s + d; target := c |}])).

Definition in_with_block (t : task) : bool :=
  match body t with
  | stream_loop => true
  | _ => false
  end.

(** [_gather]: the other tasks are cancelled and awaited; a cancelled
    [_stream] leaves its [with] block, which closes its device. *)
Definition gather : M unit :=
  SE.modify (fun s =>
    let closing := List.length (filter in_with_block (tasks s)) in
    set_tasks
      (set_handles
         (set_log s (log s ++ ["Cancelling outstanding tasks"]))
         (playback_handles s - closing))
      []).

(** [manifests[cmd]]: (state, delay, coro) *)
Definition manifests (cfg : ProbeConfig) (cmd : PlayerCommand.t)
  : PlayerState.t * Q * coro :=
  match cmd with
  | PlayerCommand.STOP => (PlayerState.HYBERNATE, hybernate_interval cfg, wake)
  | PlayerCommand.PLAY => (PlayerState.IDLE, idle_interval cfg, idle 0)
  end.

(** The body of the [while] loop of [run] after [cmd] was dequeued. *)
Definition dispatch (cmd : PlayerCommand.t) : M unit :=
  gather ;;;
  s <~ SE.get ;;
  let '(st, delay, c) := manifests (probe_cfg s) cmd in
  info "Received command" ;;;
  set_state st ;;;
  call_later delay c.

(** [run] from the head of its loop, [q] being the queue: commands are
    dispatched while there are any; on an empty queue [get] suspends. *)
Fixpoint run_loop (q : list PlayerCommand.t) : M outcome :=
  fun s =>
    if PlayerState.eqb (state s) PlayerState.KILLED then (Ok Done, set_rxq s q)
    else
      match q with
      | [] => (Ok (Wait run_get), set_rxq s [])
      | cmd :: q' => SE.bind (dispatch cmd) (fun _ => run_loop q') (set_rxq s q')
      end.

(** [run] resumed inside [get]: the command is taken and dispatched
    before the loop condition is looked at again. *)
Definition run_resume : M outcome :=
  fun s =>
    match rxq s with
    | [] => (Ok (Wait run_get), s)
    | cmd :: q' => SE.bind (dispatch cmd) (fun _ => run_loop q') (set_rxq s q')
    end.

(** [run] from its start: [self.loop] is assigned;
    [self.dbus.aioloop = self.loop] is an AttributeError while
    [self.dbus] is None; then PLAY is put on the queue. *)
Definition run_begin : M outcome :=
  fun s =>
    let s := set_loop s true in
    match dbus s with
    | None => (Raise AttributeError, s)
    | Some _ => run_loop (rxq s ++ [PlayerCommand.PLAY]) s
    end.

(** [_wake] *)
Definition wake_body : M outcome :=
  set_state PlayerState.IDLE ;;;
  create_task (idle 0) ;;;
  SE.ret Done.

(** [self.loop.<method>(...)] needs [self.loop], which only [run]
    assigns: an AttributeError before [run] has started. *)
Definition the_loop : M unit :=
  fun s => if loop_set s then (Ok tt, s) else (Raise AttributeError, s).

(** [await self._gather()] in a signal handler that goes on as [k] with
    continuation [wait]: a suspension when there is a task to cancel. *)
Definition await_gather (wait : coro) (k : M outcome) : M outcome :=
  s <~ SE.get ;;
  gather ;;;
  match tasks s with
  | [] => k
  | _ :: _ => SE.ret (Wait wait)
  end.

(** [_restart] after its await: the configuration is loaded and [run]
    is created on [self.loop]. *)
Definition restart_resume (cfg : ProbeConfig) : M outcome :=
  SE.modify (fun s => set_probe_cfg s cfg) ;;;
  the_loop ;;;
  create_task run_start ;;;
  SE.ret Done.

(** [_restart]: [cfg] is what [__load_config] returns. *)
Definition restart (cfg : ProbeConfig) : M outcome :=
  set_state PlayerState.UNKNOWN ;;;
  info "Received restart signal" ;;;
  await_gather (restart_wait cfg) (restart_resume cfg).

(** [self.close()]: [self.capture] and [self.dbus] are None until
    [open()] has run, and [None.close()] is an AttributeError. *)
Definition close : M unit :=
  fun s =>
    match dbus s with
    | None => (Raise AttributeError, s)
    | Some _ => (Ok tt, set_capture_open s false)
    end.

(** [_shutdown] after its await: [self.close()], then
    [self.loop.stop()]. *)
Definition shutdown_resume : M outcome :=
  close ;;;
  the_loop ;;;
  SE.modify (fun s => set_stopped s true) ;;;
  SE.ret Done.

(** [_shutdown] *)
Definition shutdown : M outcome :=
  set_state PlayerState.KILLED ;;;
  info "Received exit signal" ;;;
  await_gather shutdown_wait shutdown_resume.

Section Handlers.

(** The [probe] getter as a function of [self._buffer]; its thresholds
    and format are fixed when the controller is constructed. *)
Variable probe : bytes -> result CompResult.t.

(** One turn of the loop of [_idle]. *)
Definition idle_body (io : ports) (counter : Z) : M outcome :=
  s <~ SE.get ;;
  if PlayerState.eqb (state s) PlayerState.IDLE then
    buf <~ SE.lift (capture_read io) ;;
    SE.modify (fun s => set_buffer s buf) ;;;
    p <~ SE.lift (probe buf) ;;
    let counter := if CompResult.high p then (counter + 1)%Z else 0%Z in
    if (counter >=? start_count (probe_cfg s))%Z then
      set_state PlayerState.PLAY ;;;
      create_task stream_start ;;;
      SE.ret (Sleep (stream_interval (probe_cfg s)) (idle_monitor counter))
    else if (counter >? 0)%Z then
      SE.ret (Sleep (follow_interval (probe_cfg s)) (idle counter))
    else
      SE.ret (Sleep (idle_interval (probe_cfg s)) (idle counter))
  else SE.ret Done.

(** [_idle] resumed after [sleep(stream_interval)]. *)
Definition idle_monitor_body (io : ports) (counter : Z) : M outcome :=
  create_task (monitor 0) ;;;
  idle_body io counter.

(** One turn of the loop of [_monitor]. *)
Definition monitor_body (counter : Z) : M outcome :=
  s <~ SE.get ;;
  if PlayerState.eqb (state s) PlayerState.PLAY then
    p <~ SE.lift (probe (_buffer s)) ;;
    let counter := if CompResult.low p then (counter + 1)%Z else 0%Z in
    if (counter >=? stop_count (probe_cfg s))%Z then
      set_state PlayerState.IDLE ;;;
      SE.ret (Sleep (idle_interval (probe_cfg s)) (monitor_idle counter))
    else if (counter >? 0)%Z then
      SE.ret (Sleep (follow_interval (probe_cfg s)) (monitor counter))
    else
      SE.ret (Sleep (stream_interval (probe_cfg s)) (monitor counter))
  else SE.ret Done.

(** [_monitor] resumed after [sleep(idle_interval)]. *)
Definition monitor_idle_body (counter : Z) : M outcome :=
  create_task (idle 0) ;;;
  monitor_body counter.

(** [PlaybackDevice.__enter__] and [__exit__] (alsaloop.py): [__exit__]
    closes the device and returns None. *)
Definition playback_enter (io : ports) : M unit :=
  SE.lift (playback_open io) ;;;
  SE.modify (fun s => set_handles s (S (playback_handles s))).

Definition playback_exit (_ : option exn) : M bool :=
  SE.modify (fun s => set_handles s (playback_handles s - 1)) ;;;
  SE.ret false.

(** The [while self.state == PlayerState.PLAY] loop of [_stream] from
    its head to the next suspension; [n] numbers the write. *)
Definition stream_turn (io : ports) (n : nat) : M outcome :=
  s <~ SE.get ;;
  if PlayerState.eqb (state s) PlayerState.PLAY then
    buf <~ SE.lift (capture_read io) ;;
    SE.modify (fun s => set_buffer s buf) ;;;
    SE.lift (playback_write io n buf) ;;;
    SE.ret (Sleep (1 # 1000) stream_loop)
  else SE.ret Done.

(** The [except alsaaudio.ALSAAudioError] clause of [_stream] and the
    statement after the [try]. *)
Definition stream_except (m : M outcome) : M outcome :=
  r <~ SE.try_catch m [ALSAAudioError]
         (fun _ =>
            info "Error opening playback device" ;;;
            SE.modify (fun s => set_rxq s (rxq s ++ [PlayerCommand.STOP])) ;;;
            SE.ret Done) ;;
  match r with
  | Done => info "close playback" ;;; SE.ret Done
  | other => SE.ret other
  end.

(** Leaving the [with] block when the activation does not end in the
    [sleep] inside it. *)
Definition stream_scope (m : M outcome) : M outcome :=
  fun s =>
    match m s with
    | (Ok (Sleep d k), s') => (Ok (Sleep d k), s')
    | (r, s') => SE.bind (SE.with_exit playback_exit (fun _ => (r, s')))
                   (fun o => SE.ret match o with Some x => x | None => Done end) s'
    end.

(** [_stream] from its start. *)
Definition stream_begin (io : ports) : M outcome :=
  info "start redirecting" ;;;
  stream_except (
    playback_enter io ;;;
    stream_scope (
      s <~ SE.get ;;
      SE.lift (playback_write io 0 (_buffer s)) ;;;
      stream_turn io 1)).

(** [_stream] resumed after [sleep(0.001)]. *)
Definition stream_resume (io : ports) : M outcome :=
  stream_except (stream_scope (stream_turn io 0)).

(** One activation of a task. *)
Definition activate (c : coro) (io : ports) : M outcome :=
  match c with
  | run_start => run_begin
  | run_get => run_resume
  | wake => wake_body
  | idle n => idle_body io n
  | idle_monitor n => idle_monitor_body io n
  | monitor n => monitor_body n
  | monitor_idle n => monitor_idle_body n
  | stream_start => stream_begin io
  | stream_loop => stream_resume io
  | shutdown_wait => shutdown_resume
  | restart_wait cfg => restart_resume cfg
  end.

End Handlers.

(** *** The scheduler *)

Inductive event : Type :=
| Tick (dt : Q)                      (* time passes *)
| Command (c : PlayerCommand.t)      (* the command source puts [c] on the queue *)
| Fire (i : nat)                     (* the [i]-th timer is due and runs *)
| Resume (i : nat) (io : ports)      (* the [i]-th task runs to its next suspension *)
| Restart (cfg : ProbeConfig)        (* the restart signal: [_restart] runs to its await *)
| Shutdown.                          (* the exit signal: [_shutdown] runs to its await *)

Definition ready (s : LSM) (t : task) : bool :=
  match body t with
  | run_get => match rxq s with [] => false | _ => true end
  | _ => Qle_bool (wake_at t) (now s)
  end.

Fixpoint remove_nth {A : Type} (i : nat) (l : list A) : list A :=
  match l, i with
  | [], _ => []
  | _ :: l', O => l'
  | x :: l', S i' => x :: remove_nth i' l'
  end.

(** The end of an activation: the task is suspended again, is done, or
    ends with the exception it raised. *)
Definition settle (r : result outcome * LSM) : LSM :=
  match r with
  | (Ok (Sleep d k), s) =>
      set_tasks s (tasks s ++ [{| wake_at := now s + d; body := k |}])
  | (Ok (Wait k), s) =>
      set_tasks s (tasks s ++ [{| wake_at := now s; body := k |}])
  | (Ok Done, s) => s
  | (Raise e, s) => set_crashed s (crashed s ++ [e])
  end.

(** One step of the event loop; [None] when the event cannot happen in
    [s].  A stopped loop runs nothing. *)
Definition step (probe : bytes -> result CompResult.t) (s : LSM) (ev : event)
  : option LSM :=
  if stopped s then None
  else
    match ev with
    | Tick dt =>
        if Qle_bool 0 dt then Some (set_now s (now s + dt)) else None
    | Command c => Some (set_rxq s (rxq s ++ [c]))
    | Fire i =>
        match nth_error (timers s) i with
        | Some t =>
            if Qle_bool (due t) (now s)
            then Some (snd (create_task (target t)
                              (set_timers s (remove_nth i (timers s)))))
            else None
        | None => None
        end
    | Resume i io =>
        match nth_error (tasks s) i with
        | Some t =>
            if ready s t
            then Some (settle (activate probe (body t) io
                                 (set_tasks s (remove_nth i (tasks s)))))
            else None
        | None => None
        end
    | Restart cfg => Some (settle (restart cfg s))
    | Shutdown => Some (settle (shutdown s))
    end.

Fixpoint exec (probe : bytes -> result CompResult.t) (s : LSM)
  (evs : list event) : option LSM :=
  match evs with
  | [] => Some s
  | ev :: evs' =>
      match step probe s ev with
      | Some s' => exec probe s' evs'
      | None => None
      end
  end.

(** [LoopStateMachine(capture_cfg, playback_cfg)], with [cfg] what
    [__load_config] returns. *)
Definition LoopStateMachine_init (cfg : ProbeConfig) : LSM :=
  {| state := PlayerState.UNKNOWN; dbus := None; rxq := []; _buffer := [];
     probe_cfg := cfg; capture_open := false; playback_handles := 0;
     log := []; now := 0; tasks := []; timers := []; stopped := false;
     crashed := []; loop_set := false |}.

(** [open()]: the capture device and the status sink are opened;
    [status] is what the sink shows before anything is published. *)
Definition open (status : string) (s : LSM) : LSM :=
  set_dbus (set_capture_open s true) (Some status).

(** The controller entered and [run()] scheduled on the loop. *)
Definition boot (cfg : ProbeConfig) : LSM :=
  snd (create_task run_start (open "" (LoopStateMachine_init cfg))).

(** *** Notions used to state the controller's properties *)

(** The first exception a device call raises during an activation of
    [_stream], if any. *)
Definition turn_fault (io : ports) (n : nat) (s : LSM) : option exn :=
  if PlayerState.eqb (state s) PlayerState.PLAY then
    match capture_read io with
    | Raise e => Some e
    | Ok b =>
        match playback_write io n b with
        | Raise e => Some e
        | Ok _ => None
        end
    end
  else None.

Definition device_fault (c : coro) (io : ports) (s : LSM) : option exn :=
  match c with
  | stream_start =>
      match playback_open io with
      | Raise e => Some e
      | Ok _ =>
          match playback_write io 0 (_buffer s) with
          | Raise e => Some e
          | Ok _ => turn_fault io 1 s
          end
      end
  | stream_loop => turn_fault io 0 s
  | _ => None
  end.

Definition state_after (probe : bytes -> result CompResult.t) (s : LSM)
  (evs : list event) : option PlayerState.t :=
  option_map state (exec probe s evs).

Definition handlers_after (probe : bytes -> result CompResult.t) (s : LSM)
  (evs : list event) : option (list coro * list coro) :=
  option_map (fun s' => (map body (tasks s'), map target (timers s')))
    (exec probe s evs).

(** *** Data of the example runs *)

(** Ports that work: the capture device returns [b], the playback
    device opens and takes every write. *)
Definition working_ports (b : bytes) : ports :=
  {| capture_read := Ok b;
     playback_open := Ok tt;
     playback_write := fun _ _ => Ok 1%Z |}.

(** Ports whose playback device cannot be opened. *)
Definition no_playback (b : bytes) : ports :=
  {| capture_read := Ok b;
     playback_open := Raise ALSAAudioError;
     playback_write := fun _ _ => Ok 1%Z |}.

(** A configuration with the counts of the spec's run. *)
Definition run_cfg : ProbeConfig :=
  {| sensitivity := - (10 # 1); sample_size := 40;
     start_count := 3; stop_count := 5;
     idle_interval := 1 # 4; follow_interval := 1 # 10;
     stream_interval := 1; hybernate_interval := 5 |}.

(** A classifier by the first byte of the buffer: 0xff is above high,
    0x00 is below low. *)
Definition level_probe (b : bytes) : result CompResult.t :=
  Ok {| CompResult.low := match b with x00%byte :: _ => true | _ => false end;
        CompResult.high := match b with xff%byte :: _ => true | _ => false end |}.

(** The controller in PLAY with [_stream] created and not yet started. *)
Definition playing : LSM :=
  {| state := PlayerState.PLAY; dbus := Some "Playing"; rxq := [];
     _buffer := [xff%byte]; probe_cfg := run_cfg; capture_open := true;
     playback_handles := 0; log := []; now := 0;
     tasks := [{| wake_at := 0; body := run_get |};
               {| wake_at := 0; body := stream_start |}];
     timers := []; stopped := false; crashed := [];
     loop_set := true |}.

End Loop.

(** ** usbloop.py: the device context manager and [FSM.stream] *)

Module Usb.
Import Py MemScope.
Local Open Scope string_scope.

Record FSM : Type := {
  counter : Z;
  is_streaming : bool;
  buffer : bytes;
  handles : nat;               (* open devices *)
  log : list string
}.

Definition M : Type -> Type := @SE.M FSM.

Definition set_handles (s : FSM) (n : nat) : FSM :=
  {| counter := counter s; is_streaming := is_streaming s; buffer := buffer s;
     handles := n; log := log s |}.

Definition set_buffer (s : FSM) (b : bytes) : FSM :=
  {| counter := counter s; is_streaming := is_streaming s; buffer := b;
     handles := handles s; log := log s |}.

Definition info (msg : string) : M unit :=
  SE.modify (fun s =>
    {| counter := counter s; is_streaming := is_streaming s; buffer := buffer s;
       handles := handles s; log := log s ++ [msg] |}).

(** [AlsaDevice.__enter__]: [open()], which may raise. *)
Definition AlsaDevice_enter (opened : result unit) : M unit :=
  SE.lift opened ;;;
  SE.modify (fun s => set_handles s (S (handles s))).

(** [AlsaDevice.__exit__]: [close()], then [return True]. *)
Definition AlsaDevice_exit (_ : option exn) : M bool :=
  SE.modify (fun s => set_handles s (handles s - 1)) ;;;
  SE.ret true.

(** [with CaptureDevice(...)] or [with PlaybackDevice(...)] around
    [body]. *)
Definition with_device {A : Type} (opened : result unit) (body : M A)
  : M (option A) :=
  SE.with_stmt (AlsaDevice_enter opened) AlsaDevice_exit body.

(** [await v] for a [v] that is no awaitable ([PlaybackDevice.write]
    returns an int, [CaptureDevice.read] returns bytes). *)
Definition await_plain {A : Type} (v : A) : M A := SE.raise TypeError.

(** [FSM.stream].  The first [await] of the body is applied to the int
    that [write] returned, so the body is left before its loop; the loop
    is given by its first turn. *)
Definition stream (io : Loop.ports) : M unit :=
  info "start looping" ;;;
  with_device (Loop.playback_open io) (
    s <~ SE.get ;;
    w <~ SE.lift (Loop.playback_write io 0 (buffer s)) ;;
    await_plain w ;;;
    s <~ SE.get ;;
    if is_streaming s then
      b <~ SE.lift (Loop.capture_read io) ;;
      b' <~ await_plain b ;;
      SE.modify (fun s => set_buffer s b')
    else SE.ret tt) ;;;
  info "close playback".

End Usb.

(** ** Device ports: [AlsaDevice._pick], [CaptureDevice.read] and
    [PlaybackDevice.write] (alsaloop.py) *)

Module Device.
Import Py MemScope.
Local Open Scope string_scope.

(** [p in s] on strings. *)
Fixpoint contains (p s : string) : bool :=
  String.prefix p s
  || match s with
     | EmptyString => false
     | String _ s' => contains p s'
     end.

(** [name in pcms] *)
Definition listed (name : string) (pcms : list string) : bool :=
  existsb (String.eqb name) pcms.

(** [AlsaDevice._pick], [pcms] being what [alsaaudio.pcms(dev_type)]
    returns: the name itself when it is 'default' or listed, else the
    first listed name with 'sysdefault:CARD' in it, else (the IndexError
    caught) 'default'. *)
Definition _pick (pcms : list string) (name : string) : string :=
  if String.eqb name "default" || listed name pcms then name
  else
    match filter (contains "sysdefault:CARD") pcms with
    | n :: _ => n
    | [] => "default"
    end.

(** The warnings of [CaptureDevice.read]. *)
Inductive read_warning : Type :=
| IncompleteRead               (* length == 0 *)
| BrokenPipe                   (* length == -32 *)
| UnknownError (code : Z).     (* any other length *)

Definition warning_of (length : Z) : read_warning :=
  if (length =? 0)%Z then IncompleteRead
  else if (length =? -32)%Z then BrokenPipe
  else UnknownError length.

(** [CaptureDevice.read] on the answers [(length, data)] that
    [self.device.read()] gives in turn: the data of the first answer of
    positive length, the warnings issued before it (each followed by a
    sleep of 10 ms) and the answers not consumed.  [None]: the loop is
    still running when the answers end. *)
Fixpoint read (answers : list (Z * bytes))
  : option (bytes * list read_warning * list (Z * bytes)) :=
  match answers with
  | [] => None
  | (length, data) :: rest =>
      if (length >? 0)%Z then Some (data, [], rest)
      else
        match read rest with
        | Some (d, ws, rest') => Some (d, warning_of length :: ws, rest')
        | None => None
        end
  end.

(** [PlaybackDevice.write] on the counts that [self.device.write(data)]
    gives in turn: the first count that is not 0, the number of 'buffer
    full' warnings before it, and the counts not consumed. *)
Fixpoint write (counts : list Z) : option (Z * nat * list Z) :=
  match counts with
  | [] => None
  | written :: rest =>
      if (written =? 0)%Z then
        match write rest with
        | Some (w, n, rest') => Some (w, S n, rest')
        | None => None
        end
      else Some (written, O, rest)
  end.

End Device.

(** ** Identifiers of the format grammar *)

Module Grammar.
Import Re.





End Grammar.

(** ** Further notions for the decoder *)

Module Scope.
Import Py Format MemScope.

(** The decoder after [n] calls of [__next__]. *)
Fixpoint advance (n : nat) (ms : MemScope) : MemScope :=
  match n with
  | O => ms
  | S n' => advance n' (snd (next ms))
  end.

(** Value of a big-endian byte string. *)
Definition be_uint (bs : bytes) : Z := le_uint (rev bs).

End Scope.

(** ** Invariants of the loop controller *)

Module Invariant.
Import Py MemScope Loop.
Local Open Scope nat_scope.

(** A handler keeps [P] when the controller satisfies it after the
    handler ran whenever it did before, however the handler ends. *)
Definition keeps {A : Type} (P : LSM -> Prop) (m : M A) : Prop :=
  forall s, P s -> P (snd (m s)).

(** The same for a whole activation, up to the point where the task is
    suspended again or has ended. *)
Definition settles (P : LSM -> Prop) (m : M outcome) : Prop :=
  forall s, P s -> P (settle (m s)).

(** A coroutine suspended where only its own code can have put it:
    [_stream] inside its [with] block, [_shutdown] in its await. *)
Definition started (c : coro) : bool :=
  match c with
  | stream_loop | shutdown_wait => true
  | _ => false
  end.

(** [_shutdown] waiting to go on. *)
Definition exiting (t : task) : bool :=
  match body t with
  | shutdown_wait => true
  | _ => false
  end.

(** A timer whose coroutine has not started. *)
Definition unstarted (t : timer) : bool := negb (started (target t)).

(** The loop is running and the exit signal has not come: the state is
    not KILLED, the loop is not stopped and no [_shutdown] waits. *)
Definition running (s : LSM) : Prop :=
  state s <> PlayerState.KILLED /\ stopped s = false
  /\ filter exiting (tasks s) = [] /\ forallb unstarted (timers s) = true.

(** The suspended [_stream] tasks that are inside their [with] block. *)
Definition open_streams (s : LSM) : nat :=
  List.length (filter in_with_block (tasks s)).


(** The timer [run] registers for [cmd] when it dispatches it in [s]. *)
Definition timer_of (s : LSM) (cmd : PlayerCommand.t) : timer :=
  {| due := (now s + snd (fst (manifests (probe_cfg s) cmd)))%Q;
     target := snd (manifests (probe_cfg s) cmd) |}.

(** [k] probes by the task at index [i], [d] seconds apart. *)
Definition probe_cycles (i : nat) (io : ports) (d : Q) (k : nat) : list event :=
  List.concat (repeat [Resume i io; Tick d] k).

(** The controller idling with the counter at [c]: [_idle] is the last
    task, after the tasks [pre], and is due. *)
Definition idling_at (pre : list task) (c : Z) (s : LSM) : Prop :=
  stopped s = false /\ state s = PlayerState.IDLE
  /\ exists w, tasks s = (pre ++ [{| wake_at := w; body := idle c |}])%list
               /\ (w <= now s)%Q.

(** The controller in PLAY with the counter of [_monitor] at [c]:
    [_monitor] is the last task, after the tasks [pre], and is due. *)
Definition monitoring_at (pre : list task) (c : Z) (s : LSM) : Prop :=
  stopped s = false /\ state s = PlayerState.PLAY
  /\ exists w, tasks s = (pre ++ [{| wake_at := w; body := monitor c |}])%list
               /\ (w <= now s)%Q.

(** The controller in IDLE as [run] and the timer of its first PLAY
    leave it: [run] waits for a command and [_idle] is about to run. *)
Definition idling : LSM :=
  {| state := PlayerState.IDLE; dbus := Some "Paused"%string; rxq := [];
     _buffer := []; probe_cfg := run_cfg; capture_open := true;
     playback_handles := 0;
     log := ["Cancelling outstanding tasks"%string; "Received command"%string];
     now := 1 # 4;
     tasks := [{| wake_at := 0; body := run_get |};
               {| wake_at := 1 # 4; body := idle 0 |}];
     timers := []; stopped := false; crashed := [];
     loop_set := true |}.

(** The controller in PLAY over a silent buffer, [_stream] suspended in
    its loop and [_monitor] about to run. *)
Definition monitoring : LSM :=
  {| state := PlayerState.PLAY; dbus := Some "Playing"%string; rxq := [];
     _buffer := [x00%byte]; probe_cfg := run_cfg; capture_open := true;
     playback_handles := 1;
     log := ["Cancelling outstanding tasks"%string; "Received command"%string;
             "start redirecting"%string];
     now := 580 # 400;
     tasks := [{| wake_at := 0; body := run_get |};
               {| wake_at := 180400 # 400000; body := stream_loop |};
               {| wake_at := 580 # 400; body := monitor 0 |}];
     timers := []; stopped := false; crashed := [];
     loop_set := true |}.

End Invariant.

(** ** Notions used to state what the probe looks at *)

Module ProbeView.
Import Py Format MemScope.

(** A string of zero bytes. *)
Definition zero (bs : bytes) : Prop := Forall (fun b => b = x00%byte) bs.

(** A decoder of a signed format over a buffer of zero bytes. *)
Definition silent_scope (ms : MemScope) (o : byte_order) (c : code) (n : nat)
  : Prop :=
  scope_for ms o c n /\ zero (bio_data (buffer ms)) /\ c <> c_c
  /\ reference (dev_cfg ms) = 0%Z
  /\ (0 < Z.to_nat (size (dev_cfg ms)))%nat
  /\ exists sz0 e, padding ms = padding_of true sz0 e.

(** Two buffers at the same position, the first holding the data [d]
    of the second and more. *)
Definition same_data (d : bytes) (b1 b2 : BytesIO) : Prop :=
  bio_pos b1 = bio_pos b2 /\ bio_data b2 = d
  /\ exists x, bio_data b1 = (d ++ x)%list.

(** Two decoders that differ in what follows [d] in the buffer only. *)
Definition same_view (d : bytes) (ms1 ms2 : MemScope) : Prop :=
  dev_cfg ms1 = dev_cfg ms2 /\ struct_ ms1 = struct_ ms2
  /\ padding ms1 = padding ms2 /\ same_data d (buffer ms1) (buffer ms2).

End ProbeView.

(* ================================================================== *)
(** * Part II: properties                                             *)
(* ================================================================== *)

(** ** Format descriptor *)

Section FormatFacts.
Import Py Format.
Local Open Scope string_scope.
Local Open Scope Z_scope.

(** The pattern accepts the identifiers of the aligned formats. *)
Lemma fmt_matcher_S16_LE :
  fmt_matcher "PCM_FORMAT_S16_LE" = Some ("S", "16", Some "LE").
Proof. reflexivity. Qed.

Lemma fmt_matcher_U8 :
  fmt_matcher "PCM_FORMAT_U8" = Some ("U", "8", None).
Proof. reflexivity. Qed.

(** The 16-bit signed format has full-scale amplitude 32768 and
    reference level 0. *)
Lemma S16_LE_full_scale :
  exists cfg,
    AlsaDeviceConfig_default "PCM_FORMAT_S16_LE" = ([], Ok cfg)
    /\ size cfg = 2 /\ signed cfg = true
    /\ maxamp cfg = 32768 /\ reference cfg = 0.
Proof. eexists. repeat split; reflexivity. Qed.

(** A string the pattern rejects leaves [bits] unbound, and the read of
    [bits] in [1 << int(bits) - 1] ends the constructor. *)
Lemma init_fields_unbound (pcm : string) (channels rate period_frames : Z)
  (l : init_locals) :
  rate <> 0 -> l_bits l = None ->
  init_fields pcm channels rate period_frames l = Raise UnboundLocalError.
Proof.
  intros Hrate Hbits. unfold init_fields, truediv.
  destruct (Z.eqb_spec rate 0) as [E | _]; [contradiction |].
  cbn. rewrite Hbits. reflexivity.
Qed.

(** C4 (as the code has it): for every format string the pattern does not
    match, [AlsaDeviceConfig.__init__] emits the fallback warning and sets
    the 16-bit signed little-endian defaults, but then raises
    UnboundLocalError at [int(bits)] instead of returning the fallback
    descriptor; [StreamMeta.__init__] raises AttributeError. *)
Theorem fallback_raises (pcm fmt : string) (channels rate period_frames : Z) :
  fmt_matcher fmt = None -> rate <> 0 ->
  AlsaDeviceConfig_init pcm fmt channels rate period_frames
    = ([fallback_warning], Raise UnboundLocalError)
  /\ StreamMeta_init fmt channels rate period_frames = Raise AttributeError.
Proof.
  intros Hm Hrate. split.
  - unfold AlsaDeviceConfig_init, init_branch. rewrite Hm. cbn [l_warnings].
    f_equal. apply init_fields_unbound; [assumption | reflexivity].
  - unfold StreamMeta_init. rewrite Hm. reflexivity.
Qed.

Lemma fallback_raises_witness :
  fmt_matcher "PCM_FORMAT_FLOAT_LE" = None
  /\ AlsaDeviceConfig_init "default" "PCM_FORMAT_FLOAT_LE" 2 48000 1024
       = ([fallback_warning], Raise UnboundLocalError)
  /\ StreamMeta_init "PCM_FORMAT_FLOAT_LE" 2 48000 1024 = Raise AttributeError.
Proof.
  split; [reflexivity |].
  apply (fallback_raises "default" "PCM_FORMAT_FLOAT_LE" 2 48000 1024);
    [reflexivity | discriminate].
Defined.

(** C7 (refuted as stated): ['PCM_FORMAT_S24_3LE'] is not matched by the
    pattern, so no descriptor with size 3, signed, LE is constructed from
    it without warning. *)
Lemma S24_3LE_not_matched :
  ~ (exists cfg,
       AlsaDeviceConfig_default "PCM_FORMAT_S24_3LE" = ([], Ok cfg)
       /\ size cfg = 3 /\ signed cfg = true /\ endian cfg = Some "LE").
Proof.
  intros [cfg [H _]]. vm_compute in H. discriminate H.
Qed.

(** C7 (amended): ['PCM_FORMAT_S24_3LE'] does not match the pattern and
    takes the no-match branch; the 24-bit identifier the pattern accepts is
    ['PCM_FORMAT_S24_LE'], which matches with digits "24" and yields
    size 3, signed, LE, with no warning and no exception. *)
Theorem S24_LE_matched :
  fmt_matcher "PCM_FORMAT_S24_3LE" = None
  /\ fst (AlsaDeviceConfig_default "PCM_FORMAT_S24_3LE") = [fallback_warning]
  /\ fmt_matcher "PCM_FORMAT_S24_LE" = Some ("S", "24", Some "LE")
  /\ exists cfg,
       AlsaDeviceConfig_default "PCM_FORMAT_S24_LE" = ([], Ok cfg)
       /\ size cfg = 3 /\ signed cfg = true /\ endian cfg = Some "LE"
       /\ maxamp cfg = 8388608 /\ reference cfg = 0.
Proof.
  repeat split; try reflexivity.
  eexists. repeat split; reflexivity.
Qed.

End FormatFacts.

(** ** Sample decoder *)

Section PaddingFacts.
Import Py Format MemScope.
Local Open Scope Z_scope.

(** [x < 128] on a byte value says that the top bit is clear. *)
Lemma top_bit_clear (b : byte) :
  (byte_val b <? 128) = negb (Z.testbit (byte_val b) 7).
Proof. destruct b; reflexivity. Qed.

Lemma sign_fill_3 (b0 b1 b2 : byte) :
  sign_fill [b0; b1; b2]
  = Ok [if Z.testbit (byte_val b2) 7 then xff%byte else x00%byte].
Proof.
  unfold sign_fill, getitem. cbn [nth_error bind].
  rewrite top_bit_clear. destruct (Z.testbit (byte_val b2) 7); reflexivity.
Qed.

(** C5 (as the code has it): on a 3-byte field the signed little-endian
    padding appends 0xFF when the top bit of the third byte is set and 0x00
    otherwise, and the unsigned little-endian padding appends 0x00; the
    big-endian paddings prepend a byte, chosen for a signed field by the
    top bit of the third byte, but for an unsigned field the byte
    prepended is 0xFF, not 0x00, so the unsigned big-endian field
    00 00 01 is decoded as 4278190081. *)
Theorem padding_three_bytes (b0 b1 b2 : byte) :
  let x := [b0; b1; b2] in
  let fill := if Z.testbit (byte_val b2) 7 then xff%byte else x00%byte in
  padding_of true 3 (Some "LE"%string) x = Ok (x ++ [fill])
  /\ padding_of false 3 (Some "LE"%string) x = Ok (x ++ [x00%byte])
  /\ padding_of true 3 (Some "BE"%string) x = Ok (fill :: x)
  /\ padding_of false 3 (Some "BE"%string) x = Ok (xff%byte :: x)
  /\ exists cfg,
       snd (AlsaDeviceConfig_init "default" "PCM_FORMAT_U24_BE" 1 48000 1024)
         = Ok cfg
       /\ decode [x00; x00; x01]%byte cfg = Some (Ok [[PyInt 4278190081]]).
Proof.
  cbv zeta. unfold padding_of, padding_t. cbn [String.eqb Ascii.eqb].
  cbn -[sign_fill Z.testbit byte_val AlsaDeviceConfig_init decode].
  rewrite sign_fill_3. cbn [bind app].
  repeat split; try reflexivity.
  eexists. split; reflexivity.
Qed.

End PaddingFacts.

Section DecodeFacts.
Import Py Format MemScope.
Local Open Scope nat_scope.

Lemma read_spec (b : BytesIO) (sz : Z) :
  (0 <= sz)%Z ->
  let (x, b') := read b sz in
  List.length x = Nat.min (Z.to_nat sz) (remaining b)
  /\ remaining b' = remaining b - List.length x
  /\ bio_data b' = bio_data b.
Proof.
  intros Hsz. unfold read, remaining.
  destruct (Z.ltb_spec sz 0) as [Hneg | _]; [lia |].
  cbn [bio_data bio_pos].
  rewrite length_firstn, length_skipn. repeat split; lia.
Qed.

Lemma sign_fill_length (x : bytes) :
  sign_fill x = Raise IndexError /\ List.length x < 3
  \/ exists p, sign_fill x = Ok p /\ List.length p = 1 /\ 3 <= List.length x.
Proof.
  unfold sign_fill, getitem.
  destruct (nth_error x 2) as [b |] eqn:E.
  - right. cbn [bind]. eexists. repeat split.
    + destruct (byte_val b <? 128)%Z; reflexivity.
    + assert (2 < List.length x) by (apply nth_error_Some; congruence). lia.
  - left. split; [reflexivity |]. apply nth_error_None in E. lia.
Qed.

(** Every supported (signed, size) pair with an explicit byte order has a
    padding that fits its struct item. *)
Lemma padding_of_spec (sg : bool) (sz : Z) (e : string) (c : code) :
  struct_t sg sz = Ok c ->
  e = "LE"%string \/ e = "BE"%string ->
  pad_spec (padding_of sg sz (Some e)) (Z.to_nat sz) (code_size c).
Proof.
  intros Hc He.
  assert (Hid : forall szn isz, szn = isz -> pad_spec (fun x => Ok x) szn isz).
  { intros szn isz ->. split; intros x Hx.
    - exists x. split; [reflexivity | assumption].
    - right. exists x. split; [reflexivity | assumption]. }
  assert (Hcases : (sz = 1 \/ sz = 2 \/ sz = 3 \/ sz = 4)%Z).
  { destruct sg; destruct sz as [| [[|[]|]|[|[]|]|] |]; cbn in Hc;
      try discriminate Hc; lia. }
  destruct Hcases as [-> | [-> | [-> | ->]]];
    try (destruct sg; cbn in Hc; injection Hc as <-;
         unfold padding_of, padding_t; apply Hid; reflexivity).
  assert (Hsz : code_size c = 4)
    by (destruct sg; cbn in Hc; injection Hc as <-; reflexivity).
  rewrite Hsz. change (Z.to_nat 3) with 3.
  unfold padding_of, padding_t.
  destruct He as [-> | ->]; cbn [String.eqb Ascii.eqb Bool.eqb]; destruct sg;
    split; intros x Hx.
  all: try (destruct (sign_fill_length x) as [[E Hl] | [p [E [Hp Hl]]]];
            rewrite E; cbn [bind]).
  all: try lia.
  all: try (left; reflexivity).
  all: try (eexists; split; [reflexivity |];
            rewrite ?length_app; cbn [List.length]; lia).
  all: right; eexists; split; [reflexivity |];
       rewrite ?length_app; cbn [List.length]; lia.
Qed.

Section ReadLoop.
Variable pad : bytes -> result bytes.
Variable sz : Z.
Variables szn isz : nat.
Hypothesis Hsz : Z.to_nat sz = szn.
Hypothesis Hsz0 : (0 <= sz)%Z.
Hypothesis Hpad : pad_spec pad szn isz.

(** With a whole frame left the loop returns a chunk of the struct size
    and moves past the frame. *)
Lemma read_channels_full (n : nat) : forall (b : BytesIO) (chunk : bytes),
  n * szn <= remaining b ->
  exists c' b',
    read_channels n pad sz b chunk = (Ok (chunk ++ c'), b')
    /\ List.length c' = n * isz
    /\ remaining b' = remaining b - n * szn
    /\ bio_data b' = bio_data b.
Proof.
  induction n as [| n IH]; intros b chunk Hrem.
  - exists [], b. cbn. rewrite app_nil_r. repeat split; lia.
  - cbn [read_channels].
    pose proof (read_spec b sz Hsz0) as Hr.
    destruct (read b sz) as [x b1]. destruct Hr as [Hlen [Hrem1 Hdata1]].
    rewrite Hsz in Hlen.
    assert (Hx : List.length x = szn) by lia.
    destruct Hpad as [Hfull _].
    destruct (Hfull x Hx) as [y [Ey Hy]]. rewrite Ey.
    destruct (IH b1 (chunk ++ y)) as [c' [b' [E [Hc' [Hrem' Hdata']]]]]; [lia |].
    exists (y ++ c'), b'. rewrite E, app_assoc.
    repeat split; [rewrite length_app | | congruence]; lia.
Qed.

(** Whatever is left, the loop raises IndexError or returns at most the
    struct size. *)
Lemma read_channels_bound (n : nat) : forall (b : BytesIO) (chunk : bytes),
  let (r, _) := read_channels n pad sz b chunk in
  r = Raise IndexError
  \/ exists c', r = Ok (chunk ++ c') /\ List.length c' <= n * isz.
Proof.
  induction n as [| n IH]; intros b chunk.
  - cbn. right. exists []. rewrite app_nil_r. split; [reflexivity | cbn; lia].
  - cbn [read_channels].
    pose proof (read_spec b sz Hsz0) as Hr.
    destruct (read b sz) as [x b1]. destruct Hr as [Hlen _].
    rewrite Hsz in Hlen.
    assert (Hy : pad x = Raise IndexError
                 \/ exists y, pad x = Ok y /\ List.length y <= isz).
    { destruct Hpad as [Hfull Hshort].
      destruct (Nat.eq_dec (List.length x) szn) as [Hx | Hx].
      - destruct (Hfull x Hx) as [y [Ey Hl]]. right. exists y. split; [assumption | lia].
      - destruct (Hshort x) as [E | [y [Ey Hl]]]; [lia | left; assumption |].
        right. exists y. split; [assumption | lia]. }
    destruct Hy as [E | [y [Ey Hl]]]; rewrite ?E, ?Ey; [left; reflexivity |].
    specialize (IH b1 (chunk ++ y)).
    destruct (read_channels n pad sz b1 (chunk ++ y)) as [r b2].
    destruct IH as [-> | [c' [-> Hc']]]; [left; reflexivity |].
    right. exists (y ++ c'). rewrite app_assoc, length_app.
    split; [reflexivity | lia].
Qed.

(** With less than a whole frame left the loop raises IndexError or
    returns less than the struct size. *)
Lemma read_channels_short (n : nat) : forall (b : BytesIO) (chunk : bytes),
  0 < szn ->
  remaining b < n * szn ->
  let (r, _) := read_channels n pad sz b chunk in
  r = Raise IndexError
  \/ exists c', r = Ok (chunk ++ c') /\ List.length c' < n * isz.
Proof.
  induction n as [| n IH]; intros b chunk Hpos Hrem; [lia |].
  cbn [read_channels].
  pose proof (read_spec b sz Hsz0) as Hr.
  destruct (read b sz) as [x b1] eqn:Eread. destruct Hr as [Hlen [Hrem1 _]].
  rewrite Hsz in Hlen.
  destruct (Nat.eq_dec (List.length x) szn) as [Hx | Hx].
  - destruct Hpad as [Hfull _].
    destruct (Hfull x Hx) as [y [Ey Hy]]. rewrite Ey.
    specialize (IH b1 (chunk ++ y) Hpos).
    destruct (read_channels n pad sz b1 (chunk ++ y)) as [r b2].
    destruct IH as [-> | [c' [-> Hc']]]; [cbn in *; lia | left; reflexivity |].
    right. exists (y ++ c'). rewrite app_assoc, length_app.
    split; [reflexivity | lia].
  - destruct Hpad as [_ Hshort].
    destruct (Hshort x) as [E | [y [Ey Hy]]]; [lia | rewrite E; left; reflexivity |].
    rewrite Ey.
    pose proof (read_channels_bound n b1 (chunk ++ y)) as Hb.
    destruct (read_channels n pad sz b1 (chunk ++ y)) as [r b2].
    destruct Hb as [-> | [c' [-> Hc']]]; [left; reflexivity |].
    right. exists (y ++ c'). rewrite app_assoc, length_app.
    split; [reflexivity | lia].
Qed.

End ReadLoop.

Lemma calcsize_repeat (o : byte_order) (c : code) (n : nat) :
  calcsize {| st_order := o; st_codes := repeat c n |} = n * code_size c.
Proof.
  unfold calcsize. cbn [st_codes].
  induction n as [| n IH]; cbn [repeat fold_right]; [reflexivity | lia].
Qed.

Lemma unpack_items_length (o : byte_order) (cs : list code) :
  forall bs, List.length (unpack_items o cs bs) = List.length cs.
Proof.
  induction cs as [| c cs IH]; intros bs; cbn; [reflexivity | now rewrite IH].
Qed.

Lemma scope_for_set_buffer ms o c n b :
  scope_for ms o c n -> scope_for (MemScope.set_buffer ms b) o c n.
Proof. intros H. exact H. Qed.

(** [__next__] with a whole frame left: a frame of [n] values. *)
Lemma next_full (ms : MemScope) (o : byte_order) (c : code) (n : nat) :
  scope_for ms o c n ->
  n * Z.to_nat (size (dev_cfg ms)) <= remaining (buffer ms) ->
  exists f ms',
    next ms = (Ok f, ms')
    /\ List.length f = n
    /\ scope_for ms' o c n
    /\ dev_cfg ms' = dev_cfg ms
    /\ remaining (buffer ms')
       = remaining (buffer ms) - n * Z.to_nat (size (dev_cfg ms)).
Proof.
  intros Hwf Hrem. pose proof Hwf as [Hst [Hn [Hsz0 Hpad]]].
  unfold next. rewrite Hn.
  destruct (read_channels_full (padding ms) (size (dev_cfg ms)) _ _
              eq_refl Hsz0 Hpad n (buffer ms) [] Hrem)
    as [c' [b' [E [Hc' [Hrem' _]]]]].
  rewrite E. cbn [app bind]. unfold unpack.
  rewrite Hst, calcsize_repeat, Hc', Nat.eqb_refl. cbn [try_except st_order st_codes].
  eexists. eexists. split; [reflexivity |].
  rewrite unpack_items_length, repeat_length.
  split; [reflexivity |].
  split; [apply scope_for_set_buffer; exact Hwf |].
  split; [reflexivity | exact Hrem'].
Qed.

(** [__next__] with less than a whole frame left: StopIteration. *)
Lemma next_short (ms : MemScope) (o : byte_order) (c : code) (n : nat) :
  scope_for ms o c n ->
  0 < Z.to_nat (size (dev_cfg ms)) ->
  remaining (buffer ms) < n * Z.to_nat (size (dev_cfg ms)) ->
  exists ms', next ms = (Raise StopIteration, ms').
Proof.
  intros [Hst [Hn [Hsz0 Hpad]]] Hpos Hrem.
  unfold next. rewrite Hn.
  pose proof (read_channels_short (padding ms) (size (dev_cfg ms)) _ _
                eq_refl Hsz0 Hpad n (buffer ms) [] Hpos Hrem) as H.
  destruct (read_channels n (padding ms) (size (dev_cfg ms)) (buffer ms) [])
    as [r b'].
  destruct H as [-> | [c' [-> Hc']]].
  - eexists. reflexivity.
  - cbn [app bind]. unfold unpack. rewrite Hst, calcsize_repeat.
    destruct (Nat.eqb_spec (List.length c') (n * code_size c)) as [E | _]; [lia |].
    eexists. reflexivity.
Qed.

(** Draining a decoder that has [k] whole frames and a rest [r] of less
    than a frame: [k] frames, every fuel above [k] being enough. *)
Lemma drain_frames (o : byte_order) (c : code) (n : nat) (k : nat) :
  forall (fuel : nat) (ms : MemScope) (r : nat),
  scope_for ms o c n ->
  0 < Z.to_nat (size (dev_cfg ms)) ->
  remaining (buffer ms) = k * (n * Z.to_nat (size (dev_cfg ms))) + r ->
  r < n * Z.to_nat (size (dev_cfg ms)) ->
  k < fuel ->
  exists frames,
    drain fuel ms = Some (Ok frames)
    /\ List.length frames = k
    /\ Forall (fun f => List.length f = n) frames.
Proof.
  induction k as [| k IH]; intros fuel ms r Hwf Hpos Hrem Hr Hfuel;
    (destruct fuel as [| fuel]; [lia |]); cbn [drain].
  - destruct (next_short ms o c n Hwf Hpos) as [ms' E]; [lia |].
    rewrite E. exists []. repeat split; constructor.
  - destruct (next_full ms o c n Hwf) as [f [ms' [E [Hf [Hwf' [Hcfg Hrem']]]]]]; [lia |].
    rewrite E.
    destruct (IH fuel ms' r Hwf') as [frames [Ed [Hlen Hall]]];
      rewrite ?Hcfg; try assumption; try lia.
    rewrite Ed. exists (f :: frames).
    repeat split; [cbn; lia | constructor; assumption].
Qed.

(** C6: for each of the eight (signed, size) pairs and both byte orders,
    with at least one channel, a buffer of [k] whole frames followed by
    [r] bytes, [r] less than a frame (none, or 1 to size-1 trailing bytes
    in particular), decodes to exactly [k] frames: the iteration stops
    without an exception and within its fuel, and every frame has one
    value per channel. *)
Theorem decode_whole_frames (cfg : AlsaDeviceConfig) (data : bytes) (k r : nat) :
  (1 <= size cfg <= 4)%Z ->
  endian cfg = Some "LE"%string \/ endian cfg = Some "BE"%string ->
  (1 <= channels cfg)%Z ->
  List.length data = k * Z.to_nat (channels cfg * size cfg) + r ->
  r < Z.to_nat (channels cfg * size cfg) ->
  exists frames,
    decode data cfg = Some (Ok frames)
    /\ List.length frames = k
    /\ Forall (fun f => List.length f = Z.to_nat (channels cfg)) frames.
Proof.
  intros Hsz He Hch Hlen Hr.
  assert (Hc : exists c, struct_t (signed cfg) (size cfg) = Ok c).
  { assert (Hcases : (size cfg = 1 \/ size cfg = 2 \/ size cfg = 3 \/ size cfg = 4)%Z) by lia.
    destruct (signed cfg); destruct Hcases as [-> | [-> | [-> | ->]]];
      eexists; reflexivity. }
  destruct Hc as [c Hc].
  assert (Ho : exists e o, endian cfg = Some e /\ endian_t (Some e) = Ok o
                           /\ (e = "LE"%string \/ e = "BE"%string)).
  { destruct He as [E | E]; rewrite E; eexists; eexists;
      (split; [reflexivity | split; [reflexivity | auto]]). }
  destruct Ho as [e [o [Ee [Eo He']]]].
  unfold decode, MemScope_init, _struct_str.
  rewrite Ee, Eo, Hc. cbn [bind].
  rewrite Z2Nat.inj_mul in Hlen, Hr by lia.
  eapply (drain_frames o c (Z.to_nat (channels cfg)) k _ _ r).
  - repeat split; cbn; try lia.
    + intros x Hx. pose proof (padding_of_spec (signed cfg) (size cfg) e c Hc He') as [Hf _].
      apply Hf. exact Hx.
    + intros x Hx. pose proof (padding_of_spec (signed cfg) (size cfg) e c Hc He') as [_ Hs].
      apply Hs. exact Hx.
  - cbn. lia.
  - cbn. unfold remaining. cbn. lia.
  - cbn. exact Hr.
  - assert (0 < Z.to_nat (channels cfg) * Z.to_nat (size cfg)) by nia.
    nia.
Qed.

Lemma decode_whole_frames_witness :
  exists frames,
    decode [x00; x00; x01; xff; xff; xfe; x12; x34; x56; x80; x00; x00; x01; x02]%byte
      {| pcm_name := "default"; format := "PCM_FORMAT_S24_BE"; size := 3;
         signed := true; endian := Some "BE"%string; channels := 2;
         rate := 48000; frame_size := 6; period_size := 1024;
         period_time := 1024 # 48000; maxamp := 8388608; reference := 0 |}
    = Some (Ok frames)
    /\ List.length frames = 2
    /\ Forall (fun f => List.length f = 2) frames.
Proof.
  apply (decode_whole_frames
           {| pcm_name := "default"; format := "PCM_FORMAT_S24_BE"; size := 3;
              signed := true; endian := Some "BE"%string; channels := 2;
              rate := 48000; frame_size := 6; period_size := 1024;
              period_time := 1024 # 48000; maxamp := 8388608; reference := 0 |}
           [x00; x00; x01; xff; xff; xfe; x12; x34; x56; x80; x00; x00; x01; x02]%byte
           2 2).
  - simpl. lia.
  - right. reflexivity.
  - simpl. lia.
  - reflexivity.
  - simpl. lia.
Defined.

(** C9 (as the code has it): every decoded frame has one value per
    channel, but for the unsigned 8-bit
    format the struct code is [c], whose values are bytes objects, not
    integers: the frame decoded from the bytes 80 7f holds two bytes
    objects, and the probe statistic [abs(val - reference)] on it raises
    TypeError. *)
Theorem u8_frames_hold_bytes (thr : Threshold.HystComp) :
  exists cfg,
    AlsaDeviceConfig_default "PCM_FORMAT_U8" = ([], Ok cfg)
    /\ decode [x80; x7f]%byte cfg
       = Some (Ok [[PyBytes [x80%byte]; PyBytes [x7f%byte]]])
    /\ Threshold.probe cfg thr 40 [x80; x7f]%byte = Raise TypeError.
Proof.
  eexists. split; [reflexivity |]. split; reflexivity.
Qed.

(** The signed 8-bit format, by contrast, decodes to integers. *)
Lemma s8_frames_hold_ints :
  exists cfg,
    AlsaDeviceConfig_default "PCM_FORMAT_S8" = ([], Ok cfg)
    /\ decode [x80; x7f]%byte cfg = Some (Ok [[PyInt (-128); PyInt 127]]).
Proof.
  eexists. split; reflexivity.
Qed.

End DecodeFacts.

(** ** Threshold engine *)

Section ThresholdFacts.
Import Threshold.
Local Open Scope R_scope.

Lemma ten_pos : 0 < 10.
Proof. lra. Qed.

Lemma Rpower10_pos (x : R) : 0 < Rpower 10 x.
Proof. unfold Rpower. apply exp_pos. Qed.

Lemma Rpower10_lt (x y : R) : x < y -> Rpower 10 x < Rpower 10 y.
Proof. intros H. apply Rpower_lt; lra. Qed.

(** Three more decibels of attenuation scale the amplitude by
    10^(-3/20). *)
Lemma reverse_db_minus_3 (maxamp : Z) (db : R) :
  reverse_db maxamp (db - 3) = reverse_db maxamp db * Rpower 10 (- 3 / 20).
Proof.
  unfold reverse_db.
  replace ((db - 3) / 20) with (db / 20 + - 3 / 20) by lra.
  rewrite Rpower_plus. ring.
Qed.

Lemma attenuation_below_one : Rpower 10 (- 3 / 20) < 1.
Proof.
  rewrite <- (Rpower_O 10 ten_pos). apply Rpower10_lt. lra.
Qed.

(** For every nonzero sensitivity and positive full-scale amplitude the
    comparator of the [probe] setter has [high] below [low], in the fixed
    ratio 10^(-3/20). *)
Lemma probe_setter_inverted (maxamp : Z) (val : R) :
  (0 < maxamp)%Z -> val <> 0 ->
  let h := probe_setter maxamp val in
  high h < low h /\ high h = low h * Rpower 10 (- 3 / 20) /\ 0 < high h.
Proof.
  intros Hm Hv. unfold probe_setter.
  destruct (Req_dec_T val 0) as [E | _]; [contradiction |].
  cbn [low high]. rewrite reverse_db_minus_3.
  assert (Hlow : 0 < reverse_db maxamp (- Rabs val)).
  { unfold reverse_db. apply Rmult_lt_0_compat.
    - apply IZR_lt. exact Hm.
    - apply Rpower10_pos. }
  pose proof attenuation_below_one as H1.
  pose proof (Rpower10_pos (- 3 / 20)) as H0.
  repeat split; nra.
Qed.

(** The 20th power of a threshold is rational. *)
Lemma reverse_db_pow20 (maxamp : Z) (a : nat) :
  reverse_db maxamp (- INR a) ^ 20 * 10 ^ a = IZR maxamp ^ 20.
Proof.
  unfold reverse_db. rewrite Rpow_mult_distr.
  rewrite <- (Rpower_pow 20 (Rpower 10 (- INR a / 20))) by apply Rpower10_pos.
  rewrite Rpower_mult.
  replace (- INR a / 20 * INR 20) with (- INR a) by (simpl INR; lra).
  rewrite Rpower_Ropp, (Rpower_pow a 10 ten_pos).
  field. apply pow_nonzero. lra.
Qed.

Lemma reverse_db_lower (maxamp l : Z) (a : nat) :
  (0 < maxamp)%Z -> (0 <= l)%Z ->
  (l ^ 20 * 10 ^ Z.of_nat a < maxamp ^ 20)%Z ->
  IZR l < reverse_db maxamp (- INR a).
Proof.
  intros Hm Hl H.
  destruct (Rlt_le_dec (IZR l) (reverse_db maxamp (- INR a))) as [Hlt | Hle];
    [exact Hlt | exfalso].
  assert (Hx : 0 <= reverse_db maxamp (- INR a)).
  { unfold reverse_db. apply Rmult_le_pos.
    - apply IZR_le. lia.
    - left. apply Rpower10_pos. }
  assert (Hp : reverse_db maxamp (- INR a) ^ 20 <= IZR l ^ 20)
    by (apply pow_incr; split; assumption).
  assert (H10 : 0 < 10 ^ a) by (apply pow_lt; lra).
  pose proof (reverse_db_pow20 maxamp a) as E.
  apply IZR_lt in H. rewrite mult_IZR in H.
  change 20%Z with (Z.of_nat 20) in H.
  rewrite <- !pow_IZR in H.
  nra.
Qed.

Lemma reverse_db_upper (maxamp u : Z) (a : nat) :
  (0 < maxamp)%Z -> (0 < u)%Z ->
  (maxamp ^ 20 < u ^ 20 * 10 ^ Z.of_nat a)%Z ->
  reverse_db maxamp (- INR a) < IZR u.
Proof.
  intros Hm Hu H.
  destruct (Rlt_le_dec (reverse_db maxamp (- INR a)) (IZR u)) as [Hlt | Hle];
    [exact Hlt | exfalso].
  assert (Hx : 0 <= IZR u) by (apply IZR_le; lia).
  assert (Hp : IZR u ^ 20 <= reverse_db maxamp (- INR a) ^ 20)
    by (apply pow_incr; split; assumption).
  assert (H10 : 0 < 10 ^ a) by (apply pow_lt; lra).
  pose proof (reverse_db_pow20 maxamp a) as E.
  apply IZR_lt in H. rewrite mult_IZR in H.
  change 20%Z with (Z.of_nat 20) in H.
  rewrite <- !pow_IZR in H.
  nra.
Qed.

(** C1 (as the code has it): for the 16-bit signed format (full scale
    32768) and sensitivity -10 dB the setter gives [low] =
    32768*10^(-10/20), between 10362 and 10363, as the claim says, but
    [high] = 32768*10^(-13/20), between 7335 and 7336, not
    32768*10^(-7/20): [high] is below [low] and [high/low] is 10^(-3/20),
    the inverse of the ratio claimed. *)
Theorem probe_setter_minus_10_dB :
  let h := probe_setter 32768 (- 10) in
  low h = 32768 * Rpower 10 (- 10 / 20)
  /\ high h = 32768 * Rpower 10 (- 13 / 20)
  /\ 10362 < low h < 10363
  /\ 7335 < high h < 7336
  /\ high h < low h
  /\ high h / low h = Rpower 10 (- 3 / 20).
Proof.
  cbv zeta.
  assert (Hlow : low (probe_setter 32768 (- 10)) = reverse_db 32768 (- INR 10)).
  { unfold probe_setter. destruct (Req_dec_T (- 10) 0) as [E | _]; [lra |].
    cbn [low]. rewrite Rabs_left by lra. f_equal. simpl INR. lra. }
  assert (Hhigh : high (probe_setter 32768 (- 10)) = reverse_db 32768 (- INR 13)).
  { unfold probe_setter. destruct (Req_dec_T (- 10) 0) as [E | _]; [lra |].
    cbn [high]. rewrite Rabs_left by lra. f_equal. simpl INR. lra. }
  pose proof (probe_setter_inverted 32768 (- 10) eq_refl) as Hinv.
  cbv zeta in Hinv. destruct Hinv as [Hlt [Hratio Hpos]]; [lra |].
  split; [rewrite Hlow; unfold reverse_db; f_equal; f_equal; simpl INR; lra |].
  split; [rewrite Hhigh; unfold reverse_db; f_equal; f_equal; simpl INR; lra |].
  split; [rewrite Hlow; split;
          [apply (reverse_db_lower 32768 10362 10) | apply (reverse_db_upper 32768 10363 10)];
          (reflexivity || discriminate || (vm_compute; reflexivity)) |].
  split; [rewrite Hhigh; split;
          [apply (reverse_db_lower 32768 7335 13) | apply (reverse_db_upper 32768 7336 13)];
          (reflexivity || discriminate || (vm_compute; reflexivity)) |].
  split; [exact Hlt |].
  rewrite Hratio. field. lra.
Qed.

(** In usbloop.py the two thresholds are named [start] and [stop], and
    for a negative [threshold_db] the start threshold is the larger one. *)
Lemma FSM_thresholds_ordered (maxamp : Z) (threshold_db : R) :
  (0 < maxamp)%Z -> threshold_db < 0 ->
  stop (FSM_thresholds maxamp threshold_db)
  < start (FSM_thresholds maxamp threshold_db).
Proof.
  intros Hm Hdb. unfold FSM_thresholds, usb_reverse_db. cbn [start stop].
  apply Rmult_lt_compat_l; [apply IZR_lt; exact Hm |].
  apply Rpower10_lt. rewrite !Rabs_left by lra. lra.
Qed.

End ThresholdFacts.

(** ** Loop controller *)

Section LoopFacts.
Import Py MemScope Loop.

Lemma exec_step probe s ev evs s' :
  step probe s ev = Some s' -> exec probe s (ev :: evs) = exec probe s' evs.
Proof. intros H. cbn [exec]. rewrite H. reflexivity. Qed.

Lemma exec_halt probe s ev evs :
  step probe s ev = None -> exec probe s (ev :: evs) = None.
Proof. intros H. cbn [exec]. rewrite H. reflexivity. Qed.

(** A stopped loop takes no step. *)
Lemma Qle_bool_refl (x : Q) : Qle_bool x x = true.
Proof. apply Qle_bool_iff. apply Qle_refl. Qed.

Lemma stopped_no_step probe s ev : stopped s = true -> step probe s ev = None.
Proof. intros H. unfold step. rewrite H. reflexivity. Qed.

Lemma step_resume probe (s : LSM) (i : nat) (io : ports) (t : task) :
  stopped s = false -> nth_error (tasks s) i = Some t -> ready s t = true ->
  step probe s (Resume i io)
  = Some (settle (activate probe (body t) io
                    (set_tasks s (remove_nth i (tasks s))))).
Proof. intros H1 H2 H3. unfold step. rewrite H1, H2, H3. reflexivity. Qed.

(** [_shutdown] after its await, on an opened controller whose [run]
    has started: the capture device is closed and the loop stopped. *)
Lemma shutdown_resume_stops (s : LSM) :
  dbus s <> None -> loop_set s = true ->
  shutdown_resume s = (Ok Done, set_stopped (set_capture_open s false) true).
Proof.
  intros Hd Hl. unfold shutdown_resume, close, the_loop, SE.bind, SE.modify, SE.ret.
  destruct (dbus s); [| contradiction].
  cbn [loop_set set_capture_open]. rewrite Hl. reflexivity.
Qed.

(** [_shutdown] up to its await: the state is KILLED, every task is
    cancelled, and the handler waits when there was one. *)
Lemma shutdown_begins (s : LSM) :
  exists s1,
    state s1 = PlayerState.KILLED /\ tasks s1 = [] /\ timers s1 = timers s
    /\ dbus s1 = dbus s /\ loop_set s1 = loop_set s /\ stopped s1 = stopped s
    /\ now s1 = now s /\ crashed s1 = crashed s
    /\ playback_handles s1
       = (playback_handles s - List.length (filter in_with_block (tasks s)))%nat
    /\ shutdown s
       = match tasks s with
         | [] => shutdown_resume s1
         | _ :: _ => (Ok (Wait shutdown_wait), s1)
         end.
Proof.
  unfold shutdown, await_gather, SE.bind, SE.get, SE.ret, set_state, gather,
    info, SE.modify.
  cbn [fst snd tasks set_log set_local_state set_dbus dbus log].
  exists (snd ((set_state PlayerState.KILLED ;;; info "Received exit signal" ;;; gather) s)).
  unfold SE.bind, set_state, gather, info, SE.modify.
  cbn [fst snd tasks set_log set_local_state set_dbus dbus log].
  destruct (dbus s) as [st |] eqn:Ed;
    cbn [fst snd tasks set_dbus set_log set_local_state set_handles set_tasks
         state timers dbus loop_set stopped now crashed playback_handles];
    rewrite ?Ed; (repeat (split; [reflexivity |])); destruct (tasks s); reflexivity.
Qed.

(** The exit signal on an opened controller whose [run] has started:
    the state becomes KILLED at once, and when [_shutdown] is the next to
    run after its await (or did not have to wait), the loop is stopped in
    KILLED with no task left. *)
Lemma shutdown_halts probe (s : LSM) (io : ports) :
  stopped s = false -> dbus s <> None -> loop_set s = true ->
  exists s1 s',
    step probe s Shutdown = Some s1
    /\ state s1 = PlayerState.KILLED
    /\ exec probe s
         (Shutdown :: match tasks s with [] => [] | _ :: _ => [Resume 0 io] end)
       = Some s'
    /\ state s' = PlayerState.KILLED
    /\ tasks s' = []
    /\ stopped s' = true.
Proof.
  intros Hs Hd Hl.
  destruct (shutdown_begins s)
    as [s1 [Hk [Hta [Hti [Hd1 [Hl1 [Hs1 [Hn1 [_ [_ E]]]]]]]]]].
  assert (Hr : shutdown_resume s1
               = (Ok Done, set_stopped (set_capture_open s1 false) true))
    by (apply shutdown_resume_stops; [rewrite Hd1; exact Hd | rewrite Hl1; exact Hl]).
  assert (E0 : step probe s Shutdown = Some (settle (shutdown s)))
    by (unfold step; rewrite Hs; reflexivity).
  cbn [exec]. rewrite E0, E.
  destruct (tasks s) as [| t ts].
  - rewrite Hr. cbn [settle]. eexists. eexists.
    split; [reflexivity |]. split; [exact Hk |]. split; [reflexivity |].
    cbn [state tasks stopped set_stopped set_capture_open]. auto.
  - cbn [settle]. eexists. eexists.
    split; [reflexivity |]. split; [exact Hk |].
    cbn [exec].
    rewrite (step_resume probe _ 0 io {| wake_at := now s1; body := shutdown_wait |});
      [ | cbn [stopped set_tasks]; rewrite Hs1; exact Hs
        | cbn [tasks set_tasks]; rewrite Hta; reflexivity
        | unfold ready; cbn [body wake_at now set_tasks]; apply Qle_bool_refl ].
    cbn [body activate tasks set_tasks]. rewrite Hta. cbn [app remove_nth].
    assert (Hr' : shutdown_resume (set_tasks (set_tasks s1 [{| wake_at := now s1; body := shutdown_wait |}]) [])
                  = (Ok Done, set_stopped (set_capture_open (set_tasks (set_tasks s1 [{| wake_at := now s1; body := shutdown_wait |}]) []) false) true))
      by (apply shutdown_resume_stops; cbn [dbus loop_set set_tasks];
          [rewrite Hd1; exact Hd | rewrite Hl1; exact Hl]).
    rewrite Hr'. cbn [settle]. split; [reflexivity |].
    cbn [state tasks stopped set_stopped set_capture_open set_tasks]. auto.
Qed.

(** [_gather] leaves no task, and leaves the timers as they are. *)
Lemma gather_tasks_timers s :
  tasks (snd (gather s)) = [] /\ timers (snd (gather s)) = timers s.
Proof. split; reflexivity. Qed.

(** After a dispatch no task of before is left, but every timer of
    before still is, followed by the timer of the new handler. *)
Lemma dispatch_tasks_timers cmd s :
  let s' := snd (dispatch cmd s) in
  tasks s' = []
  /\ exists t, timers s' = (timers s ++ [t])%list
               /\ target t = snd (manifests (probe_cfg s) cmd).
Proof.
  unfold dispatch, SE.bind, gather, info, set_state, call_later, SE.get, SE.modify.
  destruct cmd; cbn; destruct (dbus s); cbn;
    (split; [reflexivity | eexists; split; reflexivity]).
Qed.

(** One idle-probe cycle, for every configuration: a buffer above high
    adds one to the counter and the state becomes PLAY exactly when the
    counter reaches [start_count]; any other buffer resets the counter. *)
Lemma idle_cycle_above_high probe (io : ports) (c : Z) (s : LSM)
  (b : bytes) (r : CompResult.t) :
  state s = PlayerState.IDLE ->
  capture_read io = Ok b -> probe b = Ok r -> CompResult.high r = true ->
  let res := idle_body probe io c s in
  _buffer (snd res) = b
  /\ ((c + 1 < start_count (probe_cfg s))%Z ->
      state (snd res) = PlayerState.IDLE
      /\ exists d, fst res = Ok (Sleep d (idle (c + 1))))
  /\ ((start_count (probe_cfg s) <= c + 1)%Z ->
      state (snd res) = PlayerState.PLAY
      /\ fst res = Ok (Sleep (stream_interval (probe_cfg s)) (idle_monitor (c + 1)))
      /\ map body (tasks (snd res)) = map body (tasks s) ++ [stream_start]).
Proof.
  intros Hst Hr Hp Hh.
  unfold idle_body, SE.bind, SE.get, SE.lift, SE.modify, SE.ret.
  rewrite Hst, Hr. cbn [PlayerState.eqb]. rewrite Hp, Hh.
  cbn [probe_cfg set_buffer].
  destruct (Z.geb_spec (c + 1) (start_count (probe_cfg s))) as [Hge | Hlt].
  - unfold set_state, create_task, SE.modify. cbn.
    destruct (dbus s); cbn; (split; [reflexivity |]); (split; [lia |]);
      intros _; (split; [reflexivity |]); (split; [reflexivity |]);
      rewrite map_app; reflexivity.
  - destruct (c + 1 >? 0)%Z; cbn; (split; [reflexivity |]);
      (split; [| lia]); intros _; (split; [exact Hst |]); eexists; reflexivity.
Qed.

Lemma idle_cycle_not_above_high probe (io : ports) (c : Z) (s : LSM)
  (b : bytes) (r : CompResult.t) :
  state s = PlayerState.IDLE ->
  capture_read io = Ok b -> probe b = Ok r -> CompResult.high r = false ->
  (0 < start_count (probe_cfg s))%Z ->
  idle_body probe io c s
  = (Ok (Sleep (idle_interval (probe_cfg s)) (idle 0)), set_buffer s b).
Proof.
  intros Hst Hr Hp Hh Hpos.
  unfold idle_body, SE.bind, SE.get, SE.lift, SE.modify, SE.ret.
  rewrite Hst, Hr. cbn [PlayerState.eqb]. rewrite Hp, Hh.
  destruct (Z.geb_spec 0 (start_count (probe_cfg s))) as [Hge | _]; [lia |].
  reflexivity.
Qed.

(** One monitor cycle: a buffer below low adds one to the counter and the
    state returns to IDLE exactly when the counter reaches [stop_count]. *)
Lemma monitor_cycle_below_low probe (c : Z) (s : LSM) (r : CompResult.t) :
  state s = PlayerState.PLAY ->
  probe (_buffer s) = Ok r -> CompResult.low r = true ->
  let res := monitor_body probe c s in
  ((c + 1 < stop_count (probe_cfg s))%Z ->
   state (snd res) = PlayerState.PLAY
   /\ exists d, fst res = Ok (Sleep d (monitor (c + 1))))
  /\ ((stop_count (probe_cfg s) <= c + 1)%Z ->
      state (snd res) = PlayerState.IDLE
      /\ fst res = Ok (Sleep (idle_interval (probe_cfg s)) (monitor_idle (c + 1)))).
Proof.
  intros Hst Hp Hl.
  unfold monitor_body, SE.bind, SE.get, SE.lift, SE.modify, SE.ret.
  rewrite Hst. cbn [PlayerState.eqb]. rewrite Hp, Hl.
  destruct (Z.geb_spec (c + 1) (stop_count (probe_cfg s))) as [Hge | Hlt].
  - unfold set_state, SE.modify. cbn.
    destruct (dbus s); cbn; (split; [lia |]); intros _; split; reflexivity.
  - destruct (c + 1 >? 0)%Z; cbn; (split; [| lia]); intros _;
      (split; [exact Hst |]); eexists; reflexivity.
Qed.

(** A handler whose state has been taken away ends at the head of its
    loop. *)
Lemma idle_ends_outside_idle probe (io : ports) (c : Z) (s : LSM) :
  state s <> PlayerState.IDLE -> idle_body probe io c s = (Ok Done, s).
Proof.
  intros H. unfold idle_body, SE.bind, SE.get, SE.ret.
  destruct (state s); try reflexivity. contradiction.
Qed.

(** Symbolic runs: one scheduler step at a time, each step evaluated and
    the classifications of the buffers filled in from the hypotheses. *)
Ltac use_probes :=
  repeat match goal with
         | H : _ = Ok _ |- _ => rewrite H
         end.

Ltac run_trace :=
  repeat (erewrite exec_step;
          [ | vm_compute; use_probes; vm_compute; reflexivity ]).

(** C2 (as the code has it): the run of the spec on the scheduler, for
    every classifier [probe], every buffer [loud] it classifies above
    high and every buffer [quiet] it classifies below low, with
    start_count = 3 and stop_count = 5.  The controller starts in
    UNKNOWN; the PLAY command that [run] issues first puts it in IDLE; it
    is still IDLE after one and after two idle-probe cycles above high
    and is in PLAY after the third; it is still in PLAY after four
    monitor cycles below low and back in IDLE after the fifth; a STOP
    command in PLAY puts it in HYBERNATE, where the wake-up timer cannot
    fire before hybernate_interval has passed and puts it in IDLE once it
    has.  The exit signal puts an opened controller whose [run] has
    started in KILLED at once, and when [_shutdown] is the next to run
    after its await the loop is stopped in KILLED.  But KILLED is not
    final before that: [_gather] does not cancel timers, so when the
    exit signal comes in HYBERNATE with the wake-up timer due, the timer
    fires during the await of [_shutdown], [_wake] puts the controller
    back in IDLE, and the loop is then stopped in IDLE; and on a
    controller that was never opened [self.close()] raises
    AttributeError, so the loop is not stopped at all. *)
Theorem concrete_run probe (loud quiet : bytes) (rl rq : CompResult.t) :
  probe loud = Ok rl -> CompResult.high rl = true ->
  probe quiet = Ok rq -> CompResult.low rq = true ->
  let up := working_ports loud in
  let down := working_ports quiet in
  let to_idle := [Resume 0 up] in
  let one_cycle := to_idle ++ [Tick (idle_interval run_cfg); Fire 0; Resume 1 up] in
  let two_cycles := one_cycle ++ [Tick (follow_interval run_cfg); Resume 1 up] in
  let to_play := two_cycles ++ [Tick (follow_interval run_cfg); Resume 1 up] in
  let monitor_cycle := [Tick (follow_interval run_cfg); Resume 2 down] in
  let four_cycles :=
    to_play ++ [Resume 1 down; Tick (stream_interval run_cfg); Resume 1 down;
                Resume 2 down] ++ monitor_cycle ++ monitor_cycle ++ monitor_cycle in
  let five_cycles := four_cycles ++ monitor_cycle in
  let to_hibernate := to_play ++ [Command PlayerCommand.STOP; Resume 0 down] in
  let late_exit :=
    to_hibernate ++ [Tick (hybernate_interval run_cfg); Shutdown] in
  let s0 := boot run_cfg in
  state (LoopStateMachine_init run_cfg) = PlayerState.UNKNOWN
  /\ state s0 = PlayerState.UNKNOWN
  /\ state_after probe s0 to_idle = Some PlayerState.IDLE
  /\ state_after probe s0 one_cycle = Some PlayerState.IDLE
  /\ state_after probe s0 two_cycles = Some PlayerState.IDLE
  /\ state_after probe s0 to_play = Some PlayerState.PLAY
  /\ state_after probe s0 four_cycles = Some PlayerState.PLAY
  /\ state_after probe s0 five_cycles = Some PlayerState.IDLE
  /\ state_after probe s0 to_hibernate = Some PlayerState.HYBERNATE
  /\ state_after probe s0 (to_hibernate ++ [Fire 0]) = None
  /\ state_after probe s0
       (to_hibernate ++ [Tick (hybernate_interval run_cfg); Fire 0])
     = Some PlayerState.HYBERNATE
  /\ state_after probe s0
       (to_hibernate ++ [Tick (hybernate_interval run_cfg); Fire 0; Resume 1 down])
     = Some PlayerState.IDLE
  /\ (forall s io, stopped s = false -> dbus s <> None -> loop_set s = true ->
       exists s1 s',
         step probe s Shutdown = Some s1
         /\ state s1 = PlayerState.KILLED
         /\ exec probe s
              (Shutdown :: match tasks s with [] => [] | _ :: _ => [Resume 0 io] end)
            = Some s'
         /\ state s' = PlayerState.KILLED
         /\ stopped s' = true)
  /\ state_after probe s0 late_exit = Some PlayerState.KILLED
  /\ handlers_after probe s0 late_exit = Some ([shutdown_wait], [wake])
  /\ state_after probe s0 (late_exit ++ [Fire 0; Resume 1 down])
     = Some PlayerState.IDLE
  /\ option_map (fun s => (state s, stopped s))
       (exec probe s0 (late_exit ++ [Fire 0; Resume 1 down; Resume 0 down]))
     = Some (PlayerState.IDLE, true)
  /\ option_map (fun s => (state s, stopped s, crashed s))
       (exec probe (LoopStateMachine_init run_cfg) [Shutdown])
     = Some (PlayerState.KILLED, false, [AttributeError]).
Proof.
  intros Pl Hl Pq Hq.
  destruct rl as [l1 h1], rq as [l2 h2]. cbn in Hl, Hq. subst h1 l2.
  cbv zeta. unfold state_after. cbn [app].
  split; [reflexivity |]. split; [reflexivity |].
  split; [run_trace; reflexivity |].
  split; [run_trace; reflexivity |].
  split; [run_trace; reflexivity |].
  split; [run_trace; reflexivity |].
  split; [run_trace; reflexivity |].
  split; [run_trace; reflexivity |].
  split; [run_trace; reflexivity |].
  split; [run_trace; erewrite exec_halt; [reflexivity | vm_compute; reflexivity] |].
  split; [run_trace; reflexivity |].
  split; [run_trace; reflexivity |].
  split.
  { intros s io Hs Hd Hl.
    destruct (shutdown_halts probe s io Hs Hd Hl)
      as [s1 [s' [E1 [Hk1 [E [Hk [_ Hstop]]]]]]].
    exists s1, s'. split; [exact E1 |]. split; [exact Hk1 |].
    split; [exact E |]. split; [exact Hk | exact Hstop]. }
  unfold handlers_after.
  split; [run_trace; reflexivity |].
  split; [run_trace; reflexivity |].
  split; [run_trace; reflexivity |].
  split; [run_trace; reflexivity |].
  run_trace; reflexivity.
Qed.

Lemma concrete_run_witness :
  level_probe [xff%byte] = Ok {| CompResult.low := false; CompResult.high := true |}
  /\ level_probe [x00%byte] = Ok {| CompResult.low := true; CompResult.high := false |}
  /\ (
  let up := working_ports [xff%byte] in
  let down := working_ports [x00%byte] in
  let to_idle := [Resume 0 up] in
  let one_cycle := to_idle ++ [Tick (idle_interval run_cfg); Fire 0; Resume 1 up] in
  let two_cycles := one_cycle ++ [Tick (follow_interval run_cfg); Resume 1 up] in
  let to_play := two_cycles ++ [Tick (follow_interval run_cfg); Resume 1 up] in
  let monitor_cycle := [Tick (follow_interval run_cfg); Resume 2 down] in
  let four_cycles :=
    to_play ++ [Resume 1 down; Tick (stream_interval run_cfg); Resume 1 down;
                Resume 2 down] ++ monitor_cycle ++ monitor_cycle ++ monitor_cycle in
  let five_cycles := four_cycles ++ monitor_cycle in
  let to_hibernate := to_play ++ [Command PlayerCommand.STOP; Resume 0 down] in
  let late_exit :=
    to_hibernate ++ [Tick (hybernate_interval run_cfg); Shutdown] in
  let s0 := boot run_cfg in
  state (LoopStateMachine_init run_cfg) = PlayerState.UNKNOWN
  /\ state s0 = PlayerState.UNKNOWN
  /\ state_after level_probe s0 to_idle = Some PlayerState.IDLE
  /\ state_after level_probe s0 one_cycle = Some PlayerState.IDLE
  /\ state_after level_probe s0 two_cycles = Some PlayerState.IDLE
  /\ state_after level_probe s0 to_play = Some PlayerState.PLAY
  /\ state_after level_probe s0 four_cycles = Some PlayerState.PLAY
  /\ state_after level_probe s0 five_cycles = Some PlayerState.IDLE
  /\ state_after level_probe s0 to_hibernate = Some PlayerState.HYBERNATE
  /\ state_after level_probe s0 (to_hibernate ++ [Fire 0]) = None
  /\ state_after level_probe s0
       (to_hibernate ++ [Tick (hybernate_interval run_cfg); Fire 0])
     = Some PlayerState.HYBERNATE
  /\ state_after level_probe s0
       (to_hibernate ++ [Tick (hybernate_interval run_cfg); Fire 0; Resume 1 down])
     = Some PlayerState.IDLE
  /\ (forall s io, stopped s = false -> dbus s <> None -> loop_set s = true ->
       exists s1 s',
         step level_probe s Shutdown = Some s1
         /\ state s1 = PlayerState.KILLED
         /\ exec level_probe s
              (Shutdown :: match tasks s with [] => [] | _ :: _ => [Resume 0 io] end)
            = Some s'
         /\ state s' = PlayerState.KILLED
         /\ stopped s' = true)
  /\ state_after level_probe s0 late_exit = Some PlayerState.KILLED
  /\ handlers_after level_probe s0 late_exit = Some ([shutdown_wait], [wake])
  /\ state_after level_probe s0 (late_exit ++ [Fire 0; Resume 1 down])
     = Some PlayerState.IDLE
  /\ option_map (fun s => (state s, stopped s))
       (exec level_probe s0 (late_exit ++ [Fire 0; Resume 1 down; Resume 0 down]))
     = Some (PlayerState.IDLE, true)
  /\ option_map (fun s => (state s, stopped s, crashed s))
       (exec level_probe (LoopStateMachine_init run_cfg) [Shutdown])
     = Some (PlayerState.KILLED, false, [AttributeError])).
Proof.
  split; [reflexivity |]. split; [reflexivity |].
  apply (concrete_run level_probe [xff%byte] [x00%byte]
           {| CompResult.low := false; CompResult.high := true |}
           {| CompResult.low := true; CompResult.high := false |});
    reflexivity.
Defined.

(** C3 (as the code has it): [_gather] cancels the tasks, but a handler
    scheduled with [call_later] is a timer, not a task, until it fires.
    When a second PLAY is dispatched before the [_idle] of the first has
    started, the timer of the first dispatch is still pending after the
    second, both timers fire, and two [_idle] chains run side by side. *)
Theorem stale_timer_second_chain probe (quiet : bytes) (rq : CompResult.t) :
  probe quiet = Ok rq -> CompResult.high rq = false ->
  let io := working_ports quiet in
  let first := [Resume 0 io] in
  let second := first ++ [Tick (1 # 10); Command PlayerCommand.PLAY; Resume 0 io] in
  let both := second ++ [Tick (15 # 100); Fire 0; Resume 1 io;
                         Tick (1 # 10); Fire 0; Resume 2 io] in
  handlers_after probe (boot run_cfg) first = Some ([run_get], [idle 0])
  /\ handlers_after probe (boot run_cfg) second = Some ([run_get], [idle 0; idle 0])
  /\ handlers_after probe (boot run_cfg) both = Some ([run_get; idle 0; idle 0], [])
  /\ state_after probe (boot run_cfg) both = Some PlayerState.IDLE.
Proof.
  intros Pq Hq. destruct rq as [l h]. cbn in Hq. subst h.
  cbv zeta. unfold handlers_after, state_after. cbn [app].
  repeat split; run_trace; reflexivity.
Qed.

Lemma stale_timer_second_chain_witness :
  level_probe [x7f%byte] = Ok {| CompResult.low := false; CompResult.high := false |}
  /\ (
  let io := working_ports [x7f%byte] in
  let first := [Resume 0 io] in
  let second := first ++ [Tick (1 # 10); Command PlayerCommand.PLAY; Resume 0 io] in
  let both := second ++ [Tick (15 # 100); Fire 0; Resume 1 io;
                         Tick (1 # 10); Fire 0; Resume 2 io] in
  handlers_after level_probe (boot run_cfg) first = Some ([run_get], [idle 0])
  /\ handlers_after level_probe (boot run_cfg) second = Some ([run_get], [idle 0; idle 0])
  /\ handlers_after level_probe (boot run_cfg) both = Some ([run_get; idle 0; idle 0], [])
  /\ state_after level_probe (boot run_cfg) both = Some PlayerState.IDLE).
Proof.
  split; [reflexivity |].
  apply (stale_timer_second_chain level_probe [x7f%byte]
           {| CompResult.low := false; CompResult.high := false |});
    reflexivity.
Defined.

(** An ALSAAudioError raised by a device call of [_stream] ends the
    activation normally: it is caught, logged, and STOP is put on the
    queue; nothing else of the controller changes but the log and the
    device handle. *)
Lemma stream_fault_caught probe (c : coro) (io : ports) (s : LSM) :
  device_fault c io s = Some ALSAAudioError ->
  exists s',
    activate probe c io s = (Ok Done, s')
    /\ rxq s' = rxq s ++ [PlayerCommand.STOP]
    /\ In "Error opening playback device"%string (log s')
    /\ tasks s' = tasks s /\ timers s' = timers s
    /\ crashed s' = crashed s /\ stopped s' = stopped s
    /\ state s' = state s
    /\ playback_handles s'
       = (playback_handles s - (match c with stream_loop => 1 | _ => 0 end))%nat.
Proof.
  intros Hf.
  destruct c; try discriminate Hf; cbn [device_fault] in Hf.
  - (* [_stream] from its start *)
    unfold activate, stream_begin, stream_except, stream_scope, playback_enter,
      stream_turn, info, SE.bind, SE.try_catch, SE.with_exit, SE.lift, SE.get,
      SE.modify, SE.ret, playback_exit.
    cbn [fst snd log set_log].
    destruct (playback_open io) as [[] | e] eqn:Eopen.
    + cbn [_buffer set_handles set_log] in *.
      destruct (playback_write io 0 (_buffer s)) as [w | e] eqn:Ew.
      * unfold turn_fault in Hf. cbn [state set_handles set_log set_buffer].
        destruct (PlayerState.eqb (state s) PlayerState.PLAY); [| discriminate Hf].
        destruct (capture_read io) as [b | e] eqn:Er.
        -- destruct (playback_write io 1 b) as [w' | e] eqn:Ew'; [discriminate Hf |].
           injection Hf as ->. cbn. eexists. split; [reflexivity |].
           cbn. repeat split; try lia. rewrite !in_app_iff; cbn [In]; auto 10.
        -- injection Hf as ->. cbn. eexists. split; [reflexivity |].
           cbn. repeat split; try lia. rewrite !in_app_iff; cbn [In]; auto 10.
      * injection Hf as ->. cbn. eexists. split; [reflexivity |].
        cbn. repeat split; try lia. rewrite !in_app_iff; cbn [In]; auto 10.
    + injection Hf as ->. cbn. eexists. split; [reflexivity |].
      cbn. repeat split; try lia. rewrite !in_app_iff; cbn [In]; auto 10.
  - (* [_stream] resumed in its loop *)
    unfold activate, stream_resume, stream_except, stream_scope,
      stream_turn, info, SE.bind, SE.try_catch, SE.with_exit, SE.lift, SE.get,
      SE.modify, SE.ret, playback_exit.
    unfold turn_fault in Hf.
    destruct (PlayerState.eqb (state s) PlayerState.PLAY); [| discriminate Hf].
    destruct (capture_read io) as [b | e] eqn:Er.
    + cbn [state set_buffer _buffer].
      destruct (playback_write io 0 b) as [w' | e] eqn:Ew'; [discriminate Hf |].
      injection Hf as ->. cbn. eexists. split; [reflexivity |].
      cbn. repeat split; try lia. rewrite !in_app_iff; cbn [In]; auto 10.
    + injection Hf as ->. cbn. eexists. split; [reflexivity |].
      cbn. repeat split; try lia. rewrite !in_app_iff; cbn [In]; auto 10.
Qed.

(** Any other exception of a device call is not caught by [_stream]: it
    ends the task. *)
Lemma stream_open_other_exception probe (io : ports) (s : LSM) (e : exn) :
  playback_open io = Raise e -> e <> ALSAAudioError ->
  fst (activate probe stream_start io s) = Raise e.
Proof.
  intros Eopen Hne.
  unfold activate, stream_begin, stream_except, stream_scope, playback_enter,
    info, SE.bind, SE.try_catch, SE.lift, SE.modify.
  rewrite Eopen. cbn. destruct e; try reflexivity. contradiction.
Qed.

(** C8: when a device call of the stream handler raises ALSAAudioError
    (the playback device cannot be opened, or a read or write fails while
    streaming), the activation of the handler is a normal step of the
    scheduler: the error is logged, STOP is appended to the command
    queue, no exception ends the task ([crashed] is unchanged), the other
    tasks, among them [run], are as they were, and the loop keeps
    running. *)
Theorem stream_fault_becomes_stop probe (s : LSM) (i : nat) (t : task) (io : ports) :
  stopped s = false ->
  nth_error (tasks s) i = Some t ->
  ready s t = true ->
  device_fault (body t) io s = Some ALSAAudioError ->
  exists s',
    step probe s (Resume i io) = Some s'
    /\ rxq s' = rxq s ++ [PlayerCommand.STOP]
    /\ In "Error opening playback device"%string (log s')
    /\ crashed s' = crashed s
    /\ tasks s' = remove_nth i (tasks s)
    /\ timers s' = timers s
    /\ stopped s' = false
    /\ state s' = state s
    /\ playback_handles s'
       = (playback_handles s - (match body t with stream_loop => 1 | _ => 0 end))%nat.
Proof.
  intros Hs Ht Hr Hf.
  assert (Hf' : device_fault (body t) io (set_tasks s (remove_nth i (tasks s)))
                = Some ALSAAudioError)
    by (rewrite <- Hf; destruct (body t); reflexivity).
  destruct (stream_fault_caught probe _ _ _ Hf')
    as [s' [E [Hq [Hlog [Htasks [Htimers [Hcr [Hst [Hstate Hh]]]]]]]]].
  exists s'. unfold step. rewrite Hs, Ht, Hr, E. cbn [settle].
  split; [reflexivity |].
  repeat split; try assumption.
  rewrite Hst. exact Hs.
Qed.

Lemma stream_fault_becomes_stop_witness :
  exists s',
    step level_probe playing (Resume 1 (no_playback [x00%byte])) = Some s'
    /\ rxq s' = rxq playing ++ [PlayerCommand.STOP]
    /\ In "Error opening playback device"%string (log s')
    /\ crashed s' = crashed playing
    /\ tasks s' = remove_nth 1 (tasks playing)
    /\ timers s' = timers playing
    /\ stopped s' = false
    /\ state s' = state playing
    /\ playback_handles s' = (playback_handles playing - 0)%nat.
Proof.
  apply (stream_fault_becomes_stop level_probe playing 1
           {| wake_at := 0; body := stream_start |} (no_playback [x00%byte]));
    reflexivity.
Defined.

(** After the fault the control loop takes the STOP it was sent: the
    controller hibernates. *)
Lemma stream_fault_then_hibernate :
  state_after level_probe playing
    [Resume 1 (no_playback [x00%byte]); Resume 0 (no_playback [x00%byte])]
  = Some PlayerState.HYBERNATE.
Proof. vm_compute. reflexivity. Qed.

End LoopFacts.

(** ** usbloop.py: exceptions inside a device's [with] block *)

Section UsbFacts.
Import Py MemScope.

(** Whatever the body of the [with] block does, leaving it raises
    nothing: [__exit__] closes the device and answers True. *)
Lemma with_exit_never_raises (A : Type) (body : Usb.M A) (s : Usb.FSM) :
  exists o s',
    SE.with_exit Usb.AlsaDevice_exit body s = (Ok o, s')
    /\ Usb.handles s' = (Usb.handles (snd (body s)) - 1)%nat
    /\ (forall e, fst (body s) = Raise e -> o = None)
    /\ (forall a, fst (body s) = Ok a -> o = Some a).
Proof.
  unfold SE.with_exit, Usb.AlsaDevice_exit, SE.bind, SE.modify, SE.ret.
  destruct (body s) as [[a | e] s1]; cbn; eexists; eexists;
    (split; [reflexivity |]); (split; [reflexivity |]);
    split; intros x Hx; congruence.
Qed.

(** C10: in usbloop.py [AlsaDevice.__exit__] returns True, so with the
    device opened, a [with] block over it ends normally whatever its body
    raises, the result of a raising body being dropped; in particular
    [FSM.stream] returns normally for every outcome of its playback
    write (and of the ill-typed [await] that follows it), with the device
    closed, nothing raised and nothing recorded but the two log lines. *)
Theorem exit_true_suppresses (A : Type) (body : Usb.M A) (io : Loop.ports)
  (s : Usb.FSM) :
  Loop.playback_open io = Ok tt ->
  (exists o s',
     Usb.with_device (Loop.playback_open io) body s = (Ok o, s')
     /\ (forall e,
           fst (body (Usb.set_handles s (S (Usb.handles s)))) = Raise e ->
           o = None))
  /\ (exists s',
        Usb.stream io s = (Ok tt, s')
        /\ Usb.handles s' = Usb.handles s
        /\ Usb.log s' = Usb.log s ++ ["start looping"%string; "close playback"%string]
        /\ Usb.is_streaming s' = Usb.is_streaming s
        /\ Usb.counter s' = Usb.counter s).
Proof.
  intros Hopen. split.
  - unfold Usb.with_device, SE.with_stmt, Usb.AlsaDevice_enter, SE.bind at 1 2,
      SE.lift, SE.modify.
    rewrite Hopen. cbn [fst snd].
    destruct (with_exit_never_raises A body (Usb.set_handles s (S (Usb.handles s))))
      as [o [s' [E [_ [Hnone _]]]]].
    exists o, s'. split; [exact E | exact Hnone].
  - unfold Usb.stream, Usb.with_device, SE.with_stmt, Usb.AlsaDevice_enter,
      Usb.AlsaDevice_exit, Usb.await_plain, Usb.info, SE.with_exit, SE.bind,
      SE.lift, SE.modify, SE.get, SE.ret, SE.raise.
    rewrite Hopen. cbn.
    destruct (Loop.playback_write io 0 (Usb.buffer s)) as [w | e]; cbn;
      eexists; (split; [reflexivity |]); cbn;
      (repeat split; try lia); rewrite <- app_assoc; reflexivity.
Qed.

Lemma exit_true_suppresses_witness :
  let s := {| Usb.counter := 0; Usb.is_streaming := true;
              Usb.buffer := [x01%byte]; Usb.handles := 0; Usb.log := [] |} in
  let io := {| Loop.capture_read := Ok [x02%byte];
               Loop.playback_open := Ok tt;
               Loop.playback_write := fun _ _ => Raise ALSAAudioError |} in
  let body : Usb.M Z := SE.lift (Loop.playback_write io 0 [x01%byte]) in
  Loop.playback_open io = Ok tt
  /\ (exists o s',
        Usb.with_device (Loop.playback_open io) body s = (Ok o, s')
        /\ (forall e,
              fst (body (Usb.set_handles s (S (Usb.handles s)))) = Raise e ->
              o = None))
  /\ (exists s',
        Usb.stream io s = (Ok tt, s')
        /\ Usb.handles s' = Usb.handles s
        /\ Usb.log s' = Usb.log s ++ ["start looping"%string; "close playback"%string]
        /\ Usb.is_streaming s' = Usb.is_streaming s
        /\ Usb.counter s' = Usb.counter s).
Proof.
  cbv zeta. split; [reflexivity |].
  apply (exit_true_suppresses Z
           (SE.lift (Raise ALSAAudioError))
           {| Loop.capture_read := Ok [x02%byte];
              Loop.playback_open := Ok tt;
              Loop.playback_write := fun _ _ => Raise ALSAAudioError |}
           {| Usb.counter := 0; Usb.is_streaming := true;
              Usb.buffer := [x01%byte]; Usb.handles := 0; Usb.log := [] |}).
  reflexivity.
Defined.

(** Opening the device happens in [__enter__], outside the protection of
    [__exit__]: its exception leaves [FSM.stream]. *)
Lemma usb_open_failure_propagates (io : Loop.ports) (s : Usb.FSM) (e : exn) :
  Loop.playback_open io = Raise e -> fst (Usb.stream io s) = Raise e.
Proof.
  intros Hopen.
  unfold Usb.stream, Usb.with_device, SE.with_stmt, Usb.AlsaDevice_enter,
    Usb.info, SE.bind, SE.lift, SE.modify.
  rewrite Hopen. reflexivity.
Qed.

End UsbFacts.

(** ** Device ports *)

Section DeviceFacts.
Import Py MemScope Device.

(** The device [_pick] returns is 'default' or one of the listed ones; it
    is the requested name whenever that is 'default' or listed. *)
Theorem pick_default_or_listed (pcms : list string) (name : string) :
  (_pick pcms name = "default"%string \/ In (_pick pcms name) pcms)
  /\ (name = "default"%string \/ In name pcms -> _pick pcms name = name)
  /\ (_pick pcms name <> name ->
      _pick pcms name = "default"%string
      \/ contains "sysdefault:CARD"%string (_pick pcms name) = true).
Proof.
  unfold _pick, listed.
  destruct (String.eqb_spec name "default"%string) as [-> | Hne]; cbn [orb].
  - repeat split; auto; try (intros H; contradiction).
  - destruct (existsb (String.eqb name) pcms) eqn:Ex.
    + apply existsb_exists in Ex. destruct Ex as [x [Hin Hx]].
      apply String.eqb_eq in Hx. subst x.
      repeat split; auto; try (intros H; contradiction).
    + assert (Hnot : ~ In name pcms).
      { intros Hin. assert (existsb (String.eqb name) pcms = true).
        { apply existsb_exists. exists name. split; [exact Hin | apply String.eqb_refl]. }
        congruence. }
      destruct (filter (contains "sysdefault:CARD"%string) pcms) as [| n l] eqn:Ef.
      * repeat split; auto; try (intros [H | H]; contradiction).
      * assert (Hn : In n (filter (contains "sysdefault:CARD"%string) pcms))
          by (rewrite Ef; left; reflexivity).
        apply filter_In in Hn. destruct Hn as [Hin Hc].
        repeat split; auto; try (intros [H | H]; contradiction).
Qed.

(** [CaptureDevice.read] returns exactly when some answer has positive
    length: it returns the data of the first such answer, after one
    warning for each answer before it. *)
Theorem read_first_positive (answers : list (Z * bytes)) (d : bytes)
  (ws : list read_warning) (rest : list (Z * bytes)) :
  read answers = Some (d, ws, rest)
  <-> exists skipped len,
        answers = skipped ++ (len, d) :: rest
        /\ Forall (fun a => (fst a <= 0)%Z) skipped
        /\ (0 < len)%Z
        /\ ws = map (fun a => warning_of (fst a)) skipped.
Proof.
  revert ws. induction answers as [| [len0 d0] answers IH]; intros ws; cbn [read].
  - split; [discriminate |].
    intros [skipped [len [E _]]]. destruct skipped; discriminate E.
  - destruct (Z.gtb_spec len0 0) as [Hpos | Hle].
    + split.
      * intros H. injection H as <- <- <-.
        exists [], len0. repeat split; [constructor | lia].
      * intros [skipped [len [E [Hall [Hlen ->]]]]].
        destruct skipped as [| a skipped].
        -- cbn in E. injection E as <- <- <-. reflexivity.
        -- cbn in E. injection E as <- _. inversion Hall; subst. cbn in *. lia.
    + split.
      * destruct (read answers) as [[[d1 ws1] rest1] |] eqn:Er; [| discriminate].
        intros H. injection H as <- <- <-.
        destruct (proj1 (IH ws1) eq_refl) as [skipped [len [E [Hall [Hlen ->]]]]].
        exists ((len0, d0) :: skipped), len. subst answers.
        repeat split; [constructor; [cbn; lia | exact Hall] | exact Hlen].
      * intros [skipped [len [E [Hall [Hlen ->]]]]].
        destruct skipped as [| a skipped].
        -- cbn in E. injection E as -> _ _. lia.
        -- cbn in E. injection E as <- ->. inversion Hall; subst.
           assert (Hr : read (skipped ++ (len, d) :: rest)
                        = Some (d, map (fun a => warning_of (fst a)) skipped, rest)).
           { apply IH. exists skipped, len. repeat split; assumption. }
           rewrite Hr. reflexivity.
Qed.

(** [PlaybackDevice.write] never returns 0: what it returns is the first
    count that is not 0, a negative count included, after one warning
    for each 0 before it. *)
Theorem write_first_nonzero (counts : list Z) (w : Z) (n : nat) (rest : list Z) :
  write counts = Some (w, n, rest)
  <-> counts = repeat 0%Z n ++ w :: rest /\ w <> 0%Z.
Proof.
  revert n. induction counts as [| c counts IH]; intros n; cbn [write].
  - split; [discriminate |]. intros [E _]. destruct n; discriminate E.
  - destruct (Z.eqb_spec c 0) as [-> | Hne].
    + split.
      * destruct (write counts) as [[[w1 n1] rest1] |] eqn:Ew; [| discriminate].
        intros H. injection H as <- <- <-.
        destruct (proj1 (IH n1) eq_refl) as [E Hw].
        split; [cbn; f_equal; exact E | exact Hw].
      * intros [E Hw]. destruct n as [| n]; cbn in E.
        -- injection E as <- _. contradiction.
        -- injection E as E.
           assert (Hr : write counts = Some (w, n, rest)) by (apply IH; split; assumption).
           rewrite Hr. reflexivity.
    + split.
      * intros H. injection H as <- <- <-. split; [reflexivity | exact Hne].
      * intros [E Hw]. destruct n as [| n]; cbn in E.
        -- injection E as <- <-. reflexivity.
        -- injection E as -> _. contradiction.
Qed.

End DeviceFacts.

(** ** The format grammar *)

Section GrammarFacts.
Import Py Re Format Grammar.
Local Open Scope nat_scope.















(** A format string the pattern matches still fails to construct when
    the rate is 0 (ZeroDivisionError, raised first) or, the period time
    being within the range of a float, when its digits denote 0
    (ValueError of the negative shift count); no warning is issued in
    either case. *)
Theorem matched_format_errors (pcm fmt sign bits : string) (e : option string)
  (sg : bool) (channels rate period_frames : Z) :
  fmt_matcher fmt = Some (sign, bits, e) -> is_signed sign = Ok sg ->
  (rate = 0%Z ->
   AlsaDeviceConfig_init pcm fmt channels rate period_frames
   = ([], Raise ZeroDivisionError))
  /\ (rate <> 0%Z -> float_quotient period_frames rate ->
      (int_of_digits bits < 1)%Z ->
      AlsaDeviceConfig_init pcm fmt channels rate period_frames
      = ([], Raise ValueError)).
Proof.
  intros Hm Hsg.
  unfold AlsaDeviceConfig_init, init_branch. rewrite Hm, Hsg.
  cbn [bind l_warnings]. unfold init_fields, truediv, lshift.
  split.
  - intros ->. reflexivity.
  - intros Hrate _ Hbits.
    destruct (Z.eqb_spec rate 0) as [E | _]; [contradiction |].
    cbn [bind load_local l_bits].
    destruct (Z.ltb_spec (int_of_digits bits - 1) 0) as [_ | Hpos]; [reflexivity | lia].
Qed.

Lemma matched_format_errors_witness :
  fmt_matcher "PCM_FORMAT_S0_LE" = Some ("S"%string, "0"%string, Some "LE"%string)
  /\ fmt_matcher "PCM_FORMAT_S16_LE" = Some ("S"%string, "16"%string, Some "LE"%string)
  /\ is_signed "S" = Ok true
  /\ float_quotient 1024 48000
  /\ (int_of_digits "0" < 1)%Z
  /\ AlsaDeviceConfig_init "default" "PCM_FORMAT_S16_LE" 2 0 1024
     = ([], Raise ZeroDivisionError)
  /\ AlsaDeviceConfig_init "default" "PCM_FORMAT_S0_LE" 2 48000 1024
     = ([], Raise ValueError).
Proof.
  split; [reflexivity |]. split; [reflexivity |]. split; [reflexivity |].
  split; [unfold float_quotient; vm_compute; reflexivity |].
  split; [reflexivity |]. split.
  - apply (proj1 (matched_format_errors "default" "PCM_FORMAT_S16_LE" "S" "16"
                    (Some "LE"%string) true 2 0 1024 eq_refl eq_refl)).
    reflexivity.
  - apply (proj2 (matched_format_errors "default" "PCM_FORMAT_S0_LE" "S" "0"
                    (Some "LE"%string) true 2 48000 1024 eq_refl eq_refl)).
    + discriminate.
    + unfold float_quotient. vm_compute. reflexivity.
    + reflexivity.
Defined.

(** On every format string the pattern matches, the constructor of
    usbloop.py computes what the constructor of alsaloop.py computes,
    the same descriptor or the same exception. *)
Theorem StreamMeta_agrees (fmt : string) (channels rate period_frames : Z) :
  fmt_matcher fmt <> None ->
  StreamMeta_init fmt channels rate period_frames
  = snd (AlsaDeviceConfig_init "" fmt channels rate period_frames).
Proof.
  intros Hm. unfold StreamMeta_init, AlsaDeviceConfig_init, init_branch.
  destruct (fmt_matcher fmt) as [[[sign bits] e] |]; [| contradiction].
  destruct (is_signed sign) as [sg | x]; cbn [bind snd]; [| reflexivity].
  unfold init_fields.
  destruct (truediv period_frames rate) as [pt | x]; cbn [bind load_local l_bits];
    [| reflexivity].
  destruct (lshift 1 (int_of_digits bits - 1)) as [ma | x]; reflexivity.
Qed.

Lemma StreamMeta_agrees_witness :
  fmt_matcher "PCM_FORMAT_U32_BE" <> None
  /\ StreamMeta_init "PCM_FORMAT_U32_BE" 2 48000 1024
     = snd (AlsaDeviceConfig_init "" "PCM_FORMAT_U32_BE" 2 48000 1024).
Proof.
  split; [discriminate |].
  apply (StreamMeta_agrees "PCM_FORMAT_U32_BE" 2 48000 1024). discriminate.
Defined.

End GrammarFacts.

(** ** Sample decoder: construction, values and restart *)

Section ScopeFacts.
Import Py Format MemScope Scope.
Local Open Scope Z_scope.

Lemma byte_val_range (b : byte) : 0 <= byte_val b < 256.
Proof. destruct b; cbn; lia. Qed.

Lemma top_bit_set (b : byte) :
  Z.testbit (byte_val b) 7 = (128 <=? byte_val b).
Proof. destruct b; reflexivity. Qed.

(** [MemScope] can be constructed exactly for the sample sizes 1 to 4:
    any other size is a KeyError of the [struct_t] lookup. *)
Theorem MemScope_sizes (data : bytes) (cfg : AlsaDeviceConfig) :
  endian cfg = None \/ endian cfg = Some "LE"%string \/ endian cfg = Some "BE"%string ->
  (1 <= size cfg <= 4 ->
   exists ms, MemScope_init data cfg = Ok ms
              /\ dev_cfg ms = cfg
              /\ buffer ms = BytesIO_new data
              /\ List.length (st_codes (struct_ ms)) = Z.to_nat (channels cfg))
  /\ (~ (1 <= size cfg <= 4) -> MemScope_init data cfg = Raise KeyError).
Proof.
  intros He.
  assert (Ho : exists o, endian_t (endian cfg) = Ok o)
    by (destruct He as [-> | [-> | ->]]; eexists; reflexivity).
  destruct Ho as [o Ho]. unfold MemScope_init, _struct_str. rewrite Ho. cbn [bind].
  split.
  - intros Hsz.
    assert (Hc : exists c, struct_t (signed cfg) (size cfg) = Ok c).
    { assert (H : size cfg = 1 \/ size cfg = 2 \/ size cfg = 3 \/ size cfg = 4) by lia.
      destruct (signed cfg); destruct H as [-> | [-> | [-> | ->]]]; eexists; reflexivity. }
    destruct Hc as [c Hc]. rewrite Hc. cbn [bind].
    eexists. split; [reflexivity |]. cbn. rewrite repeat_length. repeat split.
  - intros Hsz.
    assert (Hc : struct_t (signed cfg) (size cfg) = Raise KeyError).
    { destruct (signed cfg);
        destruct (size cfg) as [| [[|[]|]|[|[]|]|] |]; try reflexivity; lia. }
    rewrite Hc. reflexivity.
Qed.

Lemma MemScope_sizes_witness :
  let cfg := {| pcm_name := "default"; format := "PCM_FORMAT_S64_LE"; size := 8;
                signed := true; endian := Some "LE"%string; channels := 2;
                rate := 48000; frame_size := 16; period_size := 1024;
                period_time := 1024 # 48000; maxamp := 2 ^ 63; reference := 0 |} in
  (endian cfg = None \/ endian cfg = Some "LE"%string \/ endian cfg = Some "BE"%string)
  /\ (1 <= size cfg <= 4 ->
      exists ms, MemScope_init [x00%byte] cfg = Ok ms
                 /\ dev_cfg ms = cfg
                 /\ buffer ms = BytesIO_new [x00%byte]
                 /\ List.length (st_codes (struct_ ms)) = Z.to_nat (channels cfg))
  /\ (~ (1 <= size cfg <= 4) -> MemScope_init [x00%byte] cfg = Raise KeyError).
Proof.
  cbv zeta. split; [right; left; reflexivity |].
  apply (MemScope_sizes [x00%byte]
           {| pcm_name := "default"; format := "PCM_FORMAT_S64_LE"; size := 8;
              signed := true; endian := Some "LE"%string; channels := 2;
              rate := 48000; frame_size := 16; period_size := 1024;
              period_time := 1024 # 48000; maxamp := 2 ^ 63; reference := 0 |}).
  right; left; reflexivity.
Defined.

Lemma le_uint_3 (b0 b1 b2 : byte) :
  le_uint [b0; b1; b2] = byte_val b0 + 256 * byte_val b1 + 65536 * byte_val b2.
Proof. unfold le_uint. cbn [fold_right]. lia. Qed.

Lemma le_uint_4 (b0 b1 b2 b3 : byte) :
  le_uint [b0; b1; b2; b3]
  = byte_val b0 + 256 * byte_val b1 + 65536 * byte_val b2 + 16777216 * byte_val b3.
Proof. unfold le_uint. cbn [fold_right]. lia. Qed.

Ltac byte_ranges :=
  repeat match goal with
         | b : byte |- _ =>
             lazymatch goal with
             | _ : 0 <= byte_val b < 256 |- _ => fail
             | _ => pose proof (byte_val_range b)
             end
         end.

Lemma next_one_field (ms : MemScope) (x y : bytes) (b' : BytesIO)
  (f : list pyval) :
  Z.to_nat (channels (dev_cfg ms)) = 1%nat ->
  read (buffer ms) (size (dev_cfg ms)) = (x, b') ->
  padding ms x = Ok y ->
  unpack (struct_ ms) y = Ok f ->
  next ms = (Ok f, MemScope.set_buffer ms b').
Proof.
  intros Hch Hread Hpad Hun. unfold next. rewrite Hch. cbn [read_channels].
  rewrite Hread, Hpad. cbn [app bind]. rewrite Hun. reflexivity.
Qed.

(** A decoder of a supported format with nothing left to read yields no
    frame. *)
Lemma drain_exhausted (ms : MemScope) (o : byte_order) (c : code) (n : nat)
  (fuel : nat) :
  scope_for ms o c n ->
  (0 < Z.to_nat (size (dev_cfg ms)))%nat -> (0 < n)%nat ->
  remaining (buffer ms) = 0%nat ->
  drain (S fuel) ms = Some (Ok []).
Proof.
  intros Hwf Hsz Hn Hrem.
  destruct (drain_frames o c n 0 (S fuel) ms 0 Hwf Hsz) as [frames [E [Hlen _]]];
    [rewrite Hrem; lia | nia | lia |].
  destruct frames; [exact E | discriminate Hlen].
Qed.

Lemma drain_cons (fuel : nat) (ms ms' : MemScope) (f : list pyval)
  (fs : list (list pyval)) :
  next ms = (Ok f, ms') ->
  drain fuel ms' = Some (Ok fs) ->
  drain (S fuel) ms = Some (Ok (f :: fs)).
Proof. intros Hn Hd. cbn [drain]. rewrite Hn, Hd. reflexivity. Qed.

Ltac signed_cases :=
  unfold to_signed;
  change (2 ^ (32 - 1)) with 2147483648; change (2 ^ 32) with 4294967296;
  change (2 ^ (24 - 1)) with 8388608; change (2 ^ 24) with 16777216;
  repeat match goal with
         | |- context [?a <? ?b] => destruct (Z.ltb_spec a b)
         | |- context [?a <=? ?b] => destruct (Z.leb_spec a b)
         end.

(** A 3-byte little-endian field decodes to its 24-bit value: the
    unsigned value for an unsigned format, the two's complement value for
    a signed one. *)
Theorem decode_24_bit_LE (cfg : AlsaDeviceConfig) (b0 b1 b2 : byte) :
  size cfg = 3 -> endian cfg = Some "LE"%string -> channels cfg = 1 ->
  decode [b0; b1; b2] cfg
  = Some (Ok [[PyInt (if signed cfg
                      then to_signed 24 (le_uint [b0; b1; b2])
                      else le_uint [b0; b1; b2])]]).
Proof.
  intros Hsz He Hch. destruct cfg as [pn fm sz sg en ch rt fs ps pt ma rf].
  cbn [size endian channels signed] in *. subst sz en ch.
  unfold decode, MemScope_init, _struct_str.
  cbn [endian_t String.eqb Ascii.eqb Bool.eqb bind endian signed size channels].
  destruct sg; cbn [struct_t bind List.length].
  - pose proof (padding_of_spec true 3 "LE" c_i eq_refl (or_introl eq_refl)) as Hpad.
    erewrite drain_cons;
      [ | eapply (next_one_field _ [b0; b1; b2]);
          [ reflexivity | reflexivity
          | cbn [iter padding MemScope.set_buffer]; unfold padding_of, padding_t;
            cbn [String.eqb Ascii.eqb Bool.eqb]; rewrite sign_fill_3; reflexivity
          | reflexivity ]
        | eapply drain_exhausted;
          [ split; [reflexivity | split; [reflexivity | split; [cbn; lia | exact Hpad]]]
          | cbn; lia | cbn; lia | reflexivity ] ].
    change (Z.to_nat 1) with 1%nat.
    cbn [iter struct_ st_order st_codes MemScope.set_buffer repeat
         unpack_items unpack_item firstn skipn code_size app].
    apply (f_equal (fun v => Some (Ok [[PyInt v]]))).
    rewrite top_bit_set, ?le_uint_4, ?le_uint_3; byte_ranges.
    destruct (Z.leb_spec 128 (byte_val b2));
      [change (byte_val xff) with 255 | change (byte_val x00) with 0];
      signed_cases; lia.
  - pose proof (padding_of_spec false 3 "LE" c_I eq_refl (or_introl eq_refl)) as Hpad.
    erewrite drain_cons;
      [ | eapply (next_one_field _ [b0; b1; b2]); reflexivity
        | eapply drain_exhausted;
          [ split; [reflexivity | split; [reflexivity | split; [cbn; lia | exact Hpad]]]
          | cbn; lia | cbn; lia | reflexivity ] ].
    change (Z.to_nat 1) with 1%nat.
    cbn [iter struct_ st_order st_codes MemScope.set_buffer repeat
         unpack_items unpack_item firstn skipn code_size app].
    apply (f_equal (fun v => Some (Ok [[PyInt v]]))).
    rewrite ?le_uint_4, ?le_uint_3. change (byte_val x00) with 0. lia.
Qed.

Lemma decode_24_bit_LE_witness :
  let cfg := {| pcm_name := "default"; format := "PCM_FORMAT_S24_LE"; size := 3;
                signed := true; endian := Some "LE"%string; channels := 1;
                rate := 48000; frame_size := 3; period_size := 1024;
                period_time := 1024 # 48000; maxamp := 8388608; reference := 0 |} in
  size cfg = 3
  /\ decode [xfe; xff; xff]%byte cfg
     = Some (Ok [[PyInt (to_signed 24 (le_uint [xfe; xff; xff]%byte))]])
  /\ to_signed 24 (le_uint [xfe; xff; xff]%byte) = -2.
Proof.
  cbv zeta. split; [reflexivity |]. split; [| reflexivity].
  apply (decode_24_bit_LE
           {| pcm_name := "default"; format := "PCM_FORMAT_S24_LE"; size := 3;
              signed := true; endian := Some "LE"%string; channels := 1;
              rate := 48000; frame_size := 3; period_size := 1024;
              period_time := 1024 # 48000; maxamp := 8388608; reference := 0 |}
           xfe xff xff)%byte; reflexivity.
Defined.

(** A signed 3-byte big-endian field is extended by the top bit of its
    last byte, the least significant one: the value decoded is the
    unsigned 24-bit value, less 2^24 when that bit is set, which is the
    two's complement value of the field exactly when the top bits of its
    first and last byte agree. *)
Theorem decode_24_bit_BE_signed (cfg : AlsaDeviceConfig) (b0 b1 b2 : byte) :
  size cfg = 3 -> endian cfg = Some "BE"%string -> channels cfg = 1 ->
  signed cfg = true ->
  let decoded :=
    be_uint [b0; b1; b2] - (if Z.testbit (byte_val b2) 7 then 2 ^ 24 else 0) in
  decode [b0; b1; b2] cfg = Some (Ok [[PyInt decoded]])
  /\ (decoded = to_signed 24 (be_uint [b0; b1; b2])
      <-> Z.testbit (byte_val b0) 7 = Z.testbit (byte_val b2) 7).
Proof.
  intros Hsz He Hch Hsg. destruct cfg as [pn fm sz sg en ch rt fs ps pt ma rf].
  cbn [size endian channels signed] in *. subst sz en ch sg. cbv zeta.
  unfold be_uint. cbn [rev app].
  split.
  - unfold decode, MemScope_init, _struct_str.
    cbn [endian_t String.eqb Ascii.eqb Bool.eqb bind endian signed size channels
         struct_t List.length].
    pose proof (padding_of_spec true 3 "BE" c_i eq_refl (or_intror eq_refl)) as Hpad.
    erewrite drain_cons;
      [ | eapply (next_one_field _ [b0; b1; b2]);
          [ reflexivity | reflexivity
          | cbn [iter padding MemScope.set_buffer]; unfold padding_of, padding_t;
            cbn [String.eqb Ascii.eqb Bool.eqb]; rewrite sign_fill_3; reflexivity
          | reflexivity ]
        | eapply drain_exhausted;
          [ split; [reflexivity | split; [reflexivity | split; [cbn; lia | exact Hpad]]]
          | cbn; lia | cbn; lia | reflexivity ] ].
    change (Z.to_nat 1) with 1%nat.
    cbn [iter struct_ st_order st_codes MemScope.set_buffer repeat
         unpack_items unpack_item firstn skipn code_size app rev].
    apply (f_equal (fun v => Some (Ok [[PyInt v]]))).
    rewrite top_bit_set, ?le_uint_4, ?le_uint_3; byte_ranges.
    change (2 ^ 24) with 16777216.
    destruct (Z.leb_spec 128 (byte_val b2));
      [change (byte_val xff) with 255 | change (byte_val x00) with 0];
      signed_cases; lia.
  - rewrite !top_bit_set, le_uint_3. byte_ranges.
    change (2 ^ 24) with 16777216.
    destruct (Z.leb_spec 128 (byte_val b2)); destruct (Z.leb_spec 128 (byte_val b0));
      signed_cases; split; intros E; try reflexivity; try discriminate E; lia.
Qed.

Lemma decode_24_bit_BE_signed_witness :
  let cfg := {| pcm_name := "default"; format := "PCM_FORMAT_S24_BE"; size := 3;
                signed := true; endian := Some "BE"%string; channels := 1;
                rate := 48000; frame_size := 3; period_size := 1024;
                period_time := 1024 # 48000; maxamp := 8388608; reference := 0 |} in
  let decoded :=
    be_uint [x00; x00; x80]%byte
    - (if Z.testbit (byte_val x80) 7 then 2 ^ 24 else 0) in
  size cfg = 3
  /\ decode [x00; x00; x80]%byte cfg = Some (Ok [[PyInt decoded]])
  /\ (decoded = to_signed 24 (be_uint [x00; x00; x80]%byte)
      <-> Z.testbit (byte_val x00) 7 = Z.testbit (byte_val x80) 7).
Proof.
  cbv zeta. split; [reflexivity |].
  apply (decode_24_bit_BE_signed
           {| pcm_name := "default"; format := "PCM_FORMAT_S24_BE"; size := 3;
              signed := true; endian := Some "BE"%string; channels := 1;
              rate := 48000; frame_size := 3; period_size := 1024;
              period_time := 1024 # 48000; maxamp := 8388608; reference := 0 |}
           x00 x00 x80)%byte; reflexivity.
Defined.

(** The decoder of a supported format, as constructed. *)
Lemma init_scope (data : bytes) (cfg : AlsaDeviceConfig) :
  1 <= size cfg <= 4 ->
  endian cfg = Some "LE"%string \/ endian cfg = Some "BE"%string ->
  exists ms o c,
    MemScope_init data cfg = Ok ms
    /\ scope_for (iter ms) o c (Z.to_nat (channels cfg))
    /\ dev_cfg (iter ms) = cfg
    /\ buffer (iter ms) = BytesIO_new data.
Proof.
  intros Hsz He.
  assert (Hc : exists c, struct_t (signed cfg) (size cfg) = Ok c).
  { assert (H : size cfg = 1 \/ size cfg = 2 \/ size cfg = 3 \/ size cfg = 4) by lia.
    destruct (signed cfg); destruct H as [-> | [-> | [-> | ->]]]; eexists; reflexivity. }
  destruct Hc as [c Hc].
  assert (Ho : exists e o, endian cfg = Some e /\ endian_t (Some e) = Ok o
                           /\ (e = "LE"%string \/ e = "BE"%string)).
  { destruct He as [E | E]; rewrite E; eexists; eexists;
      (split; [reflexivity | split; [reflexivity | auto]]). }
  destruct Ho as [e [o [Ee [Eo He']]]].
  unfold MemScope_init, _struct_str. rewrite Ee, Eo, Hc. cbn [bind].
  eexists. exists o, c. split; [reflexivity |].
  split; [| split; reflexivity].
  split; [reflexivity |]. split; [reflexivity |]. split; [cbn; lia |].
  cbn. apply padding_of_spec; assumption.
Qed.

(** The probe needs a whole frame: on a buffer shorter than one frame,
    the empty buffer included, and for a sample count of 0, the data of
    the statistic is empty and [statistics.median] raises
    StatisticsError. *)
Theorem probe_without_frame (cfg : AlsaDeviceConfig) (thr : Threshold.HystComp)
  (sample_size : Z) (buf : bytes) :
  1 <= size cfg <= 4 ->
  endian cfg = Some "LE"%string \/ endian cfg = Some "BE"%string ->
  1 <= channels cfg ->
  0 <= sample_size ->
  (List.length buf < Z.to_nat (channels cfg * size cfg))%nat \/ sample_size = 0 ->
  Threshold.probe cfg thr sample_size buf = Raise StatisticsError.
Proof.
  intros Hsz He Hch Hn Hshort.
  destruct (init_scope buf cfg Hsz He) as [ms [o [c [Ei [Hwf [Hcfg Hbuf]]]]]].
  unfold Threshold.probe. rewrite Ei. cbn [bind].
  destruct (Z.ltb_spec sample_size 0) as [Hneg | _]; [lia |]. cbn [bind].
  assert (Hd : Threshold.probe_data (Z.to_nat sample_size) (iter ms) = Ok []).
  { destruct (Z.to_nat sample_size) as [| n] eqn:En; [reflexivity |].
    destruct Hshort as [Hlen | ->]; [| discriminate En].
    cbn [Threshold.probe_data].
    destruct (next_short (iter ms) o c _ Hwf) as [ms' E].
    - rewrite Hcfg. lia.
    - rewrite Hcfg, Hbuf. unfold remaining. cbn [BytesIO_new bio_data bio_pos].
      rewrite Z2Nat.inj_mul in Hlen by lia. lia.
    - rewrite E. reflexivity. }
  rewrite Hd. reflexivity.
Qed.

Lemma probe_without_frame_witness :
  let cfg := {| pcm_name := "default"; format := "PCM_FORMAT_S16_LE"; size := 2;
                signed := true; endian := Some "LE"%string; channels := 2;
                rate := 48000; frame_size := 4; period_size := 1024;
                period_time := 1024 # 48000; maxamp := 32768; reference := 0 |} in
  (List.length [x01; x02; x03]%byte < Z.to_nat (channels cfg * size cfg))%nat
  /\ Threshold.probe cfg (Threshold.probe_setter 32768 (-10)%R) 40 [x01; x02; x03]%byte
     = Raise StatisticsError.
Proof.
  cbv zeta. split; [cbn; lia |].
  apply (probe_without_frame
           {| pcm_name := "default"; format := "PCM_FORMAT_S16_LE"; size := 2;
              signed := true; endian := Some "LE"%string; channels := 2;
              rate := 48000; frame_size := 4; period_size := 1024;
              period_time := 1024 # 48000; maxamp := 32768; reference := 0 |}).
  - cbn; lia.
  - left; reflexivity.
  - cbn; lia.
  - lia.
  - left. cbn. lia.
Defined.

(** Without a channel every [__next__] returns the empty frame, so the
    iteration never reaches StopIteration: no amount of fuel drains the
    decoder. *)
Theorem no_channel_never_stops (data : bytes) (cfg : AlsaDeviceConfig)
  (ms : MemScope) :
  MemScope_init data cfg = Ok ms -> channels cfg <= 0 ->
  fst (next (iter ms)) = Ok []
  /\ forall fuel, drain fuel (iter ms) = None.
Proof.
  intros Hi Hch.
  unfold MemScope_init, _struct_str in Hi.
  destruct (endian_t (endian cfg)) as [o | x]; [| discriminate Hi].
  destruct (struct_t (signed cfg) (size cfg)) as [c | x]; [| discriminate Hi].
  cbn [bind] in Hi. injection Hi as <-.
  assert (Hz : Z.to_nat (channels cfg) = 0%nat) by lia.
  assert (Hnext : forall b,
             next {| dev_cfg := cfg; buffer := b;
                     struct_ := {| st_order := o; st_codes := [] |};
                     padding := padding_of (signed cfg) (size cfg) (endian cfg) |}
             = (Ok [], {| dev_cfg := cfg; buffer := b;
                          struct_ := {| st_order := o; st_codes := [] |};
                          padding := padding_of (signed cfg) (size cfg) (endian cfg) |})).
  { intros b. unfold next. cbn [dev_cfg buffer padding struct_]. rewrite Hz. reflexivity. }
  unfold iter, MemScope.set_buffer. cbn [dev_cfg buffer padding struct_].
  rewrite Hz. cbn [repeat]. split; [rewrite Hnext; reflexivity |].
  intros fuel. generalize (seek0 (BytesIO_new data)).
  induction fuel as [| fuel IH]; intros b; [reflexivity |].
  cbn [drain]. rewrite Hnext, IH. reflexivity.
Qed.

Lemma no_channel_never_stops_witness :
  let cfg := {| pcm_name := "default"; format := "PCM_FORMAT_S16_LE"; size := 2;
                signed := true; endian := Some "LE"%string; channels := 0;
                rate := 48000; frame_size := 0; period_size := 1024;
                period_time := 1024 # 48000; maxamp := 32768; reference := 0 |} in
  exists ms,
    MemScope_init [x01; x02]%byte cfg = Ok ms
    /\ fst (next (iter ms)) = Ok []
    /\ forall fuel, drain fuel (iter ms) = None.
Proof.
  cbv zeta. eexists. split; [reflexivity |].
  apply (no_channel_never_stops [x01; x02]%byte
           {| pcm_name := "default"; format := "PCM_FORMAT_S16_LE"; size := 2;
              signed := true; endian := Some "LE"%string; channels := 0;
              rate := 48000; frame_size := 0; period_size := 1024;
              period_time := 1024 # 48000; maxamp := 32768; reference := 0 |});
    [reflexivity | cbn; lia].
Defined.

Lemma read_channels_data (n : nat) (pad : bytes -> result bytes) (sz : Z) :
  forall (b : BytesIO) (chunk : bytes),
  bio_data (snd (read_channels n pad sz b chunk)) = bio_data b.
Proof.
  induction n as [| n IH]; intros b chunk; [reflexivity |].
  cbn [read_channels]. unfold read.
  destruct (pad _) as [y | e]; [rewrite IH |]; reflexivity.
Qed.

Lemma iter_after_next (ms : MemScope) : iter (snd (next ms)) = iter ms.
Proof.
  unfold next.
  pose proof (read_channels_data (Z.to_nat (channels (dev_cfg ms))) (padding ms)
                (size (dev_cfg ms)) (buffer ms) []) as Hd.
  destruct (read_channels _ _ _ _ _) as [r b']. cbn [snd] in *.
  unfold iter, MemScope.set_buffer, seek0. cbn. rewrite Hd. reflexivity.
Qed.

(** The decoder can be iterated again: however many frames have been
    taken from it, [__iter__] puts it back where the first iteration
    began, so the second pass yields what the first did. *)
Theorem iterate_again (n fuel : nat) (ms : MemScope) :
  iter (advance n ms) = iter ms
  /\ drain fuel (iter (advance n ms)) = drain fuel (iter ms).
Proof.
  assert (H : iter (advance n ms) = iter ms).
  { revert ms. induction n as [| n IH]; intros ms; [reflexivity |].
    cbn [advance]. rewrite IH. apply iter_after_next. }
  split; [exact H | rewrite H; reflexivity].
Qed.

End ScopeFacts.

(** ** Threshold engine: the comparator *)

Section ComparatorFacts.
Import Threshold.
Local Open Scope R_scope.

Lemma comp_low (h : HystComp) (v : R) :
  CompResult.low (comp h v) = true <-> v <= low h.
Proof.
  unfold comp. cbn [CompResult.low].
  destruct (Rle_dec v (low h)); split; intros H; try reflexivity;
    try assumption; try discriminate H; contradiction.
Qed.

Lemma comp_high (h : HystComp) (v : R) :
  CompResult.high (comp h v) = true <-> v >= high h.
Proof.
  unfold comp. cbn [CompResult.high].
  destruct (Rge_dec v (high h)); split; intros H; try reflexivity;
    try assumption; try discriminate H; contradiction.
Qed.

(** The comparator is monotone: a larger value is above high whenever a
    smaller one is, and a smaller value is below low whenever a larger
    one is. *)
Theorem comp_monotone (h : HystComp) (v1 v2 : R) :
  v1 <= v2 ->
  (CompResult.high (comp h v1) = true -> CompResult.high (comp h v2) = true)
  /\ (CompResult.low (comp h v2) = true -> CompResult.low (comp h v1) = true).
Proof.
  intros Hle. rewrite !comp_high, !comp_low. split; intros H; lra.
Qed.

Lemma comp_monotone_witness :
  5000 <= 20000
  /\ (CompResult.high (comp (probe_setter 32768 (- 10)) 5000) = true ->
      CompResult.high (comp (probe_setter 32768 (- 10)) 20000) = true)
  /\ (CompResult.low (comp (probe_setter 32768 (- 10)) 20000) = true ->
      CompResult.low (comp (probe_setter 32768 (- 10)) 5000) = true).
Proof.
  split; [lra |].
  apply (comp_monotone (probe_setter 32768 (- 10)) 5000 20000). lra.
Defined.

(** With sensitivity 0 both bounds are 0, so every statistic, being a
    median of absolute values, is above high, and only the statistic 0 is
    below low as well. *)
Theorem zero_sensitivity (maxamp : Z) (v : R) :
  0 <= v ->
  low (probe_setter maxamp 0) = 0 /\ high (probe_setter maxamp 0) = 0
  /\ CompResult.high (comp (probe_setter maxamp 0) v) = true
  /\ (CompResult.low (comp (probe_setter maxamp 0) v) = true <-> v = 0).
Proof.
  intros Hv.
  assert (E : probe_setter maxamp 0 = {| low := 0; high := 0 |}).
  { unfold probe_setter. destruct (Req_dec_T 0 0) as [_ | H]; [reflexivity | lra]. }
  rewrite E, comp_high, comp_low. cbn [low high].
  repeat split; try lra; try reflexivity.
Qed.

Lemma zero_sensitivity_witness :
  0 <= 12000
  /\ low (probe_setter 32768 0) = 0 /\ high (probe_setter 32768 0) = 0
  /\ CompResult.high (comp (probe_setter 32768 0) 12000) = true
  /\ (CompResult.low (comp (probe_setter 32768 0) 12000) = true <-> 12000 = 0).
Proof.
  split; [lra |]. apply (zero_sensitivity 32768 12000). lra.
Defined.

(** For a nonzero sensitivity of at most 6000 dB and a format of at
    most 32 bits, the two bounds are positive and overlap, [high] lying
    under [low]: no value is classified neither below low nor above
    high, and the values from [high] to [low] are classified both. *)
Theorem overlapping_band (maxamp : Z) (val v : R) :
  sample_amplitude maxamp -> val <> 0 -> float_level val ->
  let h := probe_setter maxamp val in
  0 < high h < low h
  /\ (CompResult.low (comp h v) = true \/ CompResult.high (comp h v) = true)
  /\ (CompResult.low (comp h v) = true /\ CompResult.high (comp h v) = true
      <-> high h <= v <= low h).
Proof.
  intros [Hm _] Hval _. cbv zeta.
  destruct (probe_setter_inverted maxamp val Hm Hval) as [Hlt [_ Hpos]].
  rewrite comp_high, comp_low. split; [lra |]. split.
  - destruct (Rle_dec v (low (probe_setter maxamp val))); [left; assumption | right; lra].
  - split; intros H; lra.
Qed.

Lemma overlapping_band_witness :
  sample_amplitude 32768 /\ - 10 <> 0 /\ float_level (- 10)
  /\ 0 < high (probe_setter 32768 (- 10)) < low (probe_setter 32768 (- 10))
  /\ (CompResult.low (comp (probe_setter 32768 (- 10)) 9000) = true
      \/ CompResult.high (comp (probe_setter 32768 (- 10)) 9000) = true)
  /\ (CompResult.low (comp (probe_setter 32768 (- 10)) 9000) = true
      /\ CompResult.high (comp (probe_setter 32768 (- 10)) 9000) = true
      <-> high (probe_setter 32768 (- 10)) <= 9000 <= low (probe_setter 32768 (- 10))).
Proof.
  assert (Ha : sample_amplitude 32768) by (unfold sample_amplitude; lia).
  assert (Hl : float_level (- 10))
    by (unfold float_level, Rabs; destruct (Rcase_abs _); lra).
  split; [exact Ha |]. split; [lra |]. split; [exact Hl |].
  apply (overlapping_band 32768 (- 10) 9000 Ha); [lra | exact Hl].
Defined.

(** The setter takes the sensitivity by its magnitude: a positive and
    the opposite negative sensitivity give the same comparator. *)
Theorem sensitivity_by_magnitude (maxamp : Z) (val : R) :
  probe_setter maxamp (- val) = probe_setter maxamp val.
Proof.
  unfold probe_setter.
  destruct (Req_dec_T (- val) 0) as [E | E]; destruct (Req_dec_T val 0) as [E' | E'];
    try reflexivity; try lra.
  rewrite Rabs_Ropp. reflexivity.
Qed.

(** In usbloop.py the sign of [threshold_db] matters, for a level of
    at most 6000 dB and a format of at most 32 bits: below 0 dB the stop
    threshold is under the start threshold, from 3 dB on it is over it;
    both thresholds are positive. *)
Theorem FSM_thresholds_by_sign (maxamp : Z) (threshold_db : R) :
  sample_amplitude maxamp -> float_level threshold_db ->
  (threshold_db < 0 ->
   0 < stop (FSM_thresholds maxamp threshold_db)
     < start (FSM_thresholds maxamp threshold_db))
  /\ (3 <= threshold_db ->
      0 < start (FSM_thresholds maxamp threshold_db)
        < stop (FSM_thresholds maxamp threshold_db)).
Proof.
  intros [Hm _] _. unfold FSM_thresholds, usb_reverse_db. cbn [start stop].
  assert (Hpos : forall x, 0 < IZR maxamp * Rpower 10 x).
  { intros x. apply Rmult_lt_0_compat; [apply IZR_lt; exact Hm | apply Rpower10_pos]. }
  split; intros Hdb; (split; [apply Hpos |]);
    (apply Rmult_lt_compat_l; [apply IZR_lt; exact Hm |]);
    apply Rpower10_lt.
  - rewrite !Rabs_left by lra. lra.
  - rewrite (Rabs_right threshold_db) by lra.
    rewrite (Rabs_right (threshold_db - 3)) by lra. lra.
Qed.

Lemma FSM_thresholds_by_sign_witness :
  sample_amplitude 32768 /\ float_level (- 10) /\ float_level 10
  /\ - 10 < 0 /\ 3 <= 10
  /\ 0 < stop (FSM_thresholds 32768 (- 10)) < start (FSM_thresholds 32768 (- 10))
  /\ 0 < start (FSM_thresholds 32768 10) < stop (FSM_thresholds 32768 10).
Proof.
  assert (Ha : sample_amplitude 32768) by (unfold sample_amplitude; lia).
  assert (Hl : float_level (- 10))
    by (unfold float_level, Rabs; destruct (Rcase_abs _); lra).
  assert (Hl' : float_level 10) by (unfold float_level, Rabs; destruct (Rcase_abs _); lra).
  split; [exact Ha |]. split; [exact Hl |]. split; [exact Hl' |].
  split; [lra |]. split; [lra |]. split.
  - apply (proj1 (FSM_thresholds_by_sign 32768 (- 10) Ha Hl)). lra.
  - apply (proj2 (FSM_thresholds_by_sign 32768 10 Ha Hl')). lra.
Defined.

End ComparatorFacts.

(** ** Loop controller: invariants of every run *)

Section KeepFacts.
Import Py MemScope Loop Invariant.
Local Open Scope nat_scope.

Variable P : LSM -> Prop.

Lemma keeps_ret (A : Type) (a : A) : keeps P (SE.ret a).
Proof. intros s H. exact H. Qed.

Lemma keeps_get : keeps P SE.get.
Proof. intros s H. exact H. Qed.

Lemma keeps_lift (A : Type) (r : result A) : keeps P (SE.lift r).
Proof. intros s H. exact H. Qed.

Lemma keeps_modify (f : LSM -> LSM) :
  (forall s, P s -> P (f s)) -> keeps P (SE.modify f).
Proof. intros Hf s H. apply Hf. exact H. Qed.

Lemma keeps_bind (A B : Type) (m : M A) (k : A -> M B) :
  keeps P m -> (forall a, keeps P (k a)) -> keeps P (SE.bind m k).
Proof.
  intros Hm Hk s Hs. unfold SE.bind. specialize (Hm s Hs).
  destruct (m s) as [[a | e] s1]; cbn [snd] in *; [apply Hk |]; exact Hm.
Qed.

Hypothesis P_log : forall s v, P s -> P (set_log s v).
Hypothesis P_rxq : forall s v, P s -> P (set_rxq s v).
Hypothesis P_buffer : forall s v, P s -> P (set_buffer s v).
Hypothesis P_cfg : forall s v, P s -> P (set_probe_cfg s v).
Hypothesis P_dbus : forall s v, P s -> P (set_dbus s v).
Hypothesis P_crashed : forall s v, P s -> P (set_crashed s v).
Hypothesis P_state :
  forall s v, v <> PlayerState.KILLED -> P s -> P (set_local_state s v).
Hypothesis P_loop : forall s v, P s -> P (set_loop s v).
Hypothesis P_task :
  forall s w c, started c = false -> P s ->
    P (set_tasks s (tasks s ++ [{| wake_at := w; body := c |}])).
Hypothesis P_timer :
  forall s d c, started c = false -> P s ->
    P (set_timers s (timers s ++ [{| due := d; target := c |}])).
Hypothesis P_gather : forall s, P s -> P (snd (gather s)).

Lemma keeps_info (msg : string) : keeps P (info msg).
Proof. apply keeps_modify. intros s H. apply P_log. exact H. Qed.

Lemma keeps_set_state (v : PlayerState.t) :
  v <> PlayerState.KILLED -> keeps P (set_state v).
Proof.
  intros Hv. apply keeps_modify. intros s H.
  cbv zeta. destruct (dbus (set_local_state s v)).
  - apply P_dbus, P_state; assumption.
  - apply P_log, P_state; assumption.
Qed.

Lemma keeps_create_task (c : coro) :
  started c = false -> keeps P (create_task c).
Proof. intros Hc. apply keeps_modify. intros s H. apply P_task; assumption. Qed.

Lemma keeps_call_later (d : Q) (c : coro) :
  started c = false -> keeps P (call_later d c).
Proof. intros Hc. apply keeps_modify. intros s H. apply P_timer; assumption. Qed.

Lemma keeps_gather : keeps P gather.
Proof. intros s H. apply P_gather. exact H. Qed.

Lemma keeps_dispatch (cmd : PlayerCommand.t) : keeps P (dispatch cmd).
Proof.
  unfold dispatch. apply keeps_bind; [apply keeps_gather | intros _].
  apply keeps_bind; [apply keeps_get | intros s].
  destruct cmd; cbn [manifests];
    (apply keeps_bind; [apply keeps_info | intros _]);
    (apply keeps_bind; [apply keeps_set_state; discriminate | intros _]);
    apply keeps_call_later; reflexivity.
Qed.

Lemma settles_ret_sleep (d : Q) (k : coro) :
  started k = false -> settles P (SE.ret (Sleep d k)).
Proof. intros Hk s H. cbn [SE.ret settle]. apply P_task; assumption. Qed.

Lemma settles_ret_done : settles P (SE.ret Done).
Proof. intros s H. exact H. Qed.

Lemma settles_bind (A : Type) (m : M A) (k : A -> M outcome) :
  keeps P m -> (forall a, settles P (k a)) -> settles P (SE.bind m k).
Proof.
  intros Hm Hk s Hs. unfold SE.bind. specialize (Hm s Hs).
  destruct (m s) as [[a | e] s1]; cbn [snd] in *.
  - apply Hk. exact Hm.
  - cbn [settle]. apply P_crashed. exact Hm.
Qed.

Lemma keeps_the_loop : keeps P the_loop.
Proof. intros s H. unfold the_loop. destruct (loop_set s); exact H. Qed.

Lemma settles_restart_resume (cfg : ProbeConfig) : settles P (restart_resume cfg).
Proof.
  unfold restart_resume.
  apply settles_bind; [apply keeps_modify; intros s H; apply P_cfg; exact H | intros _].
  apply settles_bind; [apply keeps_the_loop | intros _].
  apply settles_bind; [apply keeps_create_task; reflexivity | intros _].
  apply settles_ret_done.
Qed.

(** The await of [_gather] in a signal handler: the handler goes on at
    once or is suspended as [wait]. *)
Lemma settles_await_gather (wait : coro) (k : M outcome) :
  started wait = false -> settles P k -> settles P (await_gather wait k).
Proof.
  intros Hw Hk. unfold await_gather.
  apply settles_bind; [apply keeps_get | intros s0].
  apply settles_bind; [apply keeps_gather | intros _].
  destruct (tasks s0); [exact Hk |].
  intros s H. cbn [SE.ret settle]. apply P_task; assumption.
Qed.

Lemma settles_restart (cfg : ProbeConfig) : settles P (restart cfg).
Proof.
  unfold restart.
  apply settles_bind; [apply keeps_set_state; discriminate | intros _].
  apply settles_bind; [apply keeps_info | intros _].
  apply settles_await_gather; [reflexivity | apply settles_restart_resume].
Qed.

Lemma settles_run_loop (q : list PlayerCommand.t) : settles P (run_loop q).
Proof.
  induction q as [| cmd q IH]; intros s H; cbn [run_loop].
  - destruct (PlayerState.eqb (state s) PlayerState.KILLED); cbn [settle].
    + apply P_rxq. exact H.
    + apply P_task; [reflexivity | apply P_rxq; exact H].
  - destruct (PlayerState.eqb (state s) PlayerState.KILLED); cbn [settle].
    + apply P_rxq. exact H.
    + apply (settles_bind _ (dispatch cmd) (fun _ => run_loop q));
        [apply keeps_dispatch | intros _; exact IH | apply P_rxq; exact H].
Qed.

Lemma settles_run_resume : settles P run_resume.
Proof.
  intros s H. unfold run_resume. destruct (rxq s) as [| cmd q].
  - cbn [settle]. apply P_task; [reflexivity | exact H].
  - apply (settles_bind _ (dispatch cmd) (fun _ => run_loop q));
      [apply keeps_dispatch | intros _; apply settles_run_loop | apply P_rxq; exact H].
Qed.

Lemma settles_run_begin : settles P run_begin.
Proof.
  intros s H. unfold run_begin. cbv zeta.
  change (dbus (set_loop s true)) with (dbus s). destruct (dbus s).
  - apply settles_run_loop. apply P_loop. exact H.
  - cbn [settle]. apply P_crashed, P_loop. exact H.
Qed.

Lemma settles_wake : settles P wake_body.
Proof.
  unfold wake_body.
  apply settles_bind; [apply keeps_set_state; discriminate | intros _].
  apply settles_bind; [apply keeps_create_task; reflexivity | intros _].
  apply settles_ret_done.
Qed.

Lemma settles_idle probe (io : ports) (c : Z) : settles P (idle_body probe io c).
Proof.
  unfold idle_body. apply settles_bind; [apply keeps_get | intros s].
  destruct (PlayerState.eqb (state s) PlayerState.IDLE); [| apply settles_ret_done].
  apply settles_bind; [apply keeps_lift | intros buf].
  apply settles_bind;
    [apply keeps_modify; intros s0 H; apply P_buffer; exact H | intros _].
  apply settles_bind; [apply keeps_lift | intros p].
  cbv zeta.
  destruct (_ >=? _)%Z.
  - apply settles_bind; [apply keeps_set_state; discriminate | intros _].
    apply settles_bind; [apply keeps_create_task; reflexivity | intros _].
    apply settles_ret_sleep; reflexivity.
  - destruct (_ >? _)%Z; apply settles_ret_sleep; reflexivity.
Qed.

Lemma settles_monitor probe (c : Z) : settles P (monitor_body probe c).
Proof.
  unfold monitor_body. apply settles_bind; [apply keeps_get | intros s].
  destruct (PlayerState.eqb (state s) PlayerState.PLAY); [| apply settles_ret_done].
  apply settles_bind; [apply keeps_lift | intros p].
  cbv zeta.
  destruct (_ >=? _)%Z.
  - apply settles_bind; [apply keeps_set_state; discriminate | intros _].
    apply settles_ret_sleep; reflexivity.
  - destruct (_ >? _)%Z; apply settles_ret_sleep; reflexivity.
Qed.

(** Every handler but [_stream] and the end of [_shutdown] settles an
    invariant that the controller's elementary updates preserve. *)
Lemma settles_activate probe (c : coro) (io : ports) :
  c <> stream_start -> started c = false -> settles P (activate probe c io).
Proof.
  intros H1 H2. destruct c; cbn [activate]; try contradiction;
    try discriminate H2.
  - apply settles_run_begin.
  - apply settles_run_resume.
  - apply settles_wake.
  - apply settles_idle.
  - unfold idle_monitor_body.
    apply settles_bind; [apply keeps_create_task; reflexivity | intros _].
    apply settles_idle.
  - apply settles_monitor.
  - unfold monitor_idle_body.
    apply settles_bind; [apply keeps_create_task; reflexivity | intros _].
    apply settles_monitor.
  - apply settles_restart_resume.
Qed.

End KeepFacts.

Section InvariantFacts.
Import Py MemScope Loop Invariant.
Local Open Scope nat_scope.

Ltac stream_cases :=
  repeat match goal with
         | |- context [playback_open ?io] => destruct (playback_open io) as [[] | []]
         | |- context [playback_write ?io ?n ?b] =>
             destruct (playback_write io n b) as [? | []]
         | |- context [capture_read ?io] => destruct (capture_read io) as [? | []]
         | |- context [PlayerState.eqb ?a ?b] => destruct (PlayerState.eqb a b)
         end.

(** What an activation of [_stream] changes beside the log, the buffer
    and the queue: from its start it leaves as many devices open as it
    found unless it is suspended inside its [with] block. *)
Lemma stream_start_frame probe (io : ports) (s : LSM) :
  let s' := settle (activate probe stream_start io s) in
  state s' = state s /\ stopped s' = stopped s /\ timers s' = timers s
  /\ filter exiting (tasks s') = filter exiting (tasks s)
  /\ playback_handles s' + open_streams s = playback_handles s + open_streams s'.
Proof.
  unfold activate, stream_begin, stream_except, stream_scope, playback_enter,
    stream_turn, info, SE.bind, SE.try_catch, SE.with_exit, SE.lift, SE.get,
    SE.modify, SE.ret, playback_exit, open_streams.
  cbn [fst snd log set_log _buffer set_handles state set_buffer].
  stream_cases; cbn; rewrite ?filter_app, ?length_app; cbn;
    rewrite ?app_nil_r; repeat split; lia.
Qed.


Lemma some_inj (A : Type) (a b : A) : Some a = Some b -> a = b.
Proof. intros H. congruence. Qed.


Lemma forallb_remove_nth {A : Type} (f : A -> bool) (l : list A) :
  forall i : nat, forallb f l = true -> forallb f (remove_nth i l) = true.
Proof.
  induction l as [| x l IH]; intros [| i] H; cbn in *; try reflexivity;
    apply andb_true_iff in H; destruct H as [Hx Hl]; try exact Hl.
  rewrite Hx. cbn. apply IH. exact Hl.
Qed.

Lemma forallb_nth_error {A : Type} (f : A -> bool) (l : list A) (i : nat) (t : A) :
  forallb f l = true -> nth_error l i = Some t -> f t = true.
Proof.
  intros H Hn. rewrite forallb_forall in H. apply H.
  eapply nth_error_In. exact Hn.
Qed.

Lemma running_frame (s s' : LSM) :
  state s' = state s -> stopped s' = stopped s ->
  filter exiting (tasks s') = filter exiting (tasks s) ->
  timers s' = timers s -> running s -> running s'.
Proof. unfold running. intros -> -> -> ->. trivial. Qed.

Lemma running_task (s : LSM) (w : Q) (c : coro) :
  started c = false -> running s ->
  running (set_tasks s (tasks s ++ [{| wake_at := w; body := c |}])).
Proof.
  intros Hc [Hk [Hs [Hta Hti]]]. repeat split; try assumption.
  cbn [tasks set_tasks]. rewrite filter_app, Hta.
  destruct c; try reflexivity; discriminate Hc.
Qed.

Lemma running_timer (s : LSM) (d : Q) (c : coro) :
  started c = false -> running s ->
  running (set_timers s (timers s ++ [{| due := d; target := c |}])).
Proof.
  intros Hc [Hk [Hs [Hta Hti]]]. repeat split; try assumption.
  cbn [timers set_timers]. rewrite forallb_app, Hti.
  unfold unstarted. cbn [forallb target]. rewrite Hc. reflexivity.
Qed.

Ltac running_rules :=
  intros;
  first [ apply running_task; assumption
        | apply running_timer; assumption
        | match goal with
          | H : running _ |- running (set_local_state _ _) =>
              destruct H as [? [? [? ?]]]; repeat split; assumption
          | H : running _ |- running (snd (gather _)) =>
              destruct H as [? [? [? ?]]]; repeat split; assumption
          end
        | eapply running_frame; [| | | | eassumption]; reflexivity ].

Lemma running_settles probe (c : coro) (io : ports) :
  c <> stream_start -> started c = false -> settles running (activate probe c io).
Proof. apply settles_activate; running_rules. Qed.

Lemma running_restart (cfg : ProbeConfig) : settles running (restart cfg).
Proof. apply settles_restart; running_rules. Qed.

Lemma stream_loop_state probe (io : ports) (s : LSM) :
  let s' := settle (activate probe stream_loop io s) in
  state s' = state s /\ stopped s' = stopped s /\ timers s' = timers s
  /\ filter exiting (tasks s') = filter exiting (tasks s).
Proof.
  unfold activate, stream_resume, stream_except, stream_scope,
    stream_turn, info, SE.bind, SE.try_catch, SE.with_exit, SE.lift, SE.get,
    SE.modify, SE.ret, playback_exit.
  cbn [fst snd log set_log _buffer set_handles state set_buffer].
  stream_cases; cbn; rewrite ?filter_app; cbn; rewrite ?app_nil_r;
    repeat split; reflexivity.
Qed.

Lemma filter_remove_nth_nil {A : Type} (f : A -> bool) (l : list A) :
  forall i : nat, filter f l = [] -> filter f (remove_nth i l) = [].
Proof.
  induction l as [| x l IH]; intros i H; [destruct i; reflexivity |].
  cbn [filter] in H. destruct (f x) eqn:Ex; [discriminate H |].
  destruct i as [| i]; cbn [remove_nth filter]; [exact H |].
  rewrite Ex. apply IH. exact H.
Qed.

Lemma filter_nil_nth_error {A : Type} (f : A -> bool) (l : list A) (i : nat)
  (t : A) :
  filter f l = [] -> nth_error l i = Some t -> f t = false.
Proof.
  intros H Hn. apply nth_error_In in Hn.
  destruct (f t) eqn:Et; [| reflexivity].
  assert (Hin : In t (filter f l)) by (apply filter_In; split; assumption).
  rewrite H in Hin. destruct Hin.
Qed.

(** The activation of a task that is not the waiting [_shutdown]. *)
Lemma running_activate probe (c : coro) (io : ports) (s : LSM) :
  c <> shutdown_wait -> running s -> running (settle (activate probe c io s)).
Proof.
  intros Hc Hrun.
  destruct c;
    try (apply running_settles; [discriminate | reflexivity | exact Hrun]).
  - destruct (stream_start_frame probe io s) as [H1 [H2 [H3 [H4 _]]]].
    eapply running_frame; eassumption.
  - destruct (stream_loop_state probe io s) as [H1 [H2 [H3 H4]]].
    eapply running_frame; eassumption.
  - contradiction.
Qed.

(** One step of a running loop: any event but the exit signal leaves it
    running. *)
Lemma running_step probe (s s' : LSM) (ev : event) :
  running s -> ev <> Shutdown -> step probe s ev = Some s' -> running s'.
Proof.
  intros Hrun Hev Hstep. pose proof Hrun as [Hk [Hs [Hta Hti]]].
  unfold step in Hstep. rewrite Hs in Hstep. destruct ev.
  - destruct (Qle_bool 0 dt); [| discriminate Hstep].
    apply some_inj in Hstep. subst s'. exact Hrun.
  - apply some_inj in Hstep. subst s'. exact Hrun.
  - destruct (nth_error (timers s) i) as [t |] eqn:Hn; [| discriminate Hstep].
    destruct (Qle_bool (due t) (now s)); [| discriminate Hstep].
    apply some_inj in Hstep. subst s'.
    pose proof (forallb_nth_error unstarted _ _ _ Hti Hn) as Hu.
    apply running_task.
    + unfold unstarted in Hu. destruct (started (target t)); [discriminate Hu | reflexivity].
    + repeat split; try assumption. apply forallb_remove_nth. exact Hti.
  - destruct (nth_error (tasks s) i) as [t |] eqn:Hn; [| discriminate Hstep].
    destruct (ready s t); [| discriminate Hstep].
    apply some_inj in Hstep. subst s'.
    pose proof (filter_nil_nth_error exiting _ _ _ Hta Hn) as He.
    apply running_activate.
    + intros E. unfold exiting in He. rewrite E in He. discriminate He.
    + repeat split; try assumption. apply filter_remove_nth_nil. exact Hta.
  - apply some_inj in Hstep. subst s'. apply running_restart. exact Hrun.
  - contradiction.
Qed.

Lemma running_exec probe (evs : list event) : forall (s s' : LSM),
  running s -> exec probe s evs = Some s' ->
  In Shutdown evs \/ running s'.
Proof.
  induction evs as [| ev evs IH]; intros s s' Hrun Hex.
  - apply some_inj in Hex. subst s'. right. exact Hrun.
  - cbn [exec] in Hex. destruct (step probe s ev) as [s1 |] eqn:Hstep;
      [| discriminate Hex].
    assert (Hdec : ev = Shutdown \/ ev <> Shutdown)
      by (destruct ev; (left; reflexivity) || (right; discriminate)).
    destruct Hdec as [-> | Hev]; [left; left; reflexivity |].
    pose proof (running_step probe s s1 ev Hrun Hev Hstep) as H1.
    destruct (IH s1 s' H1 Hex) as [Hin | Hr]; [left; right; exact Hin | right; exact Hr].
Qed.

Lemma boot_running (cfg : ProbeConfig) : running (boot cfg).
Proof. repeat split. discriminate. Qed.

(** Only the exit signal ends the controller: in every run from the
    start, whatever commands, timers, device answers and restarts it
    holds, the state is KILLED only if the exit signal has come, and the
    loop is stopped only if it has; no command, handler, device error or
    restart puts the controller in KILLED or stops the loop. *)
Theorem killed_only_by_exit_signal probe (cfg : ProbeConfig)
  (evs : list event) (s' : LSM) :
  exec probe (boot cfg) evs = Some s' ->
  (state s' = PlayerState.KILLED -> In Shutdown evs)
  /\ (stopped s' = true -> In Shutdown evs).
Proof.
  intros Hex.
  destruct (running_exec probe evs _ _ (boot_running cfg) Hex)
    as [Hin | [Hk [Hs _]]].
  - split; intros _; exact Hin.
  - split; intros H; [contradiction | rewrite Hs in H; discriminate H].
Qed.

Lemma killed_only_by_exit_signal_witness :
  exists s',
    exec level_probe (boot run_cfg)
      [Resume 0 (working_ports [xff%byte]); Command PlayerCommand.STOP;
       Shutdown; Resume 0 (working_ports [xff%byte])]
    = Some s'
    /\ state s' = PlayerState.KILLED /\ stopped s' = true
    /\ (state s' = PlayerState.KILLED
        -> In Shutdown
             [Resume 0 (working_ports [xff%byte]); Command PlayerCommand.STOP;
              Shutdown; Resume 0 (working_ports [xff%byte])])
    /\ (stopped s' = true
        -> In Shutdown
             [Resume 0 (working_ports [xff%byte]); Command PlayerCommand.STOP;
              Shutdown; Resume 0 (working_ports [xff%byte])]).
Proof.
  eexists. split; [vm_compute; reflexivity |].
  split; [reflexivity |]. split; [reflexivity |].
  apply (killed_only_by_exit_signal level_probe run_cfg). vm_compute. reflexivity.
Defined.














End InvariantFacts.

Section RunFacts.
Import Py MemScope Loop Invariant.
Local Open Scope nat_scope.

Lemma exec_app probe (a b : list event) : forall s : LSM,
  exec probe s (a ++ b)
  = match exec probe s a with
    | Some s' => exec probe s' b
    | None => None
    end.
Proof.
  induction a as [| ev a IH]; intros s; cbn [exec app]; [reflexivity |].
  destruct (step probe s ev); [apply IH | reflexivity].
Qed.

(** What a dispatch leaves behind. *)
Lemma dispatch_spec (cmd : PlayerCommand.t) (s : LSM) :
  let s' := snd (dispatch cmd s) in
  fst (dispatch cmd s) = Ok tt
  /\ state s' = fst (fst (manifests (probe_cfg s) cmd))
  /\ tasks s' = []
  /\ timers s'
     = timers s ++ [{| due := (now s + snd (fst (manifests (probe_cfg s) cmd)))%Q;
                       target := snd (manifests (probe_cfg s) cmd) |}]
  /\ probe_cfg s' = probe_cfg s /\ now s' = now s /\ rxq s' = rxq s
  /\ stopped s' = stopped s /\ crashed s' = crashed s
  /\ playback_handles s' = playback_handles s - open_streams s.
Proof.
  unfold dispatch, SE.bind, gather, info, set_state, call_later, SE.get,
    SE.modify, open_streams.
  destruct cmd; cbn; destruct (dbus s); cbn; repeat split.
Qed.

Lemma manifests_alive (cfg : ProbeConfig) (cmd : PlayerCommand.t) :
  fst (fst (manifests cfg cmd)) <> PlayerState.KILLED.
Proof. destruct cmd; discriminate. Qed.

Lemma not_killed (v : PlayerState.t) :
  v <> PlayerState.KILLED -> PlayerState.eqb v PlayerState.KILLED = false.
Proof. destruct v; try reflexivity. contradiction. Qed.

Lemma run_loop_spec (q : list PlayerCommand.t) : forall s : LSM,
  state s <> PlayerState.KILLED ->
  let r := run_loop q s in
  fst r = Ok (Wait run_get)
  /\ rxq (snd r) = []
  /\ timers (snd r) = timers s ++ map (timer_of s) q
  /\ probe_cfg (snd r) = probe_cfg s /\ now (snd r) = now s
  /\ stopped (snd r) = stopped s /\ crashed (snd r) = crashed s
  /\ (q = [] -> tasks (snd r) = tasks s /\ state (snd r) = state s)
  /\ (q <> [] ->
      tasks (snd r) = []
      /\ state (snd r)
         = fst (fst (manifests (probe_cfg s) (last q PlayerCommand.PLAY)))).
Proof.
  induction q as [| cmd q IH]; intros s Hk; cbv zeta; cbn [run_loop];
    rewrite (not_killed _ Hk).
  - cbn. rewrite app_nil_r. repeat split; congruence.
  - unfold SE.bind.
    destruct (dispatch_spec cmd (set_rxq s q))
      as [E [Hst [Hta [Hti [Hcf [Hno [_ [Hsp [Hcr _]]]]]]]]].
    destruct (dispatch cmd (set_rxq s q)) as [res s1]. cbn [fst snd] in *.
    subst res.
    assert (Hk1 : state s1 <> PlayerState.KILLED)
      by (rewrite Hst; apply manifests_alive).
    destruct (IH s1 Hk1) as [F [Hq [Hti' [Hcf' [Hno' [Hsp' [Hcr' [Hnil Hcons]]]]]]]].
    split; [exact F |]. split; [exact Hq |].
    split.
    { rewrite Hti', Hti. cbn [timers set_rxq map]. rewrite <- app_assoc.
      cbn [app]. do 2 f_equal.
      apply map_ext. intros c. unfold timer_of. rewrite Hcf, Hno. reflexivity. }
    split; [rewrite Hcf', Hcf; reflexivity |].
    split; [rewrite Hno', Hno; reflexivity |].
    split; [rewrite Hsp', Hsp; reflexivity |].
    split; [rewrite Hcr', Hcr; reflexivity |].
    split; [intros H; discriminate H |]. intros _.
    destruct q as [| cmd' q'].
    + destruct (Hnil eq_refl) as [H1 H2]. rewrite H1, H2. split; [exact Hta | exact Hst].
    + destruct Hcons as [H1 H2]; [discriminate |].
      split; [exact H1 |]. rewrite H2, Hcf. reflexivity.
Qed.



(** [_restart] up to its await: the state is UNKNOWN, every task is
    cancelled, and the handler waits when there was one. *)
Lemma restart_begins (cfg : ProbeConfig) (s : LSM) :
  exists s1,
    state s1 = PlayerState.UNKNOWN /\ tasks s1 = [] /\ timers s1 = timers s
    /\ dbus s1 = dbus s /\ loop_set s1 = loop_set s /\ stopped s1 = stopped s
    /\ now s1 = now s /\ crashed s1 = crashed s /\ rxq s1 = rxq s
    /\ restart cfg s
       = match tasks s with
         | [] => restart_resume cfg s1
         | _ :: _ => (Ok (Wait (restart_wait cfg)), s1)
         end.
Proof.
  exists (snd ((set_state PlayerState.UNKNOWN ;;; info "Received restart signal"
                ;;; gather) s)).
  unfold restart, await_gather, SE.bind, SE.get, SE.ret, set_state, gather,
    info, SE.modify.
  cbn [fst snd tasks set_log set_local_state set_dbus dbus log].
  destruct (dbus s) as [st |] eqn:Ed;
    cbn [fst snd tasks set_dbus set_log set_local_state set_handles set_tasks
         state timers dbus loop_set stopped now crashed rxq MPRISStatus];
    rewrite ?Ed; (repeat (split; [reflexivity |])); destruct (tasks s); reflexivity.
Qed.

(** [_restart] after its await, once [run] has started: the
    configuration is replaced and a new [run] is created. *)
Lemma restart_resume_runs (cfg : ProbeConfig) (s : LSM) :
  loop_set s = true ->
  restart_resume cfg s
  = (Ok Done,
     set_tasks (set_probe_cfg s cfg)
       (tasks s ++ [{| wake_at := now s; body := run_start |}])).
Proof.
  intros Hl. unfold restart_resume, the_loop, create_task, SE.bind, SE.modify,
    SE.ret.
  cbn [loop_set set_probe_cfg]. rewrite Hl. reflexivity.
Qed.

Lemma restart_reaches_run probe (s : LSM) (cfg : ProbeConfig) (io : ports) :
  stopped s = false -> loop_set s = true ->
  exists s1,
    exec probe s
      (Restart cfg :: match tasks s with [] => [] | _ :: _ => [Resume 0 io] end)
    = Some s1
    /\ state s1 = PlayerState.UNKNOWN /\ dbus s1 = dbus s
    /\ tasks s1 = [{| wake_at := now s; body := run_start |}]
    /\ timers s1 = timers s /\ probe_cfg s1 = cfg /\ rxq s1 = rxq s
    /\ stopped s1 = false /\ crashed s1 = crashed s /\ now s1 = now s.
Proof.
  intros Hs Hl.
  destruct (restart_begins cfg s)
    as [s1 [Hst [Hta [Hti [Hd1 [Hl1 [Hs1 [Hn1 [Hc1 [Hq1 E]]]]]]]]]].
  assert (E0 : step probe s (Restart cfg) = Some (settle (restart cfg s)))
    by (unfold step; rewrite Hs; reflexivity).
  cbn [exec]. rewrite E0, E.
  destruct (tasks s) as [| t ts].
  - rewrite restart_resume_runs by (rewrite Hl1; exact Hl). cbn [settle].
    eexists. split; [reflexivity |].
    cbn [state dbus tasks timers probe_cfg rxq stopped crashed now set_tasks
         set_probe_cfg].
    rewrite Hta, Hn1, Hs1. repeat split; assumption.
  - cbn [settle exec].
    rewrite (step_resume probe _ 0 io
               {| wake_at := now s1; body := restart_wait cfg |});
      [ | cbn [stopped set_tasks]; rewrite Hs1; exact Hs
        | cbn [tasks set_tasks]; rewrite Hta; reflexivity
        | unfold ready; cbn [body wake_at now set_tasks]; apply Qle_bool_refl ].
    cbn [body activate tasks set_tasks]. rewrite Hta. cbn [app remove_nth].
    rewrite restart_resume_runs by (cbn [loop_set set_tasks]; rewrite Hl1; exact Hl).
    cbn [settle]. eexists. split; [reflexivity |].
    cbn [state dbus tasks timers probe_cfg rxq stopped crashed now set_tasks
         set_probe_cfg app].
    rewrite Hn1, Hs1. repeat split; assumption.
Qed.

(** The restart signal on an opened controller whose [run] has started,
    when [_restart] and the new [run] are the next to run: every task is
    cancelled and [run] starts again with the configuration just loaded;
    it takes the commands still queued, then its own PLAY, so the
    controller ends in IDLE with an [_idle] scheduled.  The timers that
    were pending are not cancelled. *)
Theorem restart_resumes probe (s : LSM) (cfg : ProbeConfig) (io : ports)
  (st : string) :
  stopped s = false -> dbus s = Some st -> loop_set s = true ->
  exists s',
    exec probe s
      ((Restart cfg :: match tasks s with [] => [] | _ :: _ => [Resume 0 io] end)
       ++ [Resume 0 io])
    = Some s'
    /\ state s' = PlayerState.IDLE
    /\ probe_cfg s' = cfg
    /\ rxq s' = []
    /\ map body (tasks s') = [run_get]
    /\ map target (timers s')
       = map target (timers s)
         ++ map (fun cmd => snd (manifests cfg cmd)) (rxq s) ++ [idle 0]
    /\ stopped s' = false /\ crashed s' = crashed s.
Proof.
  intros Hs Hd Hl.
  destruct (restart_reaches_run probe s cfg io Hs Hl)
    as [s1 [E1 [Fst [Fd [Fta [Fti [Fcf [Fq [Fsp [Fcr Fno]]]]]]]]]].
  assert (E2 : step probe s1 (Resume 0 io)
               = Some (settle (activate probe run_start io
                                 (set_tasks s1 (remove_nth 0 (tasks s1)))))).
  { apply (step_resume probe s1 0 io {| wake_at := now s; body := run_start |});
      [ exact Fsp | rewrite Fta; reflexivity
      | unfold ready; cbn [body wake_at]; rewrite Fno; apply Qle_bool_refl ]. }
  cbn [activate] in E2. unfold run_begin in E2. cbv zeta in E2.
  remember (set_loop (set_tasks s1 (remove_nth 0 (tasks s1))) true) as s2 eqn:Es2.
  assert (F2 : state s2 = PlayerState.UNKNOWN /\ dbus s2 = Some st
               /\ timers s2 = timers s /\ probe_cfg s2 = cfg /\ rxq s2 = rxq s
               /\ stopped s2 = false /\ crashed s2 = crashed s).
  { subst s2.
    cbn [state dbus timers probe_cfg rxq stopped crashed set_tasks set_loop].
    rewrite Fd, Hd. repeat split; assumption. }
  clear Es2. destruct F2 as [Hst2 [Hd2 [Hti2 [Hcf2 [Hq2 [Hsp2 Hcr2]]]]]].
  assert (Hk : state s2 <> PlayerState.KILLED) by (rewrite Hst2; discriminate).
  destruct (run_loop_spec (rxq s2 ++ [PlayerCommand.PLAY]) s2 Hk)
    as [G [Gq [Gti [Gcf [Gno [Gsp [Gcr [_ Gcons]]]]]]]].
  destruct Gcons as [Gta Gst]; [destruct (rxq s2); discriminate |].
  rewrite Hd2 in E2.
  destruct (run_loop (rxq s2 ++ [PlayerCommand.PLAY]) s2) as [res s3].
  cbn [fst snd] in G, Gq, Gti, Gcf, Gno, Gsp, Gcr, Gta, Gst.
  subst res. cbn [settle] in E2.
  eexists. split.
  { rewrite exec_app, E1. cbn [exec]. rewrite E2. reflexivity. }
  cbn [state set_tasks probe_cfg rxq tasks timers stopped crashed].
  rewrite Gst, Gcf, Gq, Gta, Gti, Gsp, Gcr, last_last.
  rewrite Hcf2, Hti2, Hq2, Hsp2, Hcr2.
  repeat split.
  rewrite !map_app, map_map. do 2 f_equal.
  apply map_ext. intros c. unfold timer_of. cbn [target]. rewrite Hcf2.
  reflexivity.
Qed.

Lemma restart_resumes_witness :
  stopped playing = false /\ dbus playing = Some "Playing"%string
  /\ loop_set playing = true
  /\ exists s',
       exec level_probe playing
         ((Restart run_cfg
             :: match tasks playing with
                | [] => []
                | _ :: _ => [Resume 0 (working_ports [xff%byte])]
                end)
          ++ [Resume 0 (working_ports [xff%byte])])
       = Some s'
       /\ state s' = PlayerState.IDLE
       /\ probe_cfg s' = run_cfg
       /\ rxq s' = []
       /\ map body (tasks s') = [run_get]
       /\ map target (timers s')
          = map target (timers playing)
            ++ map (fun cmd => snd (manifests run_cfg cmd)) (rxq playing) ++ [idle 0]
       /\ stopped s' = false /\ crashed s' = crashed playing.
Proof.
  split; [reflexivity |]. split; [reflexivity |]. split; [reflexivity |].
  apply (restart_resumes level_probe playing run_cfg (working_ports [xff%byte])
           "Playing"%string); reflexivity.
Defined.

End RunFacts.

Section CountFacts.
Import Py MemScope Loop Invariant.
Local Open Scope nat_scope.

Lemma nth_error_last {A : Type} (pre : list A) (t : A) :
  nth_error (pre ++ [t]) (List.length pre) = Some t.
Proof. induction pre as [| x pre IH]; [reflexivity | exact IH]. Qed.

Lemma remove_nth_last {A : Type} (pre : list A) (t : A) :
  remove_nth (List.length pre) (pre ++ [t]) = pre.
Proof.
  induction pre as [| x pre IH]; [reflexivity |].
  cbn [List.length app remove_nth]. rewrite IH. reflexivity.
Qed.

Variable probe : bytes -> result CompResult.t.
Variable io : ports.
Variable b : bytes.
Variable r : CompResult.t.
Variable pre : list task.
Hypothesis Hread : capture_read io = Ok b.
Hypothesis Hprobe : probe b = Ok r.
Hypothesis Hhigh : CompResult.high r = true.

Lemma idle_turn_follow (c : Z) (s : LSM) :
  state s = PlayerState.IDLE -> (0 <= c)%Z ->
  (c + 1 < start_count (probe_cfg s))%Z ->
  idle_body probe io c s
  = (Ok (Sleep (follow_interval (probe_cfg s)) (idle (c + 1))), set_buffer s b).
Proof.
  intros Hst Hc Hlt.
  unfold idle_body, SE.bind, SE.get, SE.lift, SE.modify, SE.ret.
  rewrite Hst, Hread. cbn [PlayerState.eqb]. rewrite Hprobe, Hhigh.
  destruct (Z.geb_spec (c + 1) (start_count (probe_cfg s))) as [Hge | _]; [lia |].
  destruct (Z.gtb_spec (c + 1) 0) as [_ | Hle]; [reflexivity | lia].
Qed.

Lemma loud_cycle (c : Z) (s : LSM) :
  idling_at pre c s -> (0 <= c)%Z -> (c + 1 < start_count (probe_cfg s))%Z ->
  (0 <= follow_interval (probe_cfg s))%Q ->
  exists s',
    exec probe s [Resume (List.length pre) io; Tick (follow_interval (probe_cfg s))]
    = Some s'
    /\ idling_at pre (c + 1) s' /\ probe_cfg s' = probe_cfg s
    /\ timers s' = timers s /\ crashed s' = crashed s.
Proof.
  intros [Hsp [Hst [w [Hta Hw]]]] Hc Hlt Hf.
  assert (E1 : step probe s (Resume (List.length pre) io)
               = Some (settle (activate probe (idle c) io
                                 (set_tasks s (remove_nth (List.length pre) (tasks s)))))).
  { apply (step_resume probe s _ io {| wake_at := w; body := idle c |});
      [ exact Hsp | rewrite Hta; apply nth_error_last
      | unfold ready; cbn [body wake_at]; apply Qle_bool_iff; exact Hw ]. }
  cbn [activate] in E1. rewrite Hta, remove_nth_last in E1.
  rewrite idle_turn_follow in E1 by assumption.
  cbn [settle] in E1.
  cbn [probe_cfg set_tasks set_buffer tasks now] in E1.
  match type of E1 with _ = Some ?x => set (s1 := x) in * end.
  assert (E2 : step probe s1 (Tick (follow_interval (probe_cfg s)))
               = Some (set_now s1 (now s1 + follow_interval (probe_cfg s))%Q)).
  { unfold step.
    change (stopped s1) with (stopped s). rewrite Hsp.
    apply Qle_bool_iff in Hf. rewrite Hf. reflexivity. }
  eexists. split; [cbn [exec]; rewrite E1, E2; reflexivity |].
  split; [| repeat split].
  split; [exact Hsp |]. split; [exact Hst |].
  eexists. split; [reflexivity |].
  cbn [now set_now]. subst s1. cbn [now set_tasks set_buffer]. apply Qle_refl.
Qed.

Lemma loud_cycles (k : nat) : forall (c : Z) (s : LSM),
  idling_at pre c s -> (0 <= c)%Z ->
  (c + Z.of_nat k < start_count (probe_cfg s))%Z ->
  (0 <= follow_interval (probe_cfg s))%Q ->
  exists s',
    exec probe s
      (probe_cycles (List.length pre) io (follow_interval (probe_cfg s)) k)
    = Some s'
    /\ idling_at pre (c + Z.of_nat k) s' /\ probe_cfg s' = probe_cfg s
    /\ timers s' = timers s /\ crashed s' = crashed s.
Proof.
  induction k as [| k IH]; intros c s Hi Hc Hlt Hf.
  - exists s. split; [reflexivity |]. rewrite Z.add_0_r.
    split; [exact Hi | repeat split].
  - destruct (loud_cycle c s Hi Hc) as [s1 [E1 [Hi1 [Hcf1 [Hti1 Hcr1]]]]];
      [lia | exact Hf |].
    destruct (IH (c + 1)%Z s1 Hi1) as [s2 [E2 [Hi2 [Hcf2 [Hti2 Hcr2]]]]];
      [lia | rewrite Hcf1; lia | rewrite Hcf1; exact Hf |].
    exists s2. split.
    + unfold probe_cycles. cbn [repeat List.concat]. rewrite exec_app, E1.
      rewrite Hcf1 in E2. exact E2.
    + replace (c + Z.of_nat (S k))%Z with (c + 1 + Z.of_nat k)%Z by lia.
      split; [exact Hi2 |]. repeat split; congruence.
Qed.

Lemma idle_turn_start (c : Z) (s : LSM) :
  state s = PlayerState.IDLE -> (start_count (probe_cfg s) <= c + 1)%Z ->
  let res := idle_body probe io c s in
  fst res = Ok (Sleep (stream_interval (probe_cfg s)) (idle_monitor (c + 1)))
  /\ state (snd res) = PlayerState.PLAY
  /\ tasks (snd res) = tasks s ++ [{| wake_at := now s; body := stream_start |}]
  /\ timers (snd res) = timers s /\ now (snd res) = now s.
Proof.
  intros Hst Hge.
  unfold idle_body, SE.bind, SE.get, SE.lift, SE.modify, SE.ret.
  rewrite Hst, Hread. cbn [PlayerState.eqb]. rewrite Hprobe, Hhigh.
  cbn [probe_cfg set_buffer].
  destruct (Z.geb_spec (c + 1) (start_count (probe_cfg s))) as [_ | Hlt]; [| lia].
  unfold set_state, create_task, SE.modify. cbn.
  destruct (dbus s); cbn; repeat split.
Qed.

(** The controller starts playback at exactly the [start_count]-th
    consecutive probe above high: with [start_count = n + 1], it is still
    in IDLE after each of the first [n] probes, and the next one puts it in
    PLAY, creates [_stream] and leaves [_idle] waiting to create
    [_monitor]; the other tasks and the timers are untouched. *)
Theorem play_at_start_count (n : nat) (s : LSM) :
  idling_at pre 0 s ->
  start_count (probe_cfg s) = Z.of_nat (S n) ->
  (0 <= follow_interval (probe_cfg s))%Q ->
  (forall k, k <= n ->
     state_after probe s
       (probe_cycles (List.length pre) io (follow_interval (probe_cfg s)) k)
     = Some PlayerState.IDLE)
  /\ state_after probe s
       (probe_cycles (List.length pre) io (follow_interval (probe_cfg s)) n
        ++ [Resume (List.length pre) io])
     = Some PlayerState.PLAY
  /\ handlers_after probe s
       (probe_cycles (List.length pre) io (follow_interval (probe_cfg s)) n
        ++ [Resume (List.length pre) io])
     = Some (map body pre ++ [stream_start; idle_monitor (Z.of_nat (S n))],
             map target (timers s)).
Proof.
  intros Hi Hn Hf. split.
  - intros k Hk.
    destruct (loud_cycles k 0%Z s Hi) as [s' [E [[_ [Hst _]] _]]];
      [lia | lia | exact Hf |].
    unfold state_after. rewrite E. cbn [option_map]. rewrite Hst. reflexivity.
  - destruct (loud_cycles n 0%Z s Hi) as [s' [E [Hi' [Hcf [Hti _]]]]];
      [lia | lia | exact Hf |].
    destruct Hi' as [Hsp [Hst [w [Hta Hw]]]].
    assert (E1 : step probe s' (Resume (List.length pre) io)
                 = Some (settle (activate probe (idle (0 + Z.of_nat n)) io
                                   (set_tasks s' (remove_nth (List.length pre)
                                                    (tasks s')))))).
    { apply (step_resume probe s' _ io
               {| wake_at := w; body := idle (0 + Z.of_nat n) |});
        [ exact Hsp | rewrite Hta; apply nth_error_last
        | unfold ready; cbn [body wake_at]; apply Qle_bool_iff; exact Hw ]. }
    cbn [activate] in E1. rewrite Hta, remove_nth_last in E1.
    destruct (idle_turn_start (0 + Z.of_nat n) (set_tasks s' pre))
      as [F [Fst [Fta [Fti _]]]]; [exact Hst | cbn [probe_cfg set_tasks]; rewrite Hcf; lia |].
    destruct (idle_body probe io (0 + Z.of_nat n) (set_tasks s' pre)) as [res s2].
    cbn [fst snd] in F, Fst, Fta, Fti. subst res. cbn [settle] in E1.
    unfold state_after, handlers_after. rewrite !exec_app, E. cbn [exec].
    rewrite E1. cbn [option_map state tasks timers set_tasks].
    rewrite Fst, Fta, Fti. cbn [tasks timers set_tasks].
    split; [reflexivity |].
    rewrite Hti, <- app_assoc, !map_app. cbn [map body app].
    do 6 f_equal. lia.
Qed.

(** One probe that is not above high sets the counter back to 0,
    however many probes above high came before it: the state stays IDLE,
    the buffer read is stored, and [_idle] sleeps [idle_interval] from
    the time of the probe, after which it counts from 0 again; nothing
    else of the tasks and timers changes. *)
Theorem quiet_probe_resets (k : nat) (s : LSM) (ioq : ports) (bq : bytes)
  (rq : CompResult.t) :
  idling_at pre 0 s ->
  (Z.of_nat k < start_count (probe_cfg s))%Z ->
  (0 <= follow_interval (probe_cfg s))%Q ->
  capture_read ioq = Ok bq -> probe bq = Ok rq -> CompResult.high rq = false ->
  exists s',
    exec probe s
      (probe_cycles (List.length pre) io (follow_interval (probe_cfg s)) k
       ++ [Resume (List.length pre) ioq])
    = Some s'
    /\ state s' = PlayerState.IDLE
    /\ _buffer s' = bq
    /\ tasks s'
       = pre ++ [{| wake_at := (now s' + idle_interval (probe_cfg s))%Q;
                    body := idle 0 |}]
    /\ timers s' = timers s
    /\ stopped s' = false.
Proof.
  intros Hi Hk Hf Hrq Hpq Hhq.
  destruct (loud_cycles k 0%Z s Hi) as [s' [E [Hi' [Hcf [Hti _]]]]];
    [lia | lia | exact Hf |].
  destruct Hi' as [Hsp [Hst [w [Hta Hw]]]].
  assert (E1 : step probe s' (Resume (List.length pre) ioq)
               = Some (settle (activate probe (idle (0 + Z.of_nat k)) ioq
                                 (set_tasks s' (remove_nth (List.length pre)
                                                  (tasks s')))))).
  { apply (step_resume probe s' _ ioq
             {| wake_at := w; body := idle (0 + Z.of_nat k) |});
      [ exact Hsp | rewrite Hta; apply nth_error_last
      | unfold ready; cbn [body wake_at]; apply Qle_bool_iff; exact Hw ]. }
  cbn [activate] in E1. rewrite Hta, remove_nth_last in E1.
  rewrite (idle_cycle_not_above_high probe ioq _ _ bq rq) in E1;
    [ | exact Hst | exact Hrq | exact Hpq | exact Hhq
      | cbn [probe_cfg set_tasks]; rewrite Hcf; lia ].
  cbn [settle] in E1.
  eexists. split; [rewrite exec_app, E; cbn [exec]; rewrite E1; reflexivity |].
  cbn [state _buffer tasks timers stopped now probe_cfg set_tasks set_buffer].
  rewrite Hst, Hti, Hcf, Hsp. repeat split.
Qed.

End CountFacts.

Section CountRuns.
Import Py MemScope Loop Invariant.
Local Open Scope nat_scope.

(** The state [idling] is the one the controller is in after its start
    and the timer of the first PLAY. *)
Lemma idling_reached :
  exec level_probe (boot run_cfg)
    [Resume 0 (working_ports [xff%byte]); Tick (1 # 4); Fire 0]
  = Some idling.
Proof. vm_compute. reflexivity. Qed.

Lemma idling_at_idling :
  idling_at [{| wake_at := 0; body := run_get |}] 0 idling.
Proof.
  split; [reflexivity |]. split; [reflexivity |].
  exists (1 # 4)%Q. split; [reflexivity | apply Qle_refl].
Qed.

Lemma play_at_start_count_witness :
  capture_read (working_ports [xff%byte]) = Ok [xff%byte]
  /\ level_probe [xff%byte] = Ok {| CompResult.low := false; CompResult.high := true |}
  /\ idling_at [{| wake_at := 0; body := run_get |}] 0 idling
  /\ start_count (probe_cfg idling) = Z.of_nat 3
  /\ (0 <= follow_interval (probe_cfg idling))%Q
  /\ (forall k, k <= 2 ->
        state_after level_probe idling
          (probe_cycles 1 (working_ports [xff%byte])
             (follow_interval (probe_cfg idling)) k)
        = Some PlayerState.IDLE)
  /\ state_after level_probe idling
       (probe_cycles 1 (working_ports [xff%byte])
          (follow_interval (probe_cfg idling)) 2
        ++ [Resume 1 (working_ports [xff%byte])])
     = Some PlayerState.PLAY
  /\ handlers_after level_probe idling
       (probe_cycles 1 (working_ports [xff%byte])
          (follow_interval (probe_cfg idling)) 2
        ++ [Resume 1 (working_ports [xff%byte])])
     = Some ([run_get; stream_start; idle_monitor 3], []).
Proof.
  split; [reflexivity |]. split; [reflexivity |].
  split; [exact idling_at_idling |]. split; [reflexivity |].
  split; [discriminate |].
  apply (play_at_start_count level_probe (working_ports [xff%byte]) [xff%byte]
           {| CompResult.low := false; CompResult.high := true |}
           [{| wake_at := 0; body := run_get |}]
           eq_refl eq_refl eq_refl 2%nat idling idling_at_idling eq_refl).
  discriminate.
Defined.

Lemma quiet_probe_resets_witness :
  capture_read (working_ports [xff%byte]) = Ok [xff%byte]
  /\ level_probe [xff%byte] = Ok {| CompResult.low := false; CompResult.high := true |}
  /\ idling_at [{| wake_at := 0; body := run_get |}] 0 idling
  /\ (Z.of_nat 2 < start_count (probe_cfg idling))%Z
  /\ (0 <= follow_interval (probe_cfg idling))%Q
  /\ capture_read (working_ports [x00%byte]) = Ok [x00%byte]
  /\ level_probe [x00%byte] = Ok {| CompResult.low := true; CompResult.high := false |}
  /\ exists s',
       exec level_probe idling
         (probe_cycles 1 (working_ports [xff%byte])
            (follow_interval (probe_cfg idling)) 2
          ++ [Resume 1 (working_ports [x00%byte])])
       = Some s'
       /\ state s' = PlayerState.IDLE
       /\ _buffer s' = [x00%byte]
       /\ tasks s'
          = [{| wake_at := 0; body := run_get |}]
            ++ [{| wake_at := (now s' + idle_interval (probe_cfg idling))%Q;
                   body := idle 0 |}]
       /\ timers s' = timers idling
       /\ stopped s' = false.
Proof.
  split; [reflexivity |]. split; [reflexivity |].
  split; [exact idling_at_idling |]. split; [reflexivity |].
  split; [discriminate |]. split; [reflexivity |]. split; [reflexivity |].
  apply (quiet_probe_resets level_probe (working_ports [xff%byte]) [xff%byte]
           {| CompResult.low := false; CompResult.high := true |}
           [{| wake_at := 0; body := run_get |}]
           eq_refl eq_refl eq_refl 2%nat idling (working_ports [x00%byte])
           [x00%byte] {| CompResult.low := true; CompResult.high := false |}
           idling_at_idling);
    try reflexivity.
  discriminate.
Defined.

End CountRuns.

Section StopFacts.
Import Py MemScope Loop Invariant.
Local Open Scope nat_scope.

Variable probe : bytes -> result CompResult.t.
Variable io : ports.
Variable r : CompResult.t.
Variable pre : list task.
Hypothesis Hlow : CompResult.low r = true.

Lemma monitor_turn_follow (c : Z) (s : LSM) :
  state s = PlayerState.PLAY -> probe (_buffer s) = Ok r -> (0 <= c)%Z ->
  (c + 1 < stop_count (probe_cfg s))%Z ->
  monitor_body probe c s
  = (Ok (Sleep (follow_interval (probe_cfg s)) (monitor (c + 1))), s).
Proof.
  intros Hst Hp Hc Hlt.
  unfold monitor_body, SE.bind, SE.get, SE.lift, SE.ret.
  rewrite Hst. cbn [PlayerState.eqb]. rewrite Hp, Hlow.
  destruct (Z.geb_spec (c + 1) (stop_count (probe_cfg s))) as [Hge | _]; [lia |].
  destruct (Z.gtb_spec (c + 1) 0) as [_ | Hle]; [reflexivity | lia].
Qed.

Lemma monitor_turn_stop (c : Z) (s : LSM) :
  state s = PlayerState.PLAY -> probe (_buffer s) = Ok r ->
  (stop_count (probe_cfg s) <= c + 1)%Z ->
  let res := monitor_body probe c s in
  fst res = Ok (Sleep (idle_interval (probe_cfg s)) (monitor_idle (c + 1)))
  /\ state (snd res) = PlayerState.IDLE
  /\ tasks (snd res) = tasks s /\ timers (snd res) = timers s
  /\ playback_handles (snd res) = playback_handles s.
Proof.
  intros Hst Hp Hge.
  unfold monitor_body, SE.bind, SE.get, SE.lift, SE.ret.
  rewrite Hst. cbn [PlayerState.eqb]. rewrite Hp, Hlow.
  destruct (Z.geb_spec (c + 1) (stop_count (probe_cfg s))) as [_ | Hlt]; [| lia].
  unfold set_state, SE.modify. cbn.
  destruct (dbus s); cbn; repeat split.
Qed.

Lemma silent_cycle (c : Z) (s : LSM) :
  monitoring_at pre c s -> probe (_buffer s) = Ok r -> (0 <= c)%Z ->
  (c + 1 < stop_count (probe_cfg s))%Z ->
  (0 <= follow_interval (probe_cfg s))%Q ->
  exists s',
    exec probe s [Resume (List.length pre) io;
                  Tick (follow_interval (probe_cfg s))]
    = Some s'
    /\ monitoring_at pre (c + 1) s' /\ probe_cfg s' = probe_cfg s
    /\ _buffer s' = _buffer s /\ timers s' = timers s
    /\ playback_handles s' = playback_handles s.
Proof.
  intros [Hsp [Hst [w [Hta Hw]]]] Hp Hc Hlt Hf.
  assert (E1 : step probe s (Resume (List.length pre) io)
               = Some (settle (activate probe (monitor c) io
                                 (set_tasks s (remove_nth (List.length pre) (tasks s)))))).
  { apply (step_resume probe s _ _ {| wake_at := w; body := monitor c |});
      [ exact Hsp | rewrite Hta; apply nth_error_last
      | unfold ready; cbn [body wake_at]; apply Qle_bool_iff; exact Hw ]. }
  cbn [activate] in E1. rewrite Hta, remove_nth_last in E1.
  rewrite monitor_turn_follow in E1 by assumption.
  cbn [settle] in E1.
  cbn [probe_cfg set_tasks tasks now] in E1.
  match type of E1 with _ = Some ?x => set (s1 := x) in * end.
  assert (E2 : step probe s1 (Tick (follow_interval (probe_cfg s)))
               = Some (set_now s1 (now s1 + follow_interval (probe_cfg s))%Q)).
  { unfold step.
    change (stopped s1) with (stopped s). rewrite Hsp.
    apply Qle_bool_iff in Hf. rewrite Hf. reflexivity. }
  eexists. split; [cbn [exec]; rewrite E1, E2; reflexivity |].
  split; [| repeat split].
  split; [exact Hsp |]. split; [exact Hst |].
  eexists. split; [reflexivity |].
  cbn [now set_now]. subst s1. cbn [now set_tasks]. apply Qle_refl.
Qed.

Lemma silent_cycles (k : nat) : forall (c : Z) (s : LSM),
  monitoring_at pre c s -> probe (_buffer s) = Ok r -> (0 <= c)%Z ->
  (c + Z.of_nat k < stop_count (probe_cfg s))%Z ->
  (0 <= follow_interval (probe_cfg s))%Q ->
  exists s',
    exec probe s
      (probe_cycles (List.length pre) io (follow_interval (probe_cfg s)) k)
    = Some s'
    /\ monitoring_at pre (c + Z.of_nat k) s' /\ probe_cfg s' = probe_cfg s
    /\ _buffer s' = _buffer s /\ timers s' = timers s
    /\ playback_handles s' = playback_handles s.
Proof.
  induction k as [| k IH]; intros c s Hi Hp Hc Hlt Hf.
  - exists s. split; [reflexivity |]. rewrite Z.add_0_r.
    split; [exact Hi | repeat split].
  - destruct (silent_cycle c s Hi Hp Hc) as [s1 [E1 [Hi1 [Hcf1 [Hb1 [Hti1 Hh1]]]]]];
      [lia | exact Hf |].
    destruct (IH (c + 1)%Z s1 Hi1) as [s2 [E2 [Hi2 [Hcf2 [Hb2 [Hti2 Hh2]]]]]];
      [rewrite Hb1; exact Hp | lia | rewrite Hcf1; lia | rewrite Hcf1; exact Hf |].
    exists s2. split.
    + unfold probe_cycles. cbn [repeat List.concat]. rewrite exec_app, E1.
      rewrite Hcf1 in E2. exact E2.
    + replace (c + Z.of_nat (S k))%Z with (c + 1 + Z.of_nat k)%Z by lia.
      split; [exact Hi2 |]. repeat split; congruence.
Qed.

(** The controller leaves PLAY at exactly the [stop_count]-th
    consecutive probe below low: with [stop_count = n + 1] and a buffer
    that stays below low, it is still in PLAY after each of the first [n]
    probes of [_monitor], and the next one puts it in IDLE and leaves
    [_monitor] waiting to create [_idle].  The probe closes nothing: the
    other tasks, [_stream] among them, and the open playback devices are
    as they were. *)
Theorem idle_at_stop_count (n : nat) (s : LSM) :
  monitoring_at pre 0 s ->
  probe (_buffer s) = Ok r ->
  stop_count (probe_cfg s) = Z.of_nat (S n) ->
  (0 <= follow_interval (probe_cfg s))%Q ->
  (forall k, k <= n ->
     state_after probe s
       (probe_cycles (List.length pre) io (follow_interval (probe_cfg s)) k)
     = Some PlayerState.PLAY)
  /\ state_after probe s
       (probe_cycles (List.length pre) io (follow_interval (probe_cfg s)) n
        ++ [Resume (List.length pre) io])
     = Some PlayerState.IDLE
  /\ handlers_after probe s
       (probe_cycles (List.length pre) io (follow_interval (probe_cfg s)) n
        ++ [Resume (List.length pre) io])
     = Some (map body pre ++ [monitor_idle (Z.of_nat (S n))],
             map target (timers s))
  /\ option_map playback_handles
       (exec probe s
          (probe_cycles (List.length pre) io (follow_interval (probe_cfg s)) n
           ++ [Resume (List.length pre) io]))
     = Some (playback_handles s).
Proof.
  intros Hi Hp Hn Hf. split.
  - intros k Hk.
    destruct (silent_cycles k 0%Z s Hi Hp) as [s' [E [[_ [Hst _]] _]]];
      [lia | lia | exact Hf |].
    unfold state_after. rewrite E. cbn [option_map]. rewrite Hst. reflexivity.
  - destruct (silent_cycles n 0%Z s Hi Hp) as [s' [E [Hi' [Hcf [Hb [Hti Hh]]]]]];
      [lia | lia | exact Hf |].
    destruct Hi' as [Hsp [Hst [w [Hta Hw]]]].
    assert (E1 : step probe s' (Resume (List.length pre) io)
                 = Some (settle (activate probe (monitor (0 + Z.of_nat n)) io
                                   (set_tasks s' (remove_nth (List.length pre)
                                                    (tasks s')))))).
    { apply (step_resume probe s' _ io
               {| wake_at := w; body := monitor (0 + Z.of_nat n) |});
        [ exact Hsp | rewrite Hta; apply nth_error_last
        | unfold ready; cbn [body wake_at]; apply Qle_bool_iff; exact Hw ]. }
    cbn [activate] in E1. rewrite Hta, remove_nth_last in E1.
    destruct (monitor_turn_stop (0 + Z.of_nat n) (set_tasks s' pre))
      as [F [Fst [Fta [Fti Fh]]]];
      [ exact Hst | cbn [_buffer set_tasks]; rewrite Hb; exact Hp
      | cbn [probe_cfg set_tasks]; rewrite Hcf; lia |].
    destruct (monitor_body probe (0 + Z.of_nat n) (set_tasks s' pre)) as [res s2].
    cbn [fst snd] in F, Fst, Fta, Fti, Fh. subst res. cbn [settle] in E1.
    unfold state_after, handlers_after. rewrite !exec_app, E. cbn [exec].
    rewrite E1. cbn [option_map state tasks timers set_tasks playback_handles].
    rewrite Fst, Fta, Fti, Fh. cbn [tasks timers set_tasks playback_handles].
    split; [reflexivity |]. split; [| rewrite Hh; reflexivity].
    rewrite Hti, !map_app. cbn [map body].
    do 5 f_equal. lia.
Qed.

End StopFacts.

Section StopRuns.
Import Py MemScope Loop Invariant.
Local Open Scope nat_scope.

(** The state [monitoring] is reached from the start by three probes
    above high followed by a silent capture. *)
Lemma monitoring_reached :
  exec level_probe (boot run_cfg)
    [Resume 0 (working_ports [xff%byte]); Tick (1 # 4); Fire 0;
     Resume 1 (working_ports [xff%byte]); Tick (1 # 10);
     Resume 1 (working_ports [xff%byte]); Tick (1 # 10);
     Resume 1 (working_ports [xff%byte]);
     Resume 1 (working_ports [x00%byte]); Tick 1;
     Resume 1 (working_ports [x00%byte])]
  = Some monitoring.
Proof. vm_compute. reflexivity. Qed.

Lemma monitoring_at_monitoring :
  monitoring_at [{| wake_at := 0; body := run_get |};
                 {| wake_at := 180400 # 400000; body := stream_loop |}]
    0 monitoring.
Proof.
  split; [reflexivity |]. split; [reflexivity |].
  exists (580 # 400)%Q. split; [reflexivity | apply Qle_refl].
Qed.

Lemma idle_at_stop_count_witness :
  CompResult.low {| CompResult.low := true; CompResult.high := false |} = true
  /\ monitoring_at [{| wake_at := 0; body := run_get |};
                    {| wake_at := 180400 # 400000; body := stream_loop |}]
       0 monitoring
  /\ level_probe (_buffer monitoring)
     = Ok {| CompResult.low := true; CompResult.high := false |}
  /\ stop_count (probe_cfg monitoring) = Z.of_nat 5
  /\ (0 <= follow_interval (probe_cfg monitoring))%Q
  /\ (forall k, k <= 4 ->
        state_after level_probe monitoring
          (probe_cycles 2 (working_ports [x00%byte])
             (follow_interval (probe_cfg monitoring)) k)
        = Some PlayerState.PLAY)
  /\ state_after level_probe monitoring
       (probe_cycles 2 (working_ports [x00%byte])
          (follow_interval (probe_cfg monitoring)) 4
        ++ [Resume 2 (working_ports [x00%byte])])
     = Some PlayerState.IDLE
  /\ handlers_after level_probe monitoring
       (probe_cycles 2 (working_ports [x00%byte])
          (follow_interval (probe_cfg monitoring)) 4
        ++ [Resume 2 (working_ports [x00%byte])])
     = Some ([run_get; stream_loop; monitor_idle 5], [])
  /\ option_map playback_handles
       (exec level_probe monitoring
          (probe_cycles 2 (working_ports [x00%byte])
             (follow_interval (probe_cfg monitoring)) 4
           ++ [Resume 2 (working_ports [x00%byte])]))
     = Some 1.
Proof.
  split; [reflexivity |]. split; [exact monitoring_at_monitoring |].
  split; [reflexivity |]. split; [reflexivity |]. split; [discriminate |].
  apply (idle_at_stop_count level_probe (working_ports [x00%byte])
           {| CompResult.low := true; CompResult.high := false |}
           [{| wake_at := 0; body := run_get |};
            {| wake_at := 180400 # 400000; body := stream_loop |}]
           eq_refl 4%nat monitoring monitoring_at_monitoring eq_refl eq_refl).
  discriminate.
Defined.

End StopRuns.

(** ** The probe on digital silence *)

Section SilenceFacts.
Import Py Format MemScope Threshold ProbeView.
Local Open Scope Z_scope.

Lemma zero_firstn (n : nat) (bs : bytes) : zero bs -> zero (firstn n bs).
Proof.
  unfold zero. revert bs. induction n as [| n IH]; intros [| b bs] H; cbn;
    try constructor; inversion H; subst; auto.
Qed.

Lemma zero_skipn (n : nat) (bs : bytes) : zero bs -> zero (skipn n bs).
Proof.
  unfold zero. revert bs. induction n as [| n IH]; intros [| b bs] H; cbn;
    try assumption. inversion H; subst; auto.
Qed.

Lemma zero_rev (bs : bytes) : zero bs -> zero (rev bs).
Proof. unfold zero. apply Forall_rev. Qed.

Lemma le_uint_zero (bs : bytes) : zero bs -> le_uint bs = 0.
Proof.
  unfold zero. induction 1 as [| b bs Hb _ IH]; [reflexivity |].
  subst b. cbn [le_uint fold_right] in *. unfold le_uint in IH. rewrite IH.
  reflexivity.
Qed.

Lemma unpack_item_zero (o : byte_order) (c : code) (bs : bytes) :
  zero bs -> c <> c_c -> unpack_item o c bs = PyInt 0.
Proof.
  intros Hz Hc. unfold unpack_item.
  assert (E : match o with Big => le_uint (rev bs) | _ => le_uint bs end = 0)
    by (destruct o; apply le_uint_zero; try apply zero_rev; exact Hz).
  rewrite E. destruct c; try reflexivity. contradiction.
Qed.

Lemma unpack_items_zero (o : byte_order) (c : code) (n : nat) :
  forall bs : bytes,
    zero bs -> c <> c_c ->
    unpack_items o (repeat c n) bs = repeat (PyInt 0) n.
Proof.
  induction n as [| n IH]; intros bs Hz Hc; [reflexivity |].
  cbn [repeat unpack_items].
  rewrite unpack_item_zero by (try apply zero_firstn; assumption).
  rewrite IH by (try apply zero_skipn; assumption). reflexivity.
Qed.

Lemma read_zero (b : BytesIO) (sz : Z) :
  zero (bio_data b) ->
  zero (fst (read b sz)) /\ bio_data (snd (read b sz)) = bio_data b.
Proof.
  intros Hz. unfold read. cbn [fst snd bio_data]. split; [| reflexivity].
  destruct (sz <? 0); [| apply zero_firstn]; apply zero_skipn; exact Hz.
Qed.

(** The padding of a signed format keeps a field of zero bytes zero. *)
Lemma padding_zero (sz : Z) (e : option string) (x y : bytes) :
  zero x -> padding_of true sz e x = Ok y -> zero y.
Proof.
  intros Hz. unfold padding_of, padding_t.
  assert (Hfill : forall p, sign_fill x = Ok p -> zero p).
  { unfold sign_fill, getitem. intros p.
    destruct (nth_error x 2) as [b |] eqn:En; cbn [bind]; [| discriminate].
    assert (Hb : b = x00%byte).
    { unfold zero in Hz. rewrite Forall_forall in Hz. apply Hz.
      eapply nth_error_In. exact En. }
    subst b. intros H. injection H as <-. repeat constructor. }
  assert (Hid : Ok x = Ok y -> zero y) by (intros H; injection H as <-; exact Hz).
  destruct sz as [| [[| | ] | [| | ] | ] | ]; try exact Hid.
  destruct e as [e |]; try exact Hid.
  destruct (String.eqb e "LE").
  - destruct (sign_fill x) as [p |] eqn:Ep; cbn [bind]; [| discriminate].
    pose proof (Hfill p eq_refl) as Hp. intros H. injection H as <-.
    apply Forall_app. split; assumption.
  - destruct (String.eqb e "BE"); try exact Hid.
    destruct (sign_fill x) as [p |] eqn:Ep; cbn [bind]; [| discriminate].
    pose proof (Hfill p eq_refl) as Hp. intros H. injection H as <-.
    apply Forall_app. split; assumption.
Qed.

Lemma read_channels_zero (sz0 : Z) (e : option string) (sz : Z) (n : nat) :
  forall (b : BytesIO) (chunk c' : bytes) (b' : BytesIO),
    zero (bio_data b) -> zero chunk ->
    read_channels n (padding_of true sz0 e) sz b chunk = (Ok c', b') ->
    zero c' /\ bio_data b' = bio_data b.
Proof.
  induction n as [| n IH]; intros b chunk c' b' Hz Hc H.
  - cbn [read_channels] in H. injection H as <- <-. split; [exact Hc | reflexivity].
  - cbn [read_channels] in H.
    destruct (read_zero b sz Hz) as [Hx Hd].
    destruct (read b sz) as [x b1]. cbn [fst snd] in Hx, Hd.
    destruct (padding_of true sz0 e x) as [y |] eqn:Ey; [| discriminate H].
    destruct (IH b1 (chunk ++ y) c' b') as [H1 H2].
    + rewrite Hd. exact Hz.
    + apply Forall_app. split; [exact Hc | eapply padding_zero; eassumption].
    + exact H.
    + split; [exact H1 | rewrite H2; exact Hd].
Qed.

Lemma next_zero (ms ms' : MemScope) (o : byte_order) (c : code) (n : nat)
  (f : list pyval) :
  silent_scope ms o c n -> next ms = (Ok f, ms') ->
  f = repeat (PyInt 0) n /\ silent_scope ms' o c n.
Proof.
  intros [Hwf [Hz [Hc [Hr [Hpos [sz0 [e Hp]]]]]]] H.
  pose proof Hwf as [Hst [Hn _]].
  unfold next in H. rewrite Hn, Hp in H.
  destruct (read_channels n (padding_of true sz0 e) (size (dev_cfg ms))
              (buffer ms) []) as [[chunk | x] b'] eqn:E.
  - destruct (read_channels_zero sz0 e _ n _ _ _ _ Hz (Forall_nil _) E) as [Hck Hd].
    cbn [bind] in H. unfold unpack in H. rewrite Hst in H.
    cbn [st_order st_codes] in H.
    destruct (Nat.eqb (List.length chunk) _); cbn [try_except] in H.
    + injection H as <- <-. split; [apply unpack_items_zero; assumption |].
      split; [apply scope_for_set_buffer; exact Hwf |].
      cbn [MemScope.set_buffer buffer dev_cfg padding]. rewrite Hd.
      repeat split; try assumption. exists sz0, e. exact Hp.
    + cbn in H. discriminate H.
  - cbn [bind try_except] in H. destruct (existsb _ _); discriminate H.
Qed.

Lemma deviations_zero (n : nat) :
  deviations 0 (repeat (PyInt 0) n) = Ok (repeat 0 n).
Proof.
  induction n as [| n IH]; [reflexivity |].
  cbn [repeat deviations deviation bind]. rewrite IH. reflexivity.
Qed.

Lemma probe_data_zero (o : byte_order) (c : code) (k : nat) (n : nat) :
  forall ms : MemScope,
    silent_scope ms o c k ->
    exists m : nat,
      probe_data n ms = Ok (repeat 0 m)
      /\ ((1 <= n)%nat -> (1 <= k)%nat ->
          (k * Z.to_nat (size (dev_cfg ms)) <= remaining (buffer ms))%nat ->
          (1 <= m)%nat).
Proof.
  induction n as [| n IH]; intros ms Hs.
  - exists 0%nat. split; [reflexivity | lia].
  - pose proof Hs as [Hwf [Hz [Hc [Hr [Hpos _]]]]].
    cbn [probe_data].
    destruct (Nat.le_gt_cases (k * Z.to_nat (size (dev_cfg ms)))
                (remaining (buffer ms))) as [Hfull | Hshort].
    + destruct (next_full ms o c k Hwf Hfull) as [f [ms' [E _]]].
      rewrite E.
      destruct (next_zero ms ms' o c k f Hs E) as [-> Hs'].
      destruct (IH ms' Hs') as [m [Em _]].
      rewrite Hr, deviations_zero, Em. cbn [bind].
      exists (k + m)%nat. rewrite repeat_app. split; [reflexivity | lia].
    + destruct (next_short ms o c k Hwf Hpos Hshort) as [ms' E].
      rewrite E. exists 0%nat. split; [reflexivity | lia].
Qed.

Lemma sorted_zero (m : nat) : sorted (repeat 0 m) = repeat 0 m.
Proof.
  induction m as [| m IH]; [reflexivity |].
  cbn [repeat]. unfold sorted in *. cbn [fold_right]. rewrite IH.
  destruct m; reflexivity.
Qed.

Lemma median_zero (m : nat) :
  (1 <= m)%nat -> exists q, median (repeat 0 m) = Ok q /\ Q2R q = 0%R.
Proof.
  intros Hm. unfold median. rewrite sorted_zero, repeat_length.
  destruct (Nat.eqb_spec m 0) as [E | _]; [lia |].
  rewrite !nth_repeat.
  destruct (Nat.odd m); eexists; (split; [reflexivity |]);
    unfold Q2R; cbn; lra.
Qed.

(** Digital silence in a signed format: on a buffer of zero bytes that
    holds at least one frame, with a nonzero sensitivity of at most 6000
    dB, a full-scale amplitude of at most 32 bits and a sample count of
    at least 1, the probe answers below low and not above high, so
    silence never counts towards starting playback and always counts
    towards stopping it. *)
Theorem silence_is_low (cfg : AlsaDeviceConfig) (sens : R) (sample_size : Z)
  (len : nat) :
  signed cfg = true -> reference cfg = 0 ->
  1 <= size cfg <= 4 ->
  endian cfg = Some "LE"%string \/ endian cfg = Some "BE"%string ->
  1 <= channels cfg ->
  sample_amplitude (maxamp cfg) -> sens <> 0%R -> float_level sens ->
  1 <= sample_size ->
  (Z.to_nat (channels cfg * size cfg) <= len)%nat ->
  probe cfg (probe_setter (maxamp cfg) sens) sample_size (repeat x00%byte len)
  = Ok {| CompResult.low := true; CompResult.high := false |}.
Proof.
  intros Hsg Href Hsz He Hch [Hma _] Hsens _ Hn Hlen.
  destruct (init_scope (repeat x00%byte len) cfg Hsz He)
    as [ms [o [c [Ei [Hwf [Hcfg Hbuf]]]]]].
  assert (Hc : c <> c_c /\ padding (iter ms) = padding_of true (size cfg) (endian cfg)).
  { unfold MemScope_init, _struct_str in Ei.
    destruct (endian_t (endian cfg)) as [o' |]; [| discriminate Ei].
    destruct (struct_t (signed cfg) (size cfg)) as [c' |] eqn:Ec; [| discriminate Ei].
    cbn [bind] in Ei. injection Ei as <-.
    destruct Hwf as [Hst _]. cbn in Hst.
    assert (Hcc : c' = c).
    { destruct (Z.to_nat (channels cfg)) eqn:En; [lia |].
      cbn [repeat] in Hst. congruence. }
    subst c'. rewrite Hsg in *. split; [| reflexivity].
    intros ->.
    assert (H : size cfg = 1 \/ size cfg = 2 \/ size cfg = 3 \/ size cfg = 4) by lia.
    destruct H as [E | [E | [E | E]]]; rewrite E in Ec; discriminate Ec. }
  destruct Hc as [Hc Hp].
  assert (Hs : silent_scope (iter ms) o c (Z.to_nat (channels cfg))).
  { split; [exact Hwf |]. rewrite Hbuf, Hcfg. cbn [bio_data BytesIO_new].
    split; [apply Forall_forall; intros x Hx; apply repeat_spec in Hx; exact Hx |].
    split; [exact Hc |]. split; [exact Href |]. split; [lia |].
    exists (size cfg), (endian cfg). exact Hp. }
  destruct (probe_data_zero o c _ (Z.to_nat sample_size) (iter ms) Hs)
    as [m [Em Hm]].
  destruct (median_zero m) as [q [Eq Hq]].
  { apply Hm; [lia | lia |].
    rewrite Hcfg, Hbuf. unfold remaining. cbn [bio_data bio_pos BytesIO_new].
    rewrite repeat_length. rewrite Z2Nat.inj_mul in Hlen by lia. lia. }
  unfold probe. rewrite Ei. cbn [bind].
  destruct (Z.ltb_spec sample_size 0) as [Hneg | _]; [lia |]. cbn [bind].
  rewrite Em. cbn [bind]. rewrite Eq. cbn [bind]. rewrite Hq.
  destruct (probe_setter_inverted (maxamp cfg) sens Hma Hsens) as [Hlt [_ Hpos]].
  unfold comp.
  destruct (Rle_dec 0 (low (probe_setter (maxamp cfg) sens))) as [_ | Hn1]; [| lra].
  destruct (Rge_dec 0 (high (probe_setter (maxamp cfg) sens))) as [Hge | _]; [lra |].
  reflexivity.
Qed.

Lemma silence_is_low_witness :
  let cfg := {| pcm_name := "default"; format := "PCM_FORMAT_S16_LE"; size := 2;
                signed := true; endian := Some "LE"%string; channels := 2;
                rate := 48000; frame_size := 4; period_size := 1024;
                period_time := 1024 # 48000; maxamp := 32768; reference := 0 |} in
  sample_amplitude (maxamp cfg) /\ (- 10 <> 0)%R /\ float_level (- 10)%R
  /\ (Z.to_nat (channels cfg * size cfg) <= 8)%nat
  /\ probe cfg (probe_setter (maxamp cfg) (- 10)%R) 40 (repeat x00%byte 8)
     = Ok {| CompResult.low := true; CompResult.high := false |}.
Proof.
  cbv zeta.
  assert (Hl : float_level (- 10)%R)
    by (unfold float_level, Rabs; destruct (Rcase_abs _); lra).
  split; [unfold sample_amplitude; cbn; lia |].
  split; [lra |]. split; [exact Hl |]. split; [cbn; lia |].
  apply (silence_is_low
           {| pcm_name := "default"; format := "PCM_FORMAT_S16_LE"; size := 2;
              signed := true; endian := Some "LE"%string; channels := 2;
              rate := 48000; frame_size := 4; period_size := 1024;
              period_time := 1024 # 48000; maxamp := 32768; reference := 0 |}
           (- 10)%R 40 8%nat).
  - reflexivity.
  - reflexivity.
  - cbn; lia.
  - left; reflexivity.
  - cbn; lia.
  - unfold sample_amplitude; cbn; lia.
  - lra.
  - exact Hl.
  - lia.
  - cbn; lia.
Defined.

End SilenceFacts.

(** ** The probe looks at the first frames only *)

Section PrefixFacts.
Import Py Format MemScope Threshold ProbeView.
Local Open Scope nat_scope.

Lemma firstn_skipn_prefix {A : Type} (n p : nat) (d x : list A) :
  p + n <= List.length d ->
  firstn n (skipn p (d ++ x)) = firstn n (skipn p d).
Proof.
  intros H. rewrite skipn_app, firstn_app, length_skipn.
  replace (n - (List.length d - p)) with 0 by lia.
  cbn [firstn]. apply app_nil_r.
Qed.

Lemma read_prefix (d : bytes) (b1 b2 : BytesIO) (sz : Z) :
  same_data d b1 b2 -> (0 <= sz)%Z ->
  bio_pos b2 + Z.to_nat sz <= List.length d ->
  fst (read b1 sz) = fst (read b2 sz)
  /\ same_data d (snd (read b1 sz)) (snd (read b2 sz))
  /\ bio_pos (snd (read b2 sz)) <= bio_pos b2 + Z.to_nat sz.
Proof.
  intros [Hp [Hd [x Hx]]] Hsz Hle. unfold read.
  destruct (Z.ltb_spec sz 0) as [Hneg | _]; [lia |].
  cbn [fst snd bio_pos bio_data].
  rewrite Hx, Hd, Hp, firstn_skipn_prefix by exact Hle.
  split; [reflexivity |]. split.
  - split; [reflexivity |]. split; [reflexivity | exists x; reflexivity].
  - rewrite length_firstn. lia.
Qed.

Lemma read_channels_prefix (d : bytes) (pad : bytes -> result bytes) (sz : Z)
  (n : nat) : forall (b1 b2 : BytesIO) (chunk : bytes),
  same_data d b1 b2 -> (0 <= sz)%Z ->
  bio_pos b2 + n * Z.to_nat sz <= List.length d ->
  fst (read_channels n pad sz b1 chunk) = fst (read_channels n pad sz b2 chunk)
  /\ same_data d (snd (read_channels n pad sz b1 chunk))
       (snd (read_channels n pad sz b2 chunk))
  /\ bio_pos (snd (read_channels n pad sz b2 chunk)) <= bio_pos b2 + n * Z.to_nat sz.
Proof.
  induction n as [| n IH]; intros b1 b2 chunk Hs Hsz Hle.
  - cbn [read_channels fst snd]. repeat split; try apply Hs. lia.
  - cbn [read_channels].
    destruct (read_prefix d b1 b2 sz Hs Hsz) as [Hx [Hs' Hp']]; [lia |].
    destruct (read b1 sz) as [x1 b1']. destruct (read b2 sz) as [x2 b2'].
    cbn [fst snd] in Hx, Hs', Hp'. subst x2.
    destruct (pad x1) as [y | e].
    + destruct (IH b1' b2' (chunk ++ y)%list Hs' Hsz) as [H1 [H2 H3]]; [lia |].
      split; [exact H1 |]. split; [exact H2 | lia].
    + cbn [fst snd]. split; [reflexivity |]. split; [exact Hs' | lia].
Qed.

Lemma next_prefix (d : bytes) (ms1 ms2 : MemScope) :
  same_view d ms1 ms2 -> (0 <= size (dev_cfg ms2))%Z ->
  bio_pos (buffer ms2)
  + Z.to_nat (channels (dev_cfg ms2)) * Z.to_nat (size (dev_cfg ms2))
  <= List.length d ->
  fst (next ms1) = fst (next ms2)
  /\ same_view d (snd (next ms1)) (snd (next ms2))
  /\ bio_pos (buffer (snd (next ms2)))
     <= bio_pos (buffer ms2)
        + Z.to_nat (channels (dev_cfg ms2)) * Z.to_nat (size (dev_cfg ms2)).
Proof.
  intros [Hc [Hst [Hpad Hs]]] Hsz Hle. unfold next. rewrite Hc, Hst, Hpad.
  destruct (read_channels_prefix d (padding ms2) (size (dev_cfg ms2))
              (Z.to_nat (channels (dev_cfg ms2))) (buffer ms1) (buffer ms2) []
              Hs Hsz Hle) as [H1 [H2 H3]].
  destruct (read_channels _ _ _ (buffer ms1) []) as [r1 b1'].
  destruct (read_channels _ _ _ (buffer ms2) []) as [r2 b2'].
  cbn [fst snd] in *. subst r2.
  split; [reflexivity |]. split; [| exact H3].
  unfold same_view. cbn [MemScope.set_buffer dev_cfg struct_ padding buffer].
  repeat split; try assumption; apply H2.
Qed.

Lemma probe_data_prefix (d : bytes) (n : nat) : forall ms1 ms2 : MemScope,
  same_view d ms1 ms2 -> (0 <= size (dev_cfg ms2))%Z ->
  bio_pos (buffer ms2)
  + n * (Z.to_nat (channels (dev_cfg ms2)) * Z.to_nat (size (dev_cfg ms2)))
  <= List.length d ->
  probe_data n ms1 = probe_data n ms2.
Proof.
  induction n as [| n IH]; intros ms1 ms2 Hv Hsz Hle; [reflexivity |].
  cbn [probe_data].
  destruct (next_prefix d ms1 ms2 Hv Hsz) as [H1 [H2 H3]]; [lia |].
  pose proof Hv as [Hc _].
  assert (Hc2 : dev_cfg (snd (next ms2)) = dev_cfg ms2).
  { unfold next. destruct (read_channels _ _ _ _ _). reflexivity. }
  destruct (next ms1) as [r1 ms1']. destruct (next ms2) as [r2 ms2'].
  cbn [fst snd] in *. subst r2.
  destruct r1 as [packet | e]; [| reflexivity].
  rewrite Hc, (IH ms1' ms2' H2); [reflexivity | rewrite Hc2; exact Hsz |].
  rewrite Hc2. lia.
Qed.

(** The probe looks at the first [sample_size] frames only: what
    follows them in the buffer does not change its answer, be it a
    classification or an exception. *)
Theorem probe_first_frames (cfg : AlsaDeviceConfig) (thr : HystComp)
  (sample_size : Z) (buf extra : bytes) :
  (0 <= size cfg)%Z ->
  Z.to_nat sample_size * (Z.to_nat (channels cfg) * Z.to_nat (size cfg))
  <= List.length buf ->
  probe cfg thr sample_size (buf ++ extra) = probe cfg thr sample_size buf.
Proof.
  intros Hsz Hlen. unfold probe, MemScope_init.
  destruct (_struct_str cfg) as [st | e]; [| reflexivity]. cbn [bind].
  destruct (sample_size <? 0)%Z; [reflexivity |]. cbn [bind].
  rewrite (probe_data_prefix buf (Z.to_nat sample_size) _
             (iter {| dev_cfg := cfg; buffer := BytesIO_new buf; struct_ := st;
                      padding := padding_of (signed cfg) (size cfg) (endian cfg) |}));
    [reflexivity | | exact Hsz | exact Hlen].
  unfold same_view, same_data. cbn. repeat split. exists extra. reflexivity.
Qed.

Lemma probe_first_frames_witness :
  let cfg := {| pcm_name := "default"; format := "PCM_FORMAT_S16_LE"; size := 2;
                signed := true; endian := Some "LE"%string; channels := 2;
                rate := 48000; frame_size := 4; period_size := 1024;
                period_time := 1024 # 48000; maxamp := 32768; reference := 0 |} in
  (0 <= size cfg)%Z
  /\ Z.to_nat 1 * (Z.to_nat (channels cfg) * Z.to_nat (size cfg))
     <= List.length [x01; x00; xff; x7f]%byte
  /\ probe cfg (probe_setter 32768 (- 10)%R) 1
       ([x01; x00; xff; x7f] ++ [x00; x80; x00; x80])%byte
     = probe cfg (probe_setter 32768 (- 10)%R) 1 [x01; x00; xff; x7f]%byte.
Proof.
  cbv zeta. split; [cbn; lia |]. split; [cbn; lia |].
  apply (probe_first_frames
           {| pcm_name := "default"; format := "PCM_FORMAT_S16_LE"; size := 2;
              signed := true; endian := Some "LE"%string; channels := 2;
              rate := 48000; frame_size := 4; period_size := 1024;
              period_time := 1024 # 48000; maxamp := 32768; reference := 0 |}
           (probe_setter 32768 (- 10)%R) 1
           [x01; x00; xff; x7f]%byte [x00; x80; x00; x80]%byte);
    cbn; lia.
Defined.

End PrefixFacts.

(** ** Exceptions that no handler catches *)

Section FaultFacts.
Import Py MemScope Loop Invariant.
Local Open Scope nat_scope.




(** An exception of the probe is caught nowhere either: [_idle] ends
    with it after having stored the buffer, the state stays IDLE and no
    handler is left to probe again; the loop keeps running. *)
Theorem idle_ends_on_probe_error probe (s : LSM) (i : nat) (t : task)
  (io : ports) (c : Z) (b : bytes) (e : exn) :
  stopped s = false ->
  nth_error (tasks s) i = Some t -> body t = idle c -> ready s t = true ->
  state s = PlayerState.IDLE ->
  capture_read io = Ok b -> probe b = Raise e ->
  step probe s (Resume i io)
  = Some (set_crashed (set_buffer (set_tasks s (remove_nth i (tasks s))) b)
            (crashed s ++ [e])).
Proof.
  intros Hs Ht Hb Hr Hst Hread Hp.
  rewrite (step_resume probe s i io t Hs Ht Hr), Hb. cbn [activate].
  unfold idle_body, SE.bind, SE.get, SE.lift, SE.modify.
  cbn [state set_tasks]. rewrite Hst, Hread. cbn [PlayerState.eqb].
  rewrite Hp. reflexivity.
Qed.

Lemma idle_ends_on_probe_error_witness :
  step (fun _ => Raise StatisticsError) idling (Resume 1 (working_ports []))
  = Some (set_crashed (set_buffer (set_tasks idling (remove_nth 1 (tasks idling))) [])
            (crashed idling ++ [StatisticsError])).
Proof.
  apply (idle_ends_on_probe_error (fun _ => Raise StatisticsError) idling 1
           {| wake_at := 1 # 4; body := idle 0 |} (working_ports []) 0 []
           StatisticsError);
    reflexivity.
Defined.

End FaultFacts.

Section UsbOpenFacts.
Import Py MemScope.



End UsbOpenFacts.
